(** * direct_bt: EUI-48 and EIR decoding (BTTypes) and the GATT client engine (GATTHandler.cpp)

    A shallow embedding of the advertising-data decoder, of the EUI-48
    text conversions and of the request/response procedures of the GATT
    handler, with the properties of the specification stated on them. *)

From Stdlib Require Import ZArith List String Ascii Bool Lia.
Import ListNotations.
Open Scope Z_scope.

(** ** Errors thrown by the library *)

Inductive exn : Type :=
| IllegalArgumentException
| InvalidStateException
| InternalError
| IndexOutOfBoundsException.

(** ** EUI-48 addresses: text form *)

Module EUI48.

(** [uint8_t b[6]], least significant octet first. *)
Record t : Type := mk { b0 : Z; b1 : Z; b2 : Z; b3 : Z; b4 : Z; b5 : Z }.

Definition ascii_Z (c : ascii) : Z := Z.of_nat (nat_of_ascii c).

Definition in_range (lo hi : Z) (c : ascii) : bool :=
  (lo <=? ascii_Z c) && (ascii_Z c <=? hi).

(** C [isspace] in the "C" locale: space, \t \n \v \f \r. *)
Definition isspace (c : ascii) : bool :=
  (ascii_Z c =? 32) || in_range 9 13 c.

(** Value of a hexadecimal digit, as [sscanf]'s [%x] reads it. *)
Definition hexval (c : ascii) : option Z :=
  if in_range 48 57 c then Some (ascii_Z c - 48)
  else if in_range 97 102 c then Some (ascii_Z c - 87)
  else if in_range 65 70 c then Some (ascii_Z c - 55)
  else None.

Definition isxdigit (c : ascii) : bool :=
  match hexval c with Some _ => true | None => false end.

Fixpoint skip_ws (s : string) : string :=
  match s with
  | String c r => if isspace c then skip_ws r else s
  | EmptyString => s
  end.

(** At most [w] hexadecimal digits, accumulated on [acc]; [n] counts them. *)
Fixpoint scan_digits (w : nat) (acc : Z) (n : nat) (s : string)
  : Z * nat * string :=
  match w, s with
  | S w', String c r =>
      match hexval c with
      | Some d => scan_digits w' (16 * acc + d) (S n) r
      | None => (acc, n, s)
      end
  | _, _ => (acc, n, s)
  end.

Definition is_x (c : ascii) : bool := (ascii_Z c =? 120) || (ascii_Z c =? 88).

(** The conversion [%02hhx] of [sscanf]: the field width is 2 (a leading
    zero in a width means nothing to scanf); white space is skipped, a
    sign and a [0x] prefix count against the width, and the value is
    stored into an [unsigned char]. At least one digit must be read; the
    [0] of a prefix [0x] with no digit after it is one, and reads as 0
    with the [x] consumed. *)
Definition scan_hhx (w : nat) (s : string) : option (Z * string) :=
  let s1 := skip_ws s in
  let '(neg, w1, s2) :=
    match s1 with
    | String c r =>
        if ascii_Z c =? 45 then (true, Nat.pred w, r)
        else if ascii_Z c =? 43 then (false, Nat.pred w, r)
        else (false, w, s1)
    | EmptyString => (false, w, s1)
    end in
  let '(prefix, w2, s3) :=
    match w1, s2 with
    | S (S w'), String c0 (String cx r) =>
        if (ascii_Z c0 =? 48) && is_x cx then (true, w', r)
        else (false, w1, s2)
    | _, _ => (false, w1, s2)
    end in
  match scan_digits w2 0 0 s3 with
  | (_, O, _) => if prefix then Some (0, s3) else None
  | (v, S _, rest) => Some ((if neg then - v else v) mod 256, rest)
  end.

(** A literal character of the format. *)
Definition scan_lit (l : ascii) (s : string) : option string :=
  match s with
  | String c r => if Ascii.eqb c l then Some r else None
  | EmptyString => None
  end.

(** [sscanf(str, "%02hhx:%02hhx:%02hhx:%02hhx:%02hhx:%02hhx", ...)]:
    the values assigned, in the order of the directives; the number of
    assignments is the length of the result. *)
Fixpoint sscanf_fields (n : nat) (s : string) : list Z :=
  match n with
  | O => []
  | S n' =>
      match scan_hhx 2 s with
      | None => []
      | Some (v, rest) =>
          v :: match n' with
               | O => []
               | S _ => match scan_lit ":" rest with
                        | Some rest' => sscanf_fields n' rest'
                        | None => []
                        end
               end
      end
  end.

(** [EUI48::EUI48(const std::string str)] *)
Definition of_string (str : string) : exn + t :=
  if negb (Nat.eqb (String.length str) 17) then inl IllegalArgumentException
  else
    match sscanf_fields 6 str with
    | [v5; v4; v3; v2; v1; v0] => inr (mk v0 v1 v2 v3 v4 v5)
    | _ => inl IllegalArgumentException
    end.

Definition hexdigit_upper (n : Z) : ascii :=
  ascii_of_nat (Z.to_nat (if n <? 10 then 48 + n else 55 + n)).

(** [%2.2X] applied to an octet. *)
Definition print_2X (v : Z) (k : string) : string :=
  let v := v mod 256 in
  String (hexdigit_upper (v / 16)) (String (hexdigit_upper (v mod 16)) k).

(** [EUI48::toString()] *)
Definition toString (a : t) : exn + string :=
  let str :=
    print_2X (b5 a) (String ":" (print_2X (b4 a) (String ":"
   (print_2X (b3 a) (String ":" (print_2X (b2 a) (String ":"
   (print_2X (b1 a) (String ":" (print_2X (b0 a) "")))))))))) in
  if Nat.eqb (String.length str) 17 then inr str else inl InternalError.

(** Text form of the data model: 17 characters, six pairs of
    hexadecimal digits separated by colons. *)
Definition is_colon (c : ascii) : bool := Ascii.eqb c ":".

Fixpoint valid_groups (n : nat) (s : string) : bool :=
  match n, s with
  | S O, String h (String l EmptyString) => isxdigit h && isxdigit l
  | S (S _ as n'), String h (String l (String c r)) =>
      isxdigit h && isxdigit l && is_colon c && valid_groups n' r
  | _, _ => false
  end.

Definition valid (s : string) : bool :=
  Nat.eqb (String.length s) 17 && valid_groups 6 s.

Definition toupper (c : ascii) : ascii :=
  if in_range 97 122 c then ascii_of_nat (nat_of_ascii c - 32) else c.

Fixpoint toUpperCase (s : string) : string :=
  match s with
  | EmptyString => EmptyString
  | String c r => String (toupper c) (toUpperCase r)
  end.

End EUI48.

(** ** Advertising / EIR data *)

Module EIR.

(** An octet read through a [uint8_t const *]: the buffer is the memory
    from the pointer on, its significant length is passed separately, as
    in the C signatures. The model reads 0 past the end of the list. *)
Definition u8 (x : Z) : Z := x mod 256.

Definition rd (data : list Z) (i : Z) : Z := u8 (nth (Z.to_nat i) data 0).

(** [const_uint8_to_const_int8_ptr]: the same octet seen as [int8_t]. *)
Definition int8 (x : Z) : Z := if x <? 128 then x else x - 256.

Definition get_uint16 (data : list Z) (off : Z) : Z :=
  Z.lor (rd data off) (Z.shiftl (rd data (off + 1)) 8).

Fixpoint get_le (n : nat) (data : list Z) (off : Z) : Z :=
  match n with
  | O => 0
  | S n' => Z.lor (rd data off) (Z.shiftl (get_le n' data (off + 1)) 8)
  end.

Definition octets (data : list Z) (off : Z) (len : Z) : list Z :=
  map (fun k => rd data (off + Z.of_nat k)) (seq 0 (Z.to_nat len)).

(** Modelled from the spec: the GAP AD-type constants [GAP_T] of
    BTTypes.hpp, which is not part of the sources at hand; the values are
    the assigned numbers the spec's decode scenario uses (01 flags,
    03 complete 16-bit UUIDs, 08 short name). *)
Module GAP_T.
Definition FLAGS := 1.
Definition UUID16_INCOMPLETE := 2.
Definition UUID16_COMPLETE := 3.
Definition UUID32_INCOMPLETE := 4.
Definition UUID32_COMPLETE := 5.
Definition UUID128_INCOMPLETE := 6.
Definition UUID128_COMPLETE := 7.
Definition NAME_LOCAL_SHORT := 8.
Definition NAME_LOCAL_COMPLETE := 9.
Definition TX_POWER_LEVEL := 10.
Definition SSP_CLASS_OF_DEVICE := 13.
Definition SSP_HASH_C192 := 14.
Definition SSP_RANDOMIZER_R192 := 15.
Definition DEVICE_ID := 16.
Definition SOLICIT_UUID16 := 20.
Definition SOLICIT_UUID128 := 21.
Definition SVC_DATA_UUID16 := 22.
Definition PUB_TRGT_ADDR := 23.
Definition RND_TRGT_ADDR := 24.
Definition GAP_APPEARANCE := 25.
Definition SOLICIT_UUID32 := 31.
Definition SVC_DATA_UUID32 := 32.
Definition SVC_DATA_UUID128 := 33.
Definition MANUFACTURE_SPECIFIC := 255.
End GAP_T.

(** Modelled from the spec: the bits of [EIRDataType] (BTTypes.hpp is
    absent), one bit per field in the order the data model lists them. *)
Module EIRDataType.
Definition NONE := 0.
Definition EVT_TYPE := Z.shiftl 1 0.
Definition BDADDR_TYPE := Z.shiftl 1 1.
Definition BDADDR := Z.shiftl 1 2.
Definition FLAGS := Z.shiftl 1 3.
Definition NAME := Z.shiftl 1 4.
Definition NAME_SHORT := Z.shiftl 1 5.
Definition RSSI := Z.shiftl 1 6.
Definition TX_POWER := Z.shiftl 1 7.
Definition MANUF_DATA := Z.shiftl 1 8.
Definition DEVICE_CLASS := Z.shiftl 1 9.
Definition APPEARANCE := Z.shiftl 1 10.
Definition HASH := Z.shiftl 1 11.
Definition RANDOMIZER := Z.shiftl 1 12.
Definition DEVICE_ID := Z.shiftl 1 13.
Definition SERVICE_UUID := Z.shiftl 1 14.
End EIRDataType.

Inductive uuid_t : Type :=
| uuid16_t (v : Z)
| uuid32_t (v : Z)
| uuid128_t (v : Z).

(** Modelled from the spec: equality of UUIDs of BTTypes.hpp / UUID.hpp
    (absent), "by the canonical 128-bit form using the Bluetooth Base
    UUID" 00000000-0000-1000-8000-00805F9B34FB. *)
Definition BT_BASE_UUID : Z := 0x0000000000001000800000805F9B34FB.

Definition toUUID128 (u : uuid_t) : Z :=
  match u with
  | uuid16_t v | uuid32_t v => BT_BASE_UUID + Z.shiftl v 96
  | uuid128_t v => v
  end.

Definition uuid_eqb (a b : uuid_t) : bool := toUUID128 a =? toUUID128 b.

Record EInfoReport : Type := mkReport {
  eir_data_mask : Z;
  flags : Z;
  name : list Z;
  name_short : list Z;
  tx_power : Z;
  device_class : Z;
  appearance : Z;
  hash : list Z;
  randomizer : list Z;
  did_source : Z;
  did_vendor : Z;
  did_product : Z;
  did_version : Z;
  msd : option (Z * list Z);
  services : list uuid_t
}.

Definition EInfoReport_new : EInfoReport :=
  mkReport 0 0 [] [] 0 0 0 [] [] 0 0 0 0 None [].

Definition set (bit : Z) (r : EInfoReport) : EInfoReport :=
  mkReport (Z.lor (eir_data_mask r) bit) (flags r) (name r) (name_short r)
    (tx_power r) (device_class r) (appearance r) (hash r) (randomizer r)
    (did_source r) (did_vendor r) (did_product r) (did_version r) (msd r)
    (services r).

(** Modelled from the spec: the inline setters of BTTypes.hpp (absent);
    "any setter marks its bit in dirty_mask". *)
Definition setFlags (f : Z) (r : EInfoReport) : EInfoReport :=
  set EIRDataType.FLAGS
    (mkReport (eir_data_mask r) f (name r) (name_short r)
       (tx_power r) (device_class r) (appearance r) (hash r) (randomizer r)
       (did_source r) (did_vendor r) (did_product r) (did_version r) (msd r)
       (services r)).

Definition setTxPower (v : Z) (r : EInfoReport) : EInfoReport :=
  set EIRDataType.TX_POWER
    (mkReport (eir_data_mask r) (flags r) (name r) (name_short r)
       v (device_class r) (appearance r) (hash r) (randomizer r)
       (did_source r) (did_vendor r) (did_product r) (did_version r) (msd r)
       (services r)).

Definition setDeviceClass (c : Z) (r : EInfoReport) : EInfoReport :=
  set EIRDataType.DEVICE_CLASS
    (mkReport (eir_data_mask r) (flags r) (name r) (name_short r)
       (tx_power r) c (appearance r) (hash r) (randomizer r)
       (did_source r) (did_vendor r) (did_product r) (did_version r) (msd r)
       (services r)).

Definition setAppearance (a : Z) (r : EInfoReport) : EInfoReport :=
  set EIRDataType.APPEARANCE
    (mkReport (eir_data_mask r) (flags r) (name r) (name_short r)
       (tx_power r) (device_class r) a (hash r) (randomizer r)
       (did_source r) (did_vendor r) (did_product r) (did_version r) (msd r)
       (services r)).

Definition setHash (h : list Z) (r : EInfoReport) : EInfoReport :=
  set EIRDataType.HASH
    (mkReport (eir_data_mask r) (flags r) (name r) (name_short r)
       (tx_power r) (device_class r) (appearance r) h (randomizer r)
       (did_source r) (did_vendor r) (did_product r) (did_version r) (msd r)
       (services r)).

Definition setRandomizer (h : list Z) (r : EInfoReport) : EInfoReport :=
  set EIRDataType.RANDOMIZER
    (mkReport (eir_data_mask r) (flags r) (name r) (name_short r)
       (tx_power r) (device_class r) (appearance r) (hash r) h
       (did_source r) (did_vendor r) (did_product r) (did_version r) (msd r)
       (services r)).

Definition setDeviceID (source vendor product version : Z) (r : EInfoReport)
  : EInfoReport :=
  set EIRDataType.DEVICE_ID
    (mkReport (eir_data_mask r) (flags r) (name r) (name_short r)
       (tx_power r) (device_class r) (appearance r) (hash r) (randomizer r)
       source vendor product version (msd r) (services r)).

Definition setManufactureSpecificData (company : Z) (d : list Z)
  (r : EInfoReport) : EInfoReport :=
  set EIRDataType.MANUF_DATA
    (mkReport (eir_data_mask r) (flags r) (name r) (name_short r)
       (tx_power r) (device_class r) (appearance r) (hash r) (randomizer r)
       (did_source r) (did_vendor r) (did_product r) (did_version r)
       (Some (company, d)) (services r)).

(** Modelled from the spec: [get_string(buffer, len, 30)] of the octet
    primitives (absent): the name "truncated to 30". *)
Definition get_string (data : list Z) (off len max : Z) : list Z :=
  octets data off (Z.min len max).

(** [EInfoReport::setName] *)
Definition setName (data : list Z) (off len : Z) (r : EInfoReport)
  : EInfoReport :=
  set EIRDataType.NAME
    (mkReport (eir_data_mask r) (flags r) (get_string data off len 30)
       (name_short r)
       (tx_power r) (device_class r) (appearance r) (hash r) (randomizer r)
       (did_source r) (did_vendor r) (did_product r) (did_version r) (msd r)
       (services r)).

(** [EInfoReport::setShortName] *)
Definition setShortName (data : list Z) (off len : Z) (r : EInfoReport)
  : EInfoReport :=
  set EIRDataType.NAME_SHORT
    (mkReport (eir_data_mask r) (flags r) (name r)
       (get_string data off len 30)
       (tx_power r) (device_class r) (appearance r) (hash r) (randomizer r)
       (did_source r) (did_vendor r) (did_product r) (did_version r) (msd r)
       (services r)).

(** [EInfoReport::addService]: pushed unless an equal UUID is there. *)
Definition addService (u : uuid_t) (r : EInfoReport) : EInfoReport :=
  if existsb (fun p => uuid_eqb p u) (services r) then r
  else
    mkReport (eir_data_mask r) (flags r) (name r) (name_short r)
      (tx_power r) (device_class r) (appearance r) (hash r) (randomizer r)
      (did_source r) (did_vendor r) (did_product r) (did_version r) (msd r)
      (services r ++ [u]).

Definition ENOENT : Z := 2.

(** The out-parameters of [next_data_elem]; [elem_data] is the offset of
    the net data in the buffer [data] (the C pointer [data + offset + 2]). *)
Record elem : Type := mkElem { elem_len : Z; elem_type : Z; elem_data : Z }.

(** [EInfoReport::next_data_elem]: the returned [int] and the
    out-parameters, which are written on success only. *)
Definition next_data_elem (out : elem) (data : list Z) (offset size : Z)
  : Z * elem :=
  if offset <? size then
    let len := rd data offset in
    if len =? 0 then (0, out)
    else if len + offset >? size then (- ENOENT, out)
    else (offset + 1 + len,
          mkElem (u8 (len - 1)) (rd data (offset + 1)) (offset + 2))
  else (- ENOENT, out).

(** [for(int j=0; j<elem_len/w; j++) addService(uuid(elem_data, j*w))] *)
Definition add_uuids (mk : Z -> uuid_t) (w : nat) (data : list Z) (e : elem)
  (r : EInfoReport) : EInfoReport :=
  fold_left
    (fun r j => addService
                  (mk (get_le w data (elem_data e + Z.of_nat j * Z.of_nat w))) r)
    (seq 0 (Z.to_nat (elem_len e / Z.of_nat w))) r.

Definition one_of (t : Z) (l : list Z) : bool := existsb (Z.eqb t) l.

(** The [switch (elem_type)] of [read_data]; cases that share a body in
    the source (stacked labels, no [break] between them) share a branch. *)
Definition decode_elem (data : list Z) (e : elem) (r : EInfoReport)
  : EInfoReport :=
  let t := elem_type e in
  let n := elem_len e in
  let p := elem_data e in
  if t =? GAP_T.FLAGS then
    if 1 <=? n then setFlags (int8 (rd data p)) r else r
  else if one_of t [GAP_T.UUID16_INCOMPLETE; GAP_T.UUID16_COMPLETE] then
    add_uuids uuid16_t 2 data e r
  else if one_of t [GAP_T.UUID32_INCOMPLETE; GAP_T.UUID32_COMPLETE] then
    add_uuids uuid32_t 4 data e r
  else if one_of t [GAP_T.UUID128_INCOMPLETE; GAP_T.UUID128_COMPLETE] then
    add_uuids uuid128_t 16 data e r
  else if t =? GAP_T.NAME_LOCAL_SHORT then setShortName data p n r
  else if t =? GAP_T.NAME_LOCAL_COMPLETE then setName data p n r
  else if t =? GAP_T.TX_POWER_LEVEL then
    if 1 <=? n then setTxPower (int8 (rd data p)) r else r
  else if t =? GAP_T.SSP_CLASS_OF_DEVICE then
    if 3 <=? n then
      setDeviceClass
        (Z.lor (Z.lor (rd data p) (Z.shiftl (rd data (p + 1)) 8))
           (Z.shiftl (rd data (p + 2)) 16)) r
    else r
  else if t =? GAP_T.DEVICE_ID then
    if 8 <=? n then
      setDeviceID
        (Z.lor (rd data 0) (Z.shiftl (rd data 1) 8))
        (Z.lor (rd data 2) (Z.shiftl (rd data 3) 8))
        (Z.lor (rd data 4) (Z.shiftl (rd data 5) 8))
        (Z.lor (rd data 6) (Z.shiftl (rd data 7) 8)) r
    else r
  else if one_of t [GAP_T.SOLICIT_UUID16; GAP_T.SOLICIT_UUID128;
                    GAP_T.SVC_DATA_UUID16; GAP_T.PUB_TRGT_ADDR;
                    GAP_T.RND_TRGT_ADDR; GAP_T.GAP_APPEARANCE] then
    if 2 <=? n then setAppearance (get_uint16 data p) r else r
  else if t =? GAP_T.SSP_HASH_C192 then
    if 16 <=? n then setHash (octets data p 16) r else r
  else if t =? GAP_T.SSP_RANDOMIZER_R192 then
    if 16 <=? n then setRandomizer (octets data p 16) r else r
  else if one_of t [GAP_T.SOLICIT_UUID32; GAP_T.SVC_DATA_UUID32;
                    GAP_T.SVC_DATA_UUID128] then r
  else if t =? GAP_T.MANUFACTURE_SPECIFIC then
    if 2 <=? n then
      setManufactureSpecificData (get_uint16 data p)
        (octets data (p + 2) (n - 2)) r
    else r
  else (* default: a warning on stderr *) r.

(** The [while] loop of [read_data]; [None] when the fuel runs out. *)
Fixpoint read_data_loop (fuel : nat) (data : list Z) (data_length : Z)
  (out : elem) (offset count : Z) (r : EInfoReport)
  : option (EInfoReport * Z) :=
  match fuel with
  | O => None
  | S fuel' =>
      let '(offset', out') := next_data_elem out data offset data_length in
      if 0 <? offset' then
        read_data_loop fuel' data data_length out' offset' (count + 1)
          (decode_elem data out' r)
      else Some (r, count)
  end.

(** [EInfoReport::read_data(data, data_length)]: the report afterwards and
    the returned count. The length is a [uint8_t]; one element takes at
    least two octets, so [data_length + 1] rounds are more than enough. *)
Definition read_data (r : EInfoReport) (data : list Z) (data_length : Z)
  : option (EInfoReport * Z) :=
  read_data_loop (S (Z.to_nat (u8 data_length))) data (u8 data_length)
    (mkElem 0 0 0) 0 0 r.

End EIR.

(** ** GATT client engine *)

Module GATT.

Import EIR.

(** [GATTHandler::State], in the order of [STATE_ENUM]; the code only
    compares states with [Disconnected]. *)
Inductive State : Type :=
| Error | Disconnected | Connecting | Connected | RequestInProgress
| DiscoveringCharacteristics | GetClientCharaceristicConfiguration
| WaitWriteResponse | WaitReadResponse.

Definition rank (s : State) : Z :=
  match s with
  | Error => -1 | Disconnected => 0 | Connecting => 1 | Connected => 2
  | RequestInProgress => 3 | DiscoveringCharacteristics => 4
  | GetClientCharaceristicConfiguration => 5
  | WaitWriteResponse => 6 | WaitReadResponse => 7
  end.

(** [Disconnected < s] *)
Definition is_open (s : State) : bool := rank Disconnected <? rank s.

Definition uuid_size (u : uuid_t) : Z :=
  match u with uuid16_t _ => 2 | uuid32_t _ => 4 | uuid128_t _ => 16 end.

Module GattAttributeType.
Definition PRIMARY_SERVICE := 0x2800.
Definition CHARACTERISTIC := 0x2803.
Definition CLIENT_CHARACTERISTIC_CONFIGURATION := 0x2902.
End GattAttributeType.

(** One element of an [ATT_READ_BY_GROUP_TYPE_RSP]. *)
Record GroupElement : Type := mkGroupElement {
  ge_start : Z; ge_end : Z; ge_uuid : uuid_t
}.

(** One element of an [ATT_READ_BY_TYPE_RSP]: attribute handle and the
    octets of its value. *)
Record TypeElement : Type := mkTypeElement {
  te_handle : Z; te_value : list Z
}.

(** Modelled from the spec: ATTPDUTypes.hpp is absent; the PDU factory
    "classifies a raw buffer into a typed PDU", and this is the typed
    view, one constructor per opcode the handler sends or branches on.
    [AttReadByTypeRsp] keeps its element total size, which the handler
    tests. *)
Inductive AttPDUMsg : Type :=
| AttErrorRsp (errorCode : Z)
| AttExchangeMTUReq (mtu : Z)
| AttExchangeMTURsp (mtu : Z)
| AttReadByNTypeReq (group : bool) (startHandle endHandle : Z) (type : uuid_t)
| AttReadByTypeRsp (esz : Z) (elements : list TypeElement)
| AttReadByGroupTypeRsp (elements : list GroupElement)
| AttReadReq (handle : Z)
| AttReadRsp (value : list Z)
| AttReadBlobReq (handle : Z) (offset : Z)
| AttReadBlobRsp (value : list Z)
| AttWriteReq (handle : Z) (value : list Z)
| AttWriteRsp
| AttHandleValueNtf (handle : Z) (value : list Z)
| AttHandleValueInd (handle : Z) (value : list Z)
| AttHandleValueCfm
| AttMultipleHandleValueNtf (raw : list Z)
| AttOther (opcode : Z) (raw : list Z).

Definition len (l : list Z) : Z := Z.of_nat (List.length l).

(** Modelled from the spec: [msg.pdu.getSize()], the octets of the PDU on
    the wire: one opcode octet, then the fields, 16-bit fields taking two
    octets; a group element is start, end and UUID. *)
Definition getSize (m : AttPDUMsg) : Z :=
  match m with
  | AttErrorRsp _ => 5
  | AttExchangeMTUReq _ | AttExchangeMTURsp _ => 3
  | AttReadByNTypeReq _ _ _ t => 5 + uuid_size t
  | AttReadByTypeRsp esz els => 2 + esz * Z.of_nat (List.length els)
  | AttReadByGroupTypeRsp els =>
      2 + match els with
          | e :: _ => (4 + uuid_size (ge_uuid e)) * Z.of_nat (List.length els)
          | [] => 0
          end
  | AttReadReq _ => 3
  | AttReadRsp v | AttReadBlobRsp v => 1 + len v
  | AttReadBlobReq _ _ => 5
  | AttWriteReq _ v => 3 + len v
  | AttWriteRsp => 1
  | AttHandleValueNtf _ v | AttHandleValueInd _ v => 3 + len v
  | AttHandleValueCfm => 1
  | AttMultipleHandleValueNtf raw | AttOther _ raw => 1 + len raw
  end.

(** Modelled from the spec: [getMaxPDUValueSize(mtu)] of the read
    responses, "the maximum allowed (used_mtu - 1)". *)
Definition getMaxPDUValueSize (mtu : Z) : Z := mtu - 1.

(** [AttErrorRsp::ATTRIBUTE_NOT_LONG] *)
Definition ATTRIBUTE_NOT_LONG : Z := 0x0B.

Record GATTClientCharacteristicConfigDecl : Type := mkCCCD {
  cccd_handle : Z; cccd_value : Z
}.

(** [GATTCharacterisicsDecl]; [handle] is the characteristic value handle. *)
Record GATTCharacterisicsDecl : Type := mkDecl {
  service_uuid : uuid_t;
  service_handle : Z;
  service_handle_end : Z;
  properties : Z;
  handle : Z;
  uuid : uuid_t;
  config : option GATTClientCharacteristicConfigDecl
}.

Record GATTUUIDHandleRange : Type := mkRange {
  startHandle : Z; endHandle : Z; range_uuid : uuid_t
}.

Record GATTPrimaryService : Type := mkService {
  declaration : GATTUUIDHandleRange;
  characteristicDeclList : list GATTCharacterisicsDecl
}.

(** What the outside observes, in order: writes to the L2CAP channel
    (with the result of the write) and calls of the listeners. *)
Inductive Event : Type :=
| EvWrite (msg : AttPDUMsg) (res : Z)
| EvNotification (decl : option GATTCharacterisicsDecl) (pdu : AttPDUMsg)
| EvIndication (decl : option GATTCharacterisicsDecl) (pdu : AttPDUMsg)
    (confirmationSent : bool).

(** The L2CAP channel, an external collaborator: whether it is open, its
    state, the state its next [connect()] reaches, and the results its
    next [write()] calls return (a full write once the list is used up). *)
Record L2CAPComm : Type := mkL2CAP {
  l2_isOpen : bool;
  l2_state : State;
  l2_connect_result : State;
  l2_write_results : list Z
}.

Record GATTHandler : Type := mkHandler {
  state : State;
  l2cap : L2CAPComm;
  serverMTU : Z;
  usedMTU : Z;
  services : list GATTPrimaryService;
  attPDURing : list AttPDUMsg;
  gattNotificationListener : bool;
  gattIndicationListener : bool;
  sendIndicationConfirmation : bool;
  trace : list Event
}.

Definition with_state (s : State) (h : GATTHandler) : GATTHandler :=
  mkHandler s (l2cap h) (serverMTU h) (usedMTU h) (services h) (attPDURing h)
    (gattNotificationListener h) (gattIndicationListener h)
    (sendIndicationConfirmation h) (trace h).

Definition with_l2cap (l : L2CAPComm) (h : GATTHandler) : GATTHandler :=
  mkHandler (state h) l (serverMTU h) (usedMTU h) (services h) (attPDURing h)
    (gattNotificationListener h) (gattIndicationListener h)
    (sendIndicationConfirmation h) (trace h).

Definition with_serverMTU (m : Z) (h : GATTHandler) : GATTHandler :=
  mkHandler (state h) (l2cap h) m (usedMTU h) (services h) (attPDURing h)
    (gattNotificationListener h) (gattIndicationListener h)
    (sendIndicationConfirmation h) (trace h).

Definition with_usedMTU (m : Z) (h : GATTHandler) : GATTHandler :=
  mkHandler (state h) (l2cap h) (serverMTU h) m (services h) (attPDURing h)
    (gattNotificationListener h) (gattIndicationListener h)
    (sendIndicationConfirmation h) (trace h).

Definition with_ring (q : list AttPDUMsg) (h : GATTHandler) : GATTHandler :=
  mkHandler (state h) (l2cap h) (serverMTU h) (usedMTU h) (services h) q
    (gattNotificationListener h) (gattIndicationListener h)
    (sendIndicationConfirmation h) (trace h).

Definition with_trace (t : list Event) (h : GATTHandler) : GATTHandler :=
  mkHandler (state h) (l2cap h) (serverMTU h) (usedMTU h) (services h)
    (attPDURing h) (gattNotificationListener h) (gattIndicationListener h)
    (sendIndicationConfirmation h) t.

(** *** The monad of the handler's methods

    A method runs on the handler and returns, throws, waits for ever on
    the empty inbound queue, or (loops only) runs out of fuel. *)
Inductive outcome (A : Type) : Type :=
| Ret (a : A) (h : GATTHandler)
| Throw (e : exn) (h : GATTHandler)
| Blocked (h : GATTHandler)
| OutOfFuel.

Arguments Ret {A} a h.
Arguments Throw {A} e h.
Arguments Blocked {A} h.
Arguments OutOfFuel {A}.

Definition M (A : Type) : Type := GATTHandler -> outcome A.

Definition ret {A} (a : A) : M A := fun h => Ret a h.

Definition bind {A B} (m : M A) (f : A -> M B) : M B :=
  fun h =>
    match m h with
    | Ret a h' => f a h'
    | Throw e h' => Throw e h'
    | Blocked h' => Blocked h'
    | OutOfFuel => OutOfFuel
    end.

Definition throw {A} (e : exn) : M A := fun h => Throw e h.
Definition gets {A} (f : GATTHandler -> A) : M A := fun h => Ret (f h) h.
Definition modify (f : GATTHandler -> GATTHandler) : M unit :=
  fun h => Ret tt (f h).
Definition emit (e : Event) : M unit :=
  modify (fun h => with_trace (trace h ++ [e]) h).

Notation "x <- m ;; k" := (bind m (fun x => k))
  (at level 61, m at next level, right associativity).
Notation "m ;;; k" := (bind m (fun _ => k))
  (at level 61, right associativity).

(** [while(!done) { body }]: the body returns [inl] to go round again and
    [inr] when it has set [done] (or left by [break]). *)
Fixpoint while {S : Type} (fuel : nat) (body : S -> M (S + S)) (s : S) : M S :=
  match fuel with
  | O => fun _ => OutOfFuel
  | Datatypes.S fuel' =>
      r <- body s ;;
      match r with
      | inl s' => while fuel' body s'
      | inr s' => ret s'
      end
  end.

(** [GATTHandler::validateState] *)
Definition validateState : M State :=
  fun h =>
    let a := is_open (state h) in
    let b := l2_isOpen (l2cap h) in
    let c := is_open (l2_state (l2cap h)) in
    if (a || b || c)
       && (negb (Bool.eqb a b) || negb (Bool.eqb a c) || negb (Bool.eqb b c))
    then Throw InvalidStateException h
    else Ret (state h) h.

(** [l2cap->write(ptr, size)]: the channel's answer, and the write seen
    from outside. *)
Definition l2cap_write (msg : AttPDUMsg) : M Z :=
  fun h =>
    let l := l2cap h in
    let '(res, rest) :=
      match l2_write_results l with
      | r :: rest => (r, rest)
      | [] => (getSize msg, [])
      end in
    Ret res
      (with_trace (trace h ++ [EvWrite msg res])
         (with_l2cap (mkL2CAP (l2_isOpen l) (l2_state l)
                        (l2_connect_result l) rest) h)).

(** [GATTHandler::send] *)
Definition send (msg : AttPDUMsg) : M bool :=
  s <- validateState ;;
  if negb (is_open s) then ret false
  else
    mtu <- gets usedMTU ;;
    if getSize msg >? mtu then throw IllegalArgumentException
    else
      res <- l2cap_write msg ;;
      if 0 >? res then modify (with_state Error) ;;; ret false
      else ret (res =? getSize msg).

(** [GATTHandler::receiveNext]: [attPDURing.getBlocking()] *)
Definition receiveNext : M AttPDUMsg :=
  fun h =>
    match attPDURing h with
    | pdu :: q => Ret pdu (with_ring q h)
    | [] => Blocked h
    end.

(** [GATTHandler::exchangeMTU] *)
Definition exchangeMTU (ClientMaxMTU clientMaxMTU : Z) : M Z :=
  if clientMaxMTU >? ClientMaxMTU then throw IllegalArgumentException
  else
    ok <- send (AttExchangeMTUReq clientMaxMTU) ;;
    if ok then
      pdu <- receiveNext ;;
      match pdu with
      | AttExchangeMTURsp m => ret m
      | _ => ret 0
      end
    else ret 0.

(** [l2cap->connect()]: the channel moves to the state it reaches and
    returns it. *)
Definition l2cap_connect : M State :=
  fun h =>
    let l := l2cap h in
    let s := l2_connect_result l in
    Ret s (with_l2cap (mkL2CAP (is_open s) s s (l2_write_results l)) h).

(** [GATTHandler::connect]; the reader thread it starts is modelled by
    the inbound queue holding what the reader will have put there. *)
Definition connect (ClientMaxMTU : Z) : M bool :=
  s <- validateState ;;
  if is_open s then ret true
  else
    s' <- l2cap_connect ;;
    modify (with_state s') ;;;
    s'' <- validateState ;;
    if negb (is_open s'') then ret false
    else
      mtu <- exchangeMTU ClientMaxMTU ClientMaxMTU ;;
      (if 0 <? mtu then modify (with_serverMTU mtu) else ret tt) ;;;
      srv <- gets serverMTU ;;
      modify (with_usedMTU (Z.min ClientMaxMTU srv)) ;;;
      ret true.

(** Modelled from the spec: [getElementHandle(i)] / [getElementEndHandle(i)]
    of ATTPDUTypes.hpp (absent) at [i = count-1]; "bounds are checked;
    out-of-range access fails with IndexOutOfRange", which is what index
    -1 of a response without elements is. *)
Definition last_element {A : Type} (els : list A) : M A :=
  match rev els with
  | e :: _ => ret e
  | [] => throw IndexOutOfBoundsException
  end.

Definition service_of (e : GroupElement) : GATTPrimaryService :=
  mkService (mkRange (ge_start e) (ge_end e) (ge_uuid e)) [].

(** One round of the loop of [discoverPrimaryServices], on
    [(startHandle, result)]. *)
Definition discoverPrimaryServices_body (st : Z * list GATTPrimaryService)
  : M (Z * list GATTPrimaryService + Z * list GATTPrimaryService) :=
  let '(startHandle, result) := st in
  ok <- send (AttReadByNTypeReq true startHandle 0xffff
                (uuid16_t GattAttributeType.PRIMARY_SERVICE)) ;;
  if ok then
    pdu <- receiveNext ;;
    match pdu with
    | AttReadByGroupTypeRsp els =>
        let result' := result ++ map service_of els in
        e <- last_element els ;;
        if ge_end e <? 0xffff then ret (inl (ge_end e + 1, result'))
        else ret (inr (ge_end e, result'))
    | AttErrorRsp _ => ret (inr st)
    | _ => (* unexpected reply *) ret (inr st)
    end
  else (* send failed *) ret (inr st).

(** [GATTHandler::discoverPrimaryServices(result)]: the returned flag
    and the contents of [result] afterwards. A round that goes on has
    taken a PDU from the inbound queue, which bounds the rounds. *)
Definition discoverPrimaryServices : M (bool * list GATTPrimaryService) :=
  n <- gets (fun h => List.length (attPDURing h)) ;;
  st <- while (S n) discoverPrimaryServices_body (1, []) ;;
  ret (0 <? Z.of_nat (List.length (snd st)), snd st).

Definition set_config (c : GATTClientCharacteristicConfigDecl)
  (d : GATTCharacterisicsDecl) : GATTCharacterisicsDecl :=
  mkDecl (service_uuid d) (service_handle d) (service_handle_end d)
    (properties d) (handle d) (uuid d) (Some c).

(** The loop over [j] of [discoverClientCharacteristicConfig]: the
    configuration goes to every declaration whose interval holds its
    handle. *)
Fixpoint attach_config (config_handle config_value : Z)
  (decls : list GATTCharacterisicsDecl) : list GATTCharacterisicsDecl :=
  match decls with
  | [] => []
  | decl :: rest =>
      let decl_handle_end :=
        match rest with
        | next :: _ => handle next
        | [] => service_handle_end decl
        end in
      (if (config_handle >? handle decl) && (config_handle <=? decl_handle_end)
       then set_config (mkCCCD config_handle config_value) decl
       else decl)
      :: attach_config config_handle config_value rest
  end.

(** The loop over the elements [i] of one response. *)
Definition attach_elements (esz : Z) (els : list TypeElement)
  (decls : list GATTCharacterisicsDecl) : list GATTCharacterisicsDecl :=
  fold_left
    (fun decls e =>
       if 4 =? esz
       then attach_config (te_handle e) (get_uint16 (te_value e) 0) decls
       else (* warning: unexpected element size *) decls)
    els decls.

(** One round of the loop of [discoverClientCharacteristicConfig], on
    [(handle, service->characteristicDeclList)]. *)
Definition discoverClientCharacteristicConfig_body (srv : GATTUUIDHandleRange)
  (st : Z * list GATTCharacterisicsDecl)
  : M (Z * list GATTCharacterisicsDecl + Z * list GATTCharacterisicsDecl) :=
  let '(h, decls) := st in
  ok <- send (AttReadByNTypeReq false h (endHandle srv)
                (uuid16_t GattAttributeType.CLIENT_CHARACTERISTIC_CONFIGURATION)) ;;
  if ok then
    pdu <- receiveNext ;;
    match pdu with
    | AttReadByTypeRsp esz els =>
        let decls' := attach_elements esz els decls in
        e <- last_element els ;;
        if te_handle e <? endHandle srv then ret (inl (te_handle e + 1, decls'))
        else ret (inr (te_handle e, decls'))
    | AttErrorRsp _ => ret (inr st)
    | _ => ret (inr st)
    end
  else ret (inr st).

(** [GATTHandler::discoverClientCharacteristicConfig(service)]: the
    returned flag and the service afterwards, its declarations updated
    in place. *)
Definition discoverClientCharacteristicConfig (service : GATTPrimaryService)
  : M (bool * GATTPrimaryService) :=
  n <- gets (fun h => List.length (attPDURing h)) ;;
  st <- while (S n)
          (discoverClientCharacteristicConfig_body (declaration service))
          (startHandle (declaration service), characteristicDeclList service) ;;
  ret (0 <? Z.of_nat (List.length (snd st)),
       mkService (declaration service) (snd st)).

(** One round of the loop of [readCharacteristicValue], on
    [(res, offset)]. The offset of an ATT_READ_BLOB_REQ is a field of 16
    bits (the PDU has 5 octets), to which the [int offset] is converted
    when the request is built. *)
Definition readCharacteristicValue_body (decl : GATTCharacterisicsDecl)
  (expectedLength : Z) (st : list Z * Z) : M (list Z * Z + list Z * Z) :=
  let '(res, offset) := st in
  if (0 <? expectedLength) && (expectedLength <=? offset) then ret (inr st)
  else if (0 =? expectedLength) && (0 <? offset) then ret (inr st)
  else
    sendRes <- (if 0 =? offset then send (AttReadReq (handle decl))
                else send (AttReadBlobReq (handle decl) (offset mod 65536))) ;;
    if sendRes then
      pdu <- receiveNext ;;
      mtu <- gets usedMTU ;;
      match pdu with
      | AttReadRsp v =>
          let st' := (res ++ v, offset + len v) in
          if len v <? getMaxPDUValueSize mtu then ret (inr st')
          else ret (inl st')
      | AttReadBlobRsp v =>
          if 0 =? len v then ret (inr st)
          else
            let st' := (res ++ v, offset + len v) in
            if len v <? getMaxPDUValueSize mtu then ret (inr st')
            else ret (inl st')
      | AttErrorRsp errorCode =>
          if ATTRIBUTE_NOT_LONG =? errorCode then ret (inr st)
          else (* warning: unexpected error *) ret (inr st)
      | _ => (* warning: unexpected reply *) ret (inr st)
      end
    else (* send failed *) ret (inr st).

(** [GATTHandler::readCharacteristicValue(decl, res, expectedLength)]:
    the returned flag and [res] afterwards. *)
Definition readCharacteristicValue (decl : GATTCharacterisicsDecl)
  (res : list Z) (expectedLength : Z) : M (bool * list Z) :=
  n <- gets (fun h => List.length (attPDURing h)) ;;
  st <- while (S n) (readCharacteristicValue_body decl expectedLength)
          (res, 0) ;;
  ret (snd st >? 0, fst st).

(** [GATTHandler::findCharacterisics(charHandle)] *)
Definition findCharacterisics_in (charHandle : Z) (service : GATTPrimaryService)
  : option GATTCharacterisicsDecl :=
  find (fun decl => charHandle =? handle decl) (characteristicDeclList service).

Fixpoint findCharacterisics (charHandle : Z) (svcs : list GATTPrimaryService)
  : option GATTCharacterisicsDecl :=
  match svcs with
  | [] => None
  | s :: rest =>
      match findCharacterisics_in charHandle s with
      | Some decl => Some decl
      | None => findCharacterisics charHandle rest
      end
  end.

(** The body of the reader's loop in [l2capReaderThreadImpl] after a
    positive read, on the PDU the factory made of the octets read. A
    listener call is the event it leaves on the trace; the capacity of
    the inbound queue is not modelled. *)
Definition l2capReader_onPDU (attPDU : AttPDUMsg) : M unit :=
  match attPDU with
  | AttHandleValueNtf hd _ =>
      l <- gets gattNotificationListener ;;
      if l then
        svcs <- gets services ;;
        emit (EvNotification (findCharacterisics hd svcs) attPDU)
      else ret tt
  | AttHandleValueInd hd _ =>
      flag <- gets sendIndicationConfirmation ;;
      cfmSent <- (if flag then send AttHandleValueCfm else ret false) ;;
      l <- gets gattIndicationListener ;;
      if l then
        svcs <- gets services ;;
        emit (EvIndication (findCharacterisics hd svcs) attPDU cfmSent)
      else ret tt
  | AttMultipleHandleValueNtf _ => ret tt
  | _ => modify (fun h => with_ring (attPDURing h ++ [attPDU]) h)
  end.

End GATT.

(** ** The statements of the engine's procedures *)

Module Procedures.

Import EIR GATT.

(** A connected engine whose channel is open and accepts every write in
    full: the state in which [validateState] agrees and [send] succeeds. *)
Definition ready (h : GATTHandler) : bool :=
  is_open (state h) && l2_isOpen (l2cap h) && is_open (l2_state (l2cap h))
  && match l2_write_results (l2cap h) with [] => true | _ :: _ => false end.

(** A full write of [msg], as the channel shows it. *)
Definition sent (msg : AttPDUMsg) : Event := EvWrite msg (getSize msg).

(** Responses are taken from the inbound queue up to and including the
    first at which [stop] holds; [stop] sees the state before and the
    response. *)
Fixpoint taken_until {S : Type} (stop : S -> AttPDUMsg -> bool)
  (next : S -> AttPDUMsg -> S) (s : S) (taken : list AttPDUMsg) : bool :=
  match taken with
  | [] => false
  | [x] => stop s x
  | x :: rest => negb (stop s x) && taken_until stop next (next s x) rest
  end.

(** No response of the queue makes [stop] hold. *)
Fixpoint never_stops {S : Type} (stop : S -> AttPDUMsg -> bool)
  (next : S -> AttPDUMsg -> S) (s : S) (queue : list AttPDUMsg) : bool :=
  match queue with
  | [] => true
  | x :: rest => negb (stop s x) && never_stops stop next (next s x) rest
  end.

(** The state after each response taken, starting from [s]. *)
Fixpoint states {S : Type} (next : S -> AttPDUMsg -> S) (s : S)
  (taken : list AttPDUMsg) : list S :=
  match taken with
  | [] => []
  | x :: rest => s :: states next (next s x) rest
  end.

(** *** Long read *)

(** The value a response to a read carries. *)
Definition payload (rsp : AttPDUMsg) : list Z :=
  match rsp with
  | AttReadRsp v | AttReadBlobRsp v => v
  | _ => []
  end.

Definition read_next (offset : Z) (rsp : AttPDUMsg) : Z :=
  offset + len (payload rsp).

(** The request written at [offset]: the first an ATT_READ_REQ, the
    later ones an ATT_READ_BLOB_REQ with the offset in its 16 bits. *)
Definition read_request (decl : GATTCharacterisicsDecl) (offset : Z) : Event :=
  sent (if 0 =? offset then AttReadReq (handle decl)
        else AttReadBlobReq (handle decl) (offset mod 65536)).

(** Conditions (i) to (v) of the long read as the specification lists
    them, for the response [rsp] arriving at [offset]. *)
Definition read_stop_spec (used_mtu expected_len : Z) (offset : Z)
  (rsp : AttPDUMsg) : bool :=
  let offset' := read_next offset rsp in
  ((0 <? expected_len) && (expected_len <=? offset'))
  || (expected_len =? 0)
  || match rsp with
     | AttReadRsp v => len v <? used_mtu - 1
     | AttReadBlobRsp v => (len v =? 0) || (len v <? used_mtu - 1)
     | AttErrorRsp code => code =? ATTRIBUTE_NOT_LONG
     | _ => false
     end.

(** The same with condition (v) widened to every ATT_ERROR_RSP, and a
    response of any other opcode added. *)
Definition read_stop (used_mtu expected_len : Z) (offset : Z)
  (rsp : AttPDUMsg) : bool :=
  let offset' := read_next offset rsp in
  ((0 <? expected_len) && (expected_len <=? offset'))
  || (expected_len =? 0)
  || match rsp with
     | AttReadRsp v => len v <? used_mtu - 1
     | AttReadBlobRsp v => (len v =? 0) || (len v <? used_mtu - 1)
     | _ => true
     end.

(** The tests of the loop as the code makes them. Before a request: (i),
    and [expectedLength == 0] with a positive offset. *)
Definition read_top_stop (expected_len offset : Z) : bool :=
  ((0 <? expected_len) && (expected_len <=? offset))
  || ((expected_len =? 0) && (0 <? offset)).

(** On a response: every branch that sets [done]. *)
Definition read_body_stop (used_mtu : Z) (rsp : AttPDUMsg) : bool :=
  match rsp with
  | AttReadRsp v => len v <? used_mtu - 1
  | AttReadBlobRsp v => (len v =? 0) || (len v <? used_mtu - 1)
  | _ => true
  end.

Definition read_stop_code (used_mtu expected_len : Z) (offset : Z)
  (rsp : AttPDUMsg) : bool :=
  read_top_stop expected_len (read_next offset rsp)
  || read_body_stop used_mtu rsp.

(** What a long read does with the inbound queue, for a given reading
    [stop] of "terminates exactly when". *)
Definition long_read_statement
  (stop : Z -> Z -> Z -> AttPDUMsg -> bool)
  (decl : GATTCharacterisicsDecl) (res : list Z) (expectedLength : Z)
  (h : GATTHandler) : Prop :=
  match readCharacteristicValue decl res expectedLength h with
  | Ret (b, res') h' =>
      exists taken,
        attPDURing h = taken ++ attPDURing h'
        /\ taken_until (stop (usedMTU h) expectedLength) read_next 0 taken = true
        /\ res' = res ++ List.concat (map payload taken)
        /\ b = (len (List.concat (map payload taken)) >? 0)
        /\ trace h' = trace h
                      ++ map (read_request decl) (states read_next 0 taken)
  | Blocked h' =>
      attPDURing h' = []
      /\ never_stops (stop (usedMTU h) expectedLength) read_next 0
           (attPDURing h) = true
  | Throw _ _ | OutOfFuel => False
  end.

(** *** Primary-service discovery *)

Definition services_in (rsp : AttPDUMsg) : list GATTPrimaryService :=
  match rsp with
  | AttReadByGroupTypeRsp els => map service_of els
  | _ => []
  end.

Definition last_end (rsp : AttPDUMsg) : option Z :=
  match rsp with
  | AttReadByGroupTypeRsp els => option_map ge_end (hd_error (rev els))
  | _ => None
  end.

(** The start handle of the request after [rsp]. *)
Definition discover_next (start : Z) (rsp : AttPDUMsg) : Z :=
  match last_end rsp with
  | Some e => e + 1
  | None => start
  end.

Definition discover_request (start : Z) : Event :=
  sent (AttReadByNTypeReq true start 0xffff
          (uuid16_t GattAttributeType.PRIMARY_SERVICE)).

(** The specification's reading of "finish": the last element's end
    handle is 0xFFFF, or the response is an ATT_ERROR_RSP. *)
Definition discover_finish_spec (start : Z) (rsp : AttPDUMsg) : bool :=
  match rsp with
  | AttReadByGroupTypeRsp _ =>
      match last_end rsp with Some e => e =? 0xffff | None => false end
  | AttErrorRsp _ => true
  | _ => false
  end.

(** The code's: also on any response of another opcode. *)
Definition discover_finish (start : Z) (rsp : AttPDUMsg) : bool :=
  match rsp with
  | AttReadByGroupTypeRsp _ =>
      match last_end rsp with Some e => e =? 0xffff | None => false end
  | _ => true
  end.

(** A response of the typed view as the factory builds it from a
    well-formed PDU: handles are 16-bit, a group response has an element. *)
Definition u16_range (x : Z) : bool := (0 <=? x) && (x <=? 0xffff).

Definition wf_rsp (rsp : AttPDUMsg) : bool :=
  match rsp with
  | AttReadByGroupTypeRsp els =>
      negb (Nat.eqb (List.length els) 0)
      && forallb (fun e => u16_range (ge_start e) && u16_range (ge_end e)) els
  | _ => true
  end.

Definition primary_discovery_statement
  (finish : Z -> AttPDUMsg -> bool) (h : GATTHandler) : Prop :=
  match discoverPrimaryServices h with
  | Ret (b, result) h' =>
      exists taken,
        attPDURing h = taken ++ attPDURing h'
        /\ taken_until finish discover_next 1 taken = true
        /\ result = List.concat (map services_in taken)
        /\ b = (0 <? Z.of_nat (List.length result))
        /\ trace h' = trace h
                      ++ map discover_request (states discover_next 1 taken)
  | Blocked h' =>
      attPDURing h' = []
      /\ never_stops finish discover_next 1 (attPDURing h) = true
  | Throw _ _ | OutOfFuel => False
  end.

(** *** MTU exchange on connect *)

(** A disconnected engine about to connect: the channel is closed and
    its [connect()] will open it, it accepts the request in full, and
    the queue will start with the response carrying [m]. *)
Definition connecting (h : GATTHandler) (m : Z) : bool :=
  negb (is_open (state h)) && negb (l2_isOpen (l2cap h))
  && negb (is_open (l2_state (l2cap h)))
  && is_open (l2_connect_result (l2cap h))
  && match l2_write_results (l2cap h) with [] => true | _ :: _ => false end
  && (3 <=? usedMTU h)
  && match attPDURing h with
     | AttExchangeMTURsp m' :: _ => m' =? m
     | _ => false
     end.

(** [serverMTU] after connect, for a rule [srv] giving the value stored
    for a positive [m]. *)
Definition connect_statement (srv : Z -> Z -> Z) (ClientMaxMTU : Z)
  (h : GATTHandler) (m : Z) : Prop :=
  exists h',
    connect ClientMaxMTU h = Ret true h'
    /\ serverMTU h' = (if 0 <? m then srv ClientMaxMTU m else serverMTU h)
    /\ usedMTU h' = Z.min ClientMaxMTU (serverMTU h').

(** *** Client characteristic configuration *)

(** Every configuration present lies after its declaration's value
    handle and not beyond the next declaration's value handle, or the
    service end handle the last declaration carries. *)
Fixpoint cccd_in_range (decls : list GATTCharacterisicsDecl) : bool :=
  match decls with
  | [] => true
  | c :: rest =>
      match config c with
      | Some cfg =>
          (handle c <? cccd_handle cfg)
          && (cccd_handle cfg <=?
                match rest with
                | next_c :: _ => handle next_c
                | [] => service_handle_end c
                end)
      | None => true
      end
      && cccd_in_range rest
  end.

(** Handles and service data of the declarations, which the procedure
    leaves alone. *)
Definition decl_ids (d : GATTCharacterisicsDecl)
  : uuid_t * Z * Z * Z * Z * uuid_t :=
  (service_uuid d, service_handle d, service_handle_end d, properties d,
   handle d, uuid d).

(** *** Engines to run the procedures on *)

Definition connected_engine (mtu : Z) (queue : list AttPDUMsg) : GATTHandler :=
  mkHandler Connected (mkL2CAP true Connected Connected []) mtu mtu []
    queue false true true [].

Definition disconnected_engine (mtu : Z) (queue : list AttPDUMsg)
  : GATTHandler :=
  mkHandler Disconnected (mkL2CAP false Disconnected Connected []) mtu mtu []
    queue false false false [].

End Procedures.

(** ** Statements about the decoder *)

Module Decoding.

Import EIR.

(** [isSet(bit)] of the report: [bit == (eir_data_mask & bit)]. *)
Definition isSet (r : EInfoReport) (bit : Z) : Prop :=
  Z.land (eir_data_mask r) bit = bit.

(** Every field of the report but the list of services differs from
    that of [r0] only under its bit of the data mask. The services are
    left out: [addService] pushes to them and marks no bit. *)
Definition dirty_covers (r0 r : EInfoReport) : Prop :=
  (flags r = flags r0 \/ isSet r EIRDataType.FLAGS)
  /\ (name r = name r0 \/ isSet r EIRDataType.NAME)
  /\ (name_short r = name_short r0 \/ isSet r EIRDataType.NAME_SHORT)
  /\ (tx_power r = tx_power r0 \/ isSet r EIRDataType.TX_POWER)
  /\ (msd r = msd r0 \/ isSet r EIRDataType.MANUF_DATA)
  /\ (device_class r = device_class r0 \/ isSet r EIRDataType.DEVICE_CLASS)
  /\ (appearance r = appearance r0 \/ isSet r EIRDataType.APPEARANCE)
  /\ (hash r = hash r0 \/ isSet r EIRDataType.HASH)
  /\ (randomizer r = randomizer r0 \/ isSet r EIRDataType.RANDOMIZER)
  /\ ((did_source r, did_vendor r, did_product r, did_version r)
      = (did_source r0, did_vendor r0, did_product r0, did_version r0)
      \/ isSet r EIRDataType.DEVICE_ID).

(** The bits the decoder's setters mark. *)
Definition decoder_bits : Z :=
  fold_right Z.lor 0
    [EIRDataType.FLAGS; EIRDataType.NAME; EIRDataType.NAME_SHORT;
     EIRDataType.TX_POWER; EIRDataType.MANUF_DATA; EIRDataType.DEVICE_CLASS;
     EIRDataType.APPEARANCE; EIRDataType.HASH; EIRDataType.RANDOMIZER;
     EIRDataType.DEVICE_ID].

(** The mask and the fields after decoding, from [r0]: the fields but
    the services covered, the services those of [r0] and more, no bit
    cleared, only the decoder's bits added. *)
Definition mask_sound (r0 r : EInfoReport) : Prop :=
  dirty_covers r0 r
  /\ (exists added, services r = services r0 ++ added)
  /\ exists m, eir_data_mask r = Z.lor (eir_data_mask r0) m
               /\ Z.land m decoder_bits = m.

(** No service compares equal, by the comparison [addService] makes,
    to one that follows it in the list. *)
Definition distinct_services (l : list uuid_t) : Prop :=
  ForallOrdPairs (fun p q => uuid_eqb p q = false) l.

(** The services after decoding, from [r0]: pairwise distinct, and those
    of [r0] first. *)
Definition services_distinct (r0 r : EInfoReport) : Prop :=
  distinct_services (services r)
  /\ exists added, services r = services r0 ++ added.

(** An element on the wire: length octet (type and data), type, data. *)
Definition element_octets (e : Z * list Z) : list Z :=
  (1 + Z.of_nat (List.length (snd e))) :: fst e :: snd e.

(** Type and data of an element fit their octets. *)
Definition element_ok (e : Z * list Z) : bool :=
  (0 <=? fst e) && (fst e <? 256)
  && (Z.of_nat (List.length (snd e)) <? 255)
  && forallb (fun x => (0 <=? x) && (x <? 256)) (snd e).

(** The out-parameters [next_data_elem] gives for the elements [es]
    laid out from [offset] on. *)
Fixpoint elements_at (offset : Z) (es : list (Z * list Z)) : list elem :=
  match es with
  | [] => []
  | e :: rest =>
      mkElem (Z.of_nat (List.length (snd e))) (fst e) (offset + 2)
      :: elements_at (offset + 2 + Z.of_nat (List.length (snd e))) rest
  end.

End Decoding.

(** ** Further procedures of the engine *)

Module Engine.

Import EIR GATT Procedures.

Definition with_services (s : list GATTPrimaryService) (h : GATTHandler)
  : GATTHandler :=
  mkHandler (state h) (l2cap h) (serverMTU h) (usedMTU h) s (attPDURing h)
    (gattNotificationListener h) (gattIndicationListener h)
    (sendIndicationConfirmation h) (trace h).

(** Modelled from the spec: [l2cap->disconnect()] of the L2CAP channel,
    an external collaborator: the channel is closed and disconnected
    afterwards. *)
Definition l2cap_disconnect : M unit :=
  modify (fun h =>
            with_l2cap (mkL2CAP false Disconnected
                          (l2_connect_result (l2cap h))
                          (l2_write_results (l2cap h))) h).

(** [GATTHandler::disconnect], without the stop flag, the signal and the
    join of the reader thread. *)
Definition disconnect : M bool :=
  s <- validateState ;;
  if negb (is_open s) then ret false
  else
    l2cap_disconnect ;;;
    modify (with_state Disconnected) ;;;
    s' <- validateState ;;
    ret (rank Disconnected =? rank s').

(** The body the two write procedures share: one ATT_WRITE_REQ, one
    response. *)
Definition write_request (hd : Z) (value : list Z) : M bool :=
  sendRes <- send (AttWriteReq hd value) ;;
  if sendRes then
    pdu <- receiveNext ;;
    match pdu with
    | AttWriteRsp => ret true
    | AttErrorRsp _ => (* warning *) ret false
    | _ => (* warning *) ret false
    end
  else ret false.

(** [GATTHandler::writeClientCharacteristicConfigReq] *)
Definition writeClientCharacteristicConfigReq
  (cccd : GATTClientCharacteristicConfigDecl) (value : list Z) : M bool :=
  write_request (cccd_handle cccd) value.

(** [GATTHandler::writeCharacteristicValueReq] *)
Definition writeCharacteristicValueReq (decl : GATTCharacterisicsDecl)
  (value : list Z) : M bool :=
  write_request (handle decl) value.

(** Modelled from the spec: [POctets::put_uint16(0, v)] of the octet
    primitives (absent) on a buffer of two octets, little-endian as on
    the wire. *)
Definition put_uint16 (v : Z) : list Z := [v mod 256; (v / 256) mod 256].

Definition b2z (b : bool) : Z := if b then 1 else 0.

(** [GATTHandler::configIndicationNotification] *)
Definition configIndicationNotification
  (cccd : GATTClientCharacteristicConfigDecl)
  (enableNotification enableIndication : bool) : M bool :=
  let ccc_value :=
    Z.lor (b2z enableNotification) (Z.shiftl (b2z enableIndication) 1) in
  writeClientCharacteristicConfigReq cccd (put_uint16 ccc_value).

(** What a read of the reader thread brings. *)
Inductive ReadResult : Type :=
| ReadPDU (pdu : AttPDUMsg)
| ReadTimeout
| ReadError.

(** [GATTHandler::l2capReaderThreadImpl] over the reads the channel
    answers until another thread asserts [l2capReaderShallStop]: the
    loop ends with them, or when the engine is found not open. *)
Fixpoint l2capReaderThreadImpl (reads : list ReadResult) : M unit :=
  match reads with
  | [] => ret tt
  | rd :: rest =>
      s <- validateState ;;
      if negb (is_open s) then (* not connected: stop *) ret tt
      else
        match rd with
        | ReadPDU pdu => l2capReader_onPDU pdu ;;; l2capReaderThreadImpl rest
        | ReadTimeout => l2capReaderThreadImpl rest
        | ReadError => (* perror *) l2capReaderThreadImpl rest
        end
  end.

(** The PDUs read, in arrival order. *)
Definition pdus_read (reads : list ReadResult) : list AttPDUMsg :=
  flat_map (fun rd => match rd with ReadPDU pdu => [pdu] | _ => [] end) reads.

(** Notifications and indications, which go to the listeners. *)
Definition is_async (pdu : AttPDUMsg) : bool :=
  match pdu with
  | AttHandleValueNtf _ _ | AttHandleValueInd _ _
  | AttMultipleHandleValueNtf _ => true
  | _ => false
  end.

(** What the outside sees of one PDU read, on an engine that keeps its
    listeners, services and confirmation flag and whose writes succeed. *)
Definition reader_events (h : GATTHandler) (pdu : AttPDUMsg) : list Event :=
  match pdu with
  | AttHandleValueNtf hd _ =>
      if gattNotificationListener h
      then [EvNotification (findCharacterisics hd (services h)) pdu]
      else []
  | AttHandleValueInd hd _ =>
      (if sendIndicationConfirmation h then [sent AttHandleValueCfm] else [])
      ++ (if gattIndicationListener h
          then [EvIndication (findCharacterisics hd (services h)) pdu
                  (sendIndicationConfirmation h)]
          else [])
  | _ => []
  end.

Section Characteristics.

(** [pdu.get_uuid(offset, uuid_t::toTypeSize(size))] of the octet and
    UUID primitives, which are not part of the sources at hand: the UUID
    of [size] octets at [offset] of an element's value, or the error it
    throws. *)
Variable get_uuid : list Z -> Z -> Z -> exn + uuid_t.

(** The loop over the elements of one response of
    [discoverCharacteristics]. *)
Fixpoint push_declarations (srv : GATTUUIDHandleRange) (esz : Z)
  (els : list TypeElement) (decls : list GATTCharacterisicsDecl)
  : M (list GATTCharacterisicsDecl) :=
  match els with
  | [] => ret decls
  | e :: rest =>
      match get_uuid (te_value e) 3 (esz - 2 - 1 - 2) with
      | inl x => throw x
      | inr u =>
          push_declarations srv esz rest
            (decls ++ [mkDecl (range_uuid srv) (te_handle e) (endHandle srv)
                         (rd (te_value e) 0) (get_uint16 (te_value e) 1) u
                         None])
      end
  end.

(** One round of the loop of [discoverCharacteristics], on
    [(handle, service->characteristicDeclList)]. *)
Definition discoverCharacteristics_body (srv : GATTUUIDHandleRange)
  (st : Z * list GATTCharacterisicsDecl)
  : M (Z * list GATTCharacterisicsDecl + Z * list GATTCharacterisicsDecl) :=
  let '(h, decls) := st in
  ok <- send (AttReadByNTypeReq false h (endHandle srv)
                (uuid16_t GattAttributeType.CHARACTERISTIC)) ;;
  if ok then
    pdu <- receiveNext ;;
    match pdu with
    | AttReadByTypeRsp esz els =>
        decls' <- push_declarations srv esz els decls ;;
        e <- last_element els ;;
        if te_handle e <? endHandle srv then ret (inl (te_handle e + 1, decls'))
        else ret (inr (te_handle e, decls'))
    | AttErrorRsp _ => ret (inr st)
    | _ => ret (inr st)
    end
  else ret (inr st).

(** [GATTHandler::discoverCharacteristics(service)]: the returned flag
    and the service afterwards. *)
Definition discoverCharacteristics (service : GATTPrimaryService)
  : M (bool * GATTPrimaryService) :=
  n <- gets (fun h => List.length (attPDURing h)) ;;
  st <- while (S n) (discoverCharacteristics_body (declaration service))
          (startHandle (declaration service), []) ;;
  ret (0 <? Z.of_nat (List.length (snd st)),
       mkService (declaration service) (snd st)).

(** The loop over the services of [discoverCompletePrimaryServices]; the
    services are shared with the engine, which sees each update. *)
Fixpoint discover_each (done todo : list GATTPrimaryService) : M unit :=
  match todo with
  | [] => ret tt
  | primSrv :: rest =>
      r <- discoverCharacteristics primSrv ;;
      modify (with_services (done ++ snd r :: rest)) ;;;
      s' <- (if fst r
             then r2 <- discoverClientCharacteristicConfig (snd r) ;;
                  modify (with_services (done ++ snd r2 :: rest)) ;;;
                  ret (snd r2)
             else ret (snd r)) ;;
      discover_each (done ++ [s']) rest
  end.

(** [GATTHandler::discoverCompletePrimaryServices] *)
Definition discoverCompletePrimaryServices : M (list GATTPrimaryService) :=
  r <- discoverPrimaryServices ;;
  modify (with_services (snd r)) ;;;
  if negb (fst r) then gets services
  else discover_each [] (snd r) ;;; gets services.

End Characteristics.

(** A declaration as [discoverCharacteristics] builds it for the service
    range [srv]. *)
Definition fresh_declaration (srv : GATTUUIDHandleRange)
  (c : GATTCharacterisicsDecl) : Prop :=
  service_uuid c = range_uuid srv /\ service_handle_end c = endHandle srv
  /\ config c = None.

(** Every declaration of the service carries the service's UUID and end
    handle, and its configuration, if any, is in range. *)
Definition service_consistent (s : GATTPrimaryService) : Prop :=
  Forall (fun c => service_uuid c = range_uuid (declaration s)
                   /\ service_handle_end c = endHandle (declaration s))
    (characteristicDeclList s)
  /\ cccd_in_range (characteristicDeclList s) = true.

(** A closed engine, consistent with its channel. *)
Definition closed (h : GATTHandler) : bool :=
  negb (is_open (state h)) && negb (l2_isOpen (l2cap h))
  && negb (is_open (l2_state (l2cap h))).

(** An open engine, consistent with its channel. *)
Definition opened (h : GATTHandler) : bool :=
  is_open (state h) && l2_isOpen (l2cap h) && is_open (l2_state (l2cap h)).

End Engine.

(** ** Batches of advertising reports *)

Module ADReports.

Import EIR.

(** [EInfoReport::Source] *)
Inductive Source : Type := Source_NA | Source_AD | Source_EIR.

(** The fields of an [EInfoReport] that [read_ad_reports] sets itself,
    around the fields [read_data] decodes ([decoded], with the data mask). *)
Record Report : Type := mkADReport {
  source : Source;
  timestamp : Z;
  evt_type : Z;
  address_type : Z;
  address : EUI48.t;
  rssi : Z;
  decoded : EInfoReport
}.

Definition mark (bit : Z) (r : Report) : Report :=
  mkADReport (source r) (timestamp r) (evt_type r) (address_type r)
    (address r) (rssi r) (set bit (decoded r)).

(** Modelled from the spec: the inline setters of BTTypes.hpp (absent);
    "any setter marks its bit in dirty_mask", where the mask has one. *)
Definition setSource (s : Source) (r : Report) : Report :=
  mkADReport s (timestamp r) (evt_type r) (address_type r) (address r)
    (rssi r) (decoded r).

Definition setTimestamp (ts : Z) (r : Report) : Report :=
  mkADReport (source r) ts (evt_type r) (address_type r) (address r)
    (rssi r) (decoded r).

Definition setEvtType (v : Z) (r : Report) : Report :=
  mark EIRDataType.EVT_TYPE
    (mkADReport (source r) (timestamp r) v (address_type r) (address r)
       (rssi r) (decoded r)).

Definition setAddressType (v : Z) (r : Report) : Report :=
  mark EIRDataType.BDADDR_TYPE
    (mkADReport (source r) (timestamp r) (evt_type r) v (address r)
       (rssi r) (decoded r)).

Definition setAddress (a : EUI48.t) (r : Report) : Report :=
  mark EIRDataType.BDADDR
    (mkADReport (source r) (timestamp r) (evt_type r) (address_type r) a
       (rssi r) (decoded r)).

Definition setRSSI (v : Z) (r : Report) : Report :=
  mark EIRDataType.RSSI
    (mkADReport (source r) (timestamp r) (evt_type r) (address_type r)
       (address r) v (decoded r)).

(** The address read through a cast of [i_octets] to an [EUI48]
    pointer: the six octets in memory order. *)
Definition address_at (data : list Z) (off : Z) : EUI48.t :=
  EUI48.mk (rd data off) (rd data (off + 1)) (rd data (off + 2))
    (rd data (off + 3)) (rd data (off + 4)) (rd data (off + 5)).

(** [ad_reports[i]->read_data(i_octets, len)] *)
Definition read_data_at (data : list Z) (off len : Z) (r : Report)
  : option Report :=
  match read_data (decoded r) (skipn (Z.to_nat off) data) len with
  | Some (d, _) =>
      Some (mkADReport (source r) (timestamp r) (evt_type r) (address_type r)
              (address r) (rssi r) d)
  | None => None
  end.

(** The locals of [read_ad_reports]; [ad_data_len] is the array
    [uint8_t ad_data_len[0x19]], by index. *)
Record locals : Type := mkLocals {
  i_octets : Z;
  ad_reports : list Report;
  ad_data_len : nat -> Z;
  read_segments : Z
}.

(** [ad_reports[i]->...]: the vector is indexed without a check; an index
    outside it has no defined behaviour, which is [None] here. *)
Definition at_report (i : nat) (f : Report -> option Report)
  (l : list Report) : option (list Report) :=
  match nth_error l i with
  | Some r =>
      match f r with
      | Some r' => Some (firstn i l ++ r' :: skipn (S i) l)
      | None => None
      end
  | None => None
  end.

(** [for(i = ...; i < num_reports && cond; i++) body], with [n] rounds
    left before [i] reaches [num_reports]. *)
Fixpoint for_reports (n : nat) (i : nat) (cond : locals -> nat -> bool)
  (body : locals -> nat -> option locals) (s : locals) : option locals :=
  match n with
  | O => Some s
  | S n' =>
      if cond s i then
        match body s i with
        | Some s' => for_reports n' (S i) cond body s'
        | None => None
        end
      else Some s
  end.

Section Batch.

(** The time [getCurrentMilliseconds()] returns at entry, the report
    [new EInfoReport()] makes (its defaults are in the absent header)
    and the contents of the array [ad_data_len], which is not
    initialised. *)
Variables (now : Z) (blank : Report) (garbage : nat -> Z).

Variables (data : list Z) (limes : Z).

Definition room (c : Z) (s : locals) : bool := i_octets s + c <? limes.

Definition update_reports (s : locals) (i : nat) (advance : Z)
  (f : Report -> option Report) : option locals :=
  match at_report i f (ad_reports s) with
  | Some l =>
      Some (mkLocals (i_octets s + advance) l (ad_data_len s)
              (read_segments s + 1))
  | None => None
  end.

Definition evt_type_column (s : locals) (i : nat) : option locals :=
  update_reports
    (mkLocals (i_octets s) (ad_reports s ++ [blank]) (ad_data_len s)
       (read_segments s))
    i 1
    (fun r => Some (setEvtType (rd data (i_octets s))
                      (setTimestamp now (setSource Source_AD r)))).

Definition address_type_column (s : locals) (i : nat) : option locals :=
  update_reports s i 1
    (fun r => Some (setAddressType (rd data (i_octets s)) r)).

Definition address_column (s : locals) (i : nat) : option locals :=
  update_reports s i 6
    (fun r => Some (setAddress (address_at data (i_octets s)) r)).

Definition ad_data_len_column (s : locals) (i : nat) : option locals :=
  Some (mkLocals (i_octets s + 1) (ad_reports s)
          (fun j => if Nat.eqb j i then rd data (i_octets s)
                    else ad_data_len s j)
          (read_segments s + 1)).

Definition ad_data_column (s : locals) (i : nat) : option locals :=
  update_reports s i (u8 (ad_data_len s i))
    (read_data_at data (i_octets s) (u8 (ad_data_len s i))).

Definition rssi_column (s : locals) (i : nat) : option locals :=
  update_reports s i 1
    (fun r => Some (setRSSI (int8 (rd data (i_octets s))) r)).

(** The six loops of [read_ad_reports] for [n] reports, one after the
    other. *)
Definition read_columns (n : nat) : option locals :=
  match for_reports n 0 (fun s _ => room 0 s) evt_type_column
          (mkLocals 1 [] garbage 0) with
  | None => None
  | Some s1 =>
  match for_reports n 0 (fun s _ => room 0 s) address_type_column s1 with
  | None => None
  | Some s2 =>
  match for_reports n 0 (fun s _ => room 5 s) address_column s2 with
  | None => None
  | Some s3 =>
  match for_reports n 0 (fun s _ => room 0 s) ad_data_len_column s3 with
  | None => None
  | Some s4 =>
  match for_reports n 0 (fun s i => room (u8 (ad_data_len s i)) s)
          ad_data_column s4 with
  | None => None
  | Some s5 => for_reports n 0 (fun s _ => room 0 s) rssi_column s5
  end end end end end.

End Batch.

(** [EInfoReport::read_ad_reports(data, data_length)]: the reports and
    the final [read_segments], which the warning is decided on ([None]:
    behaviour not defined). *)
Definition read_ad_reports (now : Z) (blank : Report) (garbage : nat -> Z)
  (data : list Z) (data_length : Z) : option (list Report * Z) :=
  let num_reports := rd data 0 in
  if (0 >=? num_reports) || (num_reports >? 0x19) then Some ([], 0)
  else
    match read_columns now blank garbage data (u8 data_length)
            (Z.to_nat num_reports) with
    | Some s => Some (ad_reports s, read_segments s)
    | None => None
    end.

(** A report as the first loop tags it. *)
Definition tagged (now : Z) (r : Report) : Prop :=
  source r = Source_AD /\ timestamp r = now.

(** What the loops after the first keep: the size of the vector, which
    is the number of reports unless the data were used up before, and
    the tags of the reports. *)
Definition columns_inv (now limes : Z) (N k : nat) (s : locals) : Prop :=
  List.length (ad_reports s) = k
  /\ Forall (tagged now) (ad_reports s)
  /\ (k = N \/ limes <= i_octets s).

(** Two runs of the loops that differ at most in the entries of
    [ad_data_len] from index [m] on. *)
Definition same_upto (m : nat) (s s' : locals) : Prop :=
  i_octets s = i_octets s' /\ ad_reports s = ad_reports s'
  /\ read_segments s = read_segments s'
  /\ (forall j, (j < m)%nat -> ad_data_len s j = ad_data_len s' j).

(** Two outcomes of a loop: both outside the vector, or both states
    with the same octets read, reports and counter. *)
Definition same_outcome (m : nat) (a b : option locals) : Prop :=
  match a, b with
  | Some t, Some t' => same_upto m t t'
  | None, None => True
  | _, _ => False
  end.

(** The test of the warning at the end: [segment_count != read_segments]. *)
Definition incomplete_warning (read_segments : Z) : bool :=
  negb (6 =? read_segments).

(** Report [i] of a batch of [n] reports with room for its six columns:
    what each column gives it; [data_off] is where its data starts. *)
Definition column_report (now : Z) (blank : Report) (data : list Z) (n : Z)
  (i : Z) (data_off rssi_off : Z) : option Report :=
  match read_data_at data data_off (rd data (1 + 8 * n + i))
          (setAddress (address_at data (1 + 2 * n + 6 * i))
             (setAddressType (rd data (1 + n + i))
                (setEvtType (rd data (1 + i))
                   (setTimestamp now (setSource Source_AD blank))))) with
  | Some r => Some (setRSSI (int8 (rd data (rssi_off + i))) r)
  | None => None
  end.

(** Where the data of report [i] starts: after the length column and
    the data of the reports before. *)
Fixpoint data_offset (data : list Z) (n : Z) (i : nat) : Z :=
  match i with
  | O => 1 + 9 * n
  | S j => data_offset data n j + rd data (1 + 8 * n + Z.of_nat j)
  end.

End ADReports.

(** ** The Device ID as a modalias *)

Module Modalias.

Import EIR.

(** [asprintf]'s conversion [%04X] of a 16-bit value: four hexadecimal
    digits, upper case, zeros in front. *)
Definition print_04X (v : Z) (k : string) : string :=
  String (EUI48.hexdigit_upper (v / 4096 mod 16))
    (String (EUI48.hexdigit_upper (v / 256 mod 16))
       (String (EUI48.hexdigit_upper (v / 16 mod 16))
          (String (EUI48.hexdigit_upper (v mod 16)) k))).

(** [asprintf]'s conversion [%X] of a 16-bit value: its hexadecimal
    digits, upper case, none in front that is zero. *)
Definition print_X (v : Z) (k : string) : string :=
  if v <? 0x10 then String (EUI48.hexdigit_upper v) k
  else if v <? 0x100 then
    String (EUI48.hexdigit_upper (v / 16))
      (String (EUI48.hexdigit_upper (v mod 16)) k)
  else if v <? 0x1000 then
    String (EUI48.hexdigit_upper (v / 256))
      (String (EUI48.hexdigit_upper (v / 16 mod 16))
         (String (EUI48.hexdigit_upper (v mod 16)) k))
  else print_04X v k.

(** The part [v%04Xp%04Xd%04X] of the three formats. *)
Definition ids (r : EInfoReport) : string :=
  String "v" (print_04X (did_vendor r)
    (String "p" (print_04X (did_product r)
       (String "d" (print_04X (did_version r) EmptyString))))).

(** [EInfoReport::getDeviceIDModalias()], with [asprintf] finding the
    memory it asks for; [length] is the number of characters printed. *)
Definition getDeviceIDModalias (r : EInfoReport) : string :=
  let cstr :=
    if did_source r =? 0x0001 then ("bluetooth:" ++ ids r)%string
    else if did_source r =? 0x0002 then ("usb:" ++ ids r)%string
    else ("source<0x" ++ print_X (did_source r) (">:" ++ ids r))%string in
  let length := Z.of_nat (String.length cstr) in
  if 0 >=? length then EmptyString else cstr.

(** The range of the fields, which are [uint16_t]. *)
Definition u16 (v : Z) : Prop := 0 <= v < 65536.

Definition device_id_u16 (r : EInfoReport) : Prop :=
  u16 (did_source r) /\ u16 (did_vendor r) /\ u16 (did_product r)
  /\ u16 (did_version r).

End Modalias.

(** * Properties *)

(** ** EUI-48 text form *)

Section EUI48_facts.
Import EUI48.

Lemma xdigit_char (c : ascii) :
  isxdigit c = true ->
  isspace c = false /\ (ascii_Z c =? 45) = false /\ (ascii_Z c =? 43) = false
  /\ is_x c = false
  /\ exists d, hexval c = Some d /\ 0 <= d < 16 /\ hexdigit_upper d = toupper c.
Proof.
  destruct c as [[] [] [] [] [] [] [] []]; intro H; vm_compute in H;
    try discriminate H;
    (repeat split; try reflexivity;
     eexists; split; [reflexivity | split; [vm_compute; split; congruence | reflexivity]]).
Qed.

Lemma scan_hhx_pair (h l : ascii) (rest : string) (dh dl : Z) :
  isxdigit h = true -> hexval h = Some dh ->
  isxdigit l = true -> hexval l = Some dl ->
  0 <= dh < 16 -> 0 <= dl < 16 ->
  scan_hhx 2 (String h (String l rest)) = Some (16 * dh + dl, rest).
Proof.
  intros Xh Hh Xl Hl Rh Rl.
  destruct (xdigit_char h Xh) as (Sh & Mh & Ph & _ & _).
  destruct (xdigit_char l Xl) as (_ & _ & _ & Xxl & _).
  unfold scan_hhx. cbn [skip_ws]. rewrite Sh, Mh, Ph, Xxl, andb_false_r.
  cbn [scan_digits]. rewrite Hh, Hl.
  replace (16 * 0 + dh) with dh by lia.
  rewrite Z.mod_small by lia. reflexivity.
Qed.

Lemma print_2X_pair (dh dl : Z) (k : string) :
  0 <= dh < 16 -> 0 <= dl < 16 ->
  print_2X (16 * dh + dl) k
  = String (hexdigit_upper dh) (String (hexdigit_upper dl) k).
Proof.
  intros Rh Rl. unfold print_2X.
  rewrite (Z.mod_small (16 * dh + dl) 256) by lia.
  replace ((16 * dh + dl) / 16) with dh
    by (apply (Z.div_unique _ 16 dh dl); lia).
  replace ((16 * dh + dl) mod 16) with dl
    by (apply (Z.mod_unique _ 16 dh dl); lia).
  reflexivity.
Qed.

Lemma colon_char (c : ascii) : is_colon c = true -> c = ":"%char.
Proof. unfold is_colon. intro H. apply Ascii.eqb_eq in H. exact H. Qed.

End EUI48_facts.

(** C8. For every valid EUI-48 string [s] (17 characters, six pairs of
    hexadecimal digits separated by colons), constructing [EUI48(s)]
    succeeds and [toString()] of the result is [s] in upper case. *)
Theorem EUI48_toString_of_string (s : string) :
  EUI48.valid s = true ->
  exists a, EUI48.of_string s = inr a
            /\ EUI48.toString a = inr (EUI48.toUpperCase s).
Proof.
  unfold EUI48.valid. intro V. apply andb_true_iff in V. destruct V as [L V].
  do 17 (destruct s as [|? s]; [now cbn in L|]).
  destruct s; [clear L|now cbn in L].
  cbn [EUI48.valid_groups] in V.
  repeat match goal with
         | H : (_ && _) = true |- _ => apply andb_true_iff in H; destruct H
         end.
  repeat match goal with
         | H : EUI48.is_colon _ = true |- _ => apply colon_char in H; subst
         end.
  repeat match goal with
         | H : EUI48.isxdigit ?c = true |- _ =>
             let d := fresh "d" in let Hv := fresh "Hv" in
             let R := fresh "R" in let U := fresh "U" in
             destruct (xdigit_char c H) as (_ & _ & _ & _ & d & Hv & R & U);
             revert H
         end.
  intros.
  unfold EUI48.of_string. cbn [String.length Nat.eqb negb EUI48.sscanf_fields].
  repeat (erewrite scan_hhx_pair by eassumption; cbn [EUI48.scan_lit];
          try rewrite Ascii.eqb_refl).
  eexists. split; [reflexivity|].
  unfold EUI48.toString. cbn [EUI48.b0 EUI48.b1 EUI48.b2 EUI48.b3 EUI48.b4 EUI48.b5].
  rewrite !print_2X_pair by assumption.
  cbn [String.length Nat.eqb EUI48.toUpperCase].
  repeat match goal with U : EUI48.hexdigit_upper _ = _ |- _ => rewrite U; clear U end.
  reflexivity.
Qed.

Lemma EUI48_toString_of_string_witness :
  EUI48.valid "01:23:45:67:89:ab" = true
  /\ exists a, EUI48.of_string "01:23:45:67:89:ab" = inr a
               /\ EUI48.toString a
                  = inr (EUI48.toUpperCase "01:23:45:67:89:ab").
Proof.
  split; [reflexivity | apply EUI48_toString_of_string; reflexivity].
Defined.

(** ** EIR decoder *)

Section EIR_facts.
Import EIR.

Lemma rd_range (data : list Z) (i : Z) : 0 <= rd data i < 256.
Proof. unfold rd, u8. apply Z.mod_pos_bound. lia. Qed.

(** The iterator ends the stream, reports truncation, or moves on by the
    length octet plus at least the type octet. *)
Lemma next_data_elem_progress (out : elem) (data : list Z) (offset size : Z) :
  let r := fst (next_data_elem out data offset size) in
  r = 0 \/ r = - ENOENT
  \/ (offset + 2 <= r <= size + 1 /\ offset < size).
Proof.
  unfold next_data_elem.
  pose proof (rd_range data offset) as R.
  destruct (offset <? size) eqn:Lt; cbn [fst]; [|auto].
  apply Z.ltb_lt in Lt.
  destruct (rd data offset =? 0) eqn:Z0; cbn [fst]; [auto|].
  apply Z.eqb_neq in Z0.
  destruct (rd data offset + offset >? size) eqn:Gt; cbn [fst]; [auto|].
  right; right. rewrite Z.gtb_ltb in Gt. apply Z.ltb_ge in Gt. lia.
Qed.

Lemma read_data_loop_total (data : list Z) (size : Z) :
  forall (fuel : nat) (out : elem) (offset count : Z) (r : EInfoReport),
    (1 <= fuel)%nat ->
    size + 1 - offset < 2 * Z.of_nat fuel ->
    exists r' count',
      read_data_loop fuel data size out offset count r = Some (r', count')
      /\ count <= count'
      /\ 2 * (count' - count) <= Z.max 0 (size + 1 - offset).
Proof.
  induction fuel as [|fuel IH]; intros out offset count r F B; [lia|].
  cbn [read_data_loop].
  pose proof (next_data_elem_progress out data offset size) as P.
  destruct (next_data_elem out data offset size) as [offset' out'].
  cbn [fst] in P.
  destruct (0 <? offset') eqn:Pos.
  - apply Z.ltb_lt in Pos. unfold ENOENT in P.
    destruct P as [P | [P | [P Lt]]]; [lia | lia |].
    destruct (IH out' offset' (count + 1) (decode_elem data out' r))
      as (r' & c' & E & C1 & C2); [lia | lia |].
    exists r', c'. split; [exact E|]. lia.
  - exists r, count. split; [reflexivity|]. lia.
Qed.

End EIR_facts.

(** C10. [next_data_elem] returns a value <= 0 or a next offset at least 2
    beyond the one it was given, and [read_data] returns for every buffer
    and length, after at most (length + 1) / 2 elements. *)
Theorem read_data_terminates :
  (forall out data offset size,
      let r := fst (EIR.next_data_elem out data offset size) in
      r <= 0 \/ offset + 2 <= r)
  /\ (forall r data data_length,
         exists r' count,
           EIR.read_data r data data_length = Some (r', count)
           /\ 0 <= count /\ 2 * count <= EIR.u8 data_length + 1).
Proof.
  split.
  - intros out data offset size r.
    pose proof (next_data_elem_progress out data offset size) as P.
    fold r in P. unfold EIR.ENOENT in P. lia.
  - intros r data data_length. unfold EIR.read_data.
    assert (0 <= EIR.u8 data_length < 256) as U
      by (unfold EIR.u8; apply Z.mod_pos_bound; lia).
    destruct (read_data_loop_total data (EIR.u8 data_length)
                (S (Z.to_nat (EIR.u8 data_length))) (EIR.mkElem 0 0 0) 0 0 r)
      as (r' & c & E & C1 & C2); [lia | lia |].
    exists r', c. split; [exact E|]. lia.
Qed.

(** C1. A DEVICE_ID element of 8 octets 01 00 02 00 03 00 04 00: the
    report's device id is read from the start of the whole buffer (the
    length and type octets 09 10 first), not from the element's data. *)
Theorem read_data_device_id_indexes_buffer :
  let data := [0x09; 0x10; 0x01; 0x00; 0x02; 0x00; 0x03; 0x00; 0x04; 0x00] in
  exists r,
    EIR.read_data EIR.EInfoReport_new data 10 = Some (r, 1)
    /\ (EIR.did_source r, EIR.did_vendor r, EIR.did_product r,
        EIR.did_version r) = (0x1009, 0x0001, 0x0002, 0x0003)
    /\ (EIR.get_uint16 data 2, EIR.get_uint16 data 4, EIR.get_uint16 data 6,
        EIR.get_uint16 data 8) = (0x0001, 0x0002, 0x0003, 0x0004).
Proof.
  cbv zeta. eexists. split; [vm_compute; reflexivity|].
  split; vm_compute; reflexivity.
Qed.

(** C7. An element of type SOLICIT_UUID16 (0x14), a type without a row in
    the decode table, sets the appearance and its mask bit; an element of
    type 0x1A, which reaches the default branch, leaves the report as it
    was, with no record of the element. *)
Theorem read_data_unhandled_types :
  (exists r,
      EIR.read_data EIR.EInfoReport_new [0x03; 0x14; 0x34; 0x12] 4
      = Some (r, 1)
      /\ EIR.appearance r = 0x1234
      /\ EIR.eir_data_mask r = EIR.EIRDataType.APPEARANCE)
  /\ EIR.read_data EIR.EInfoReport_new [0x03; 0x1A; 0x34; 0x12] 4
     = Some (EIR.EInfoReport_new, 1).
Proof.
  split; [eexists; split; [vm_compute; reflexivity|]; split; reflexivity|].
  vm_compute. reflexivity.
Qed.

(** ** GATT engine *)

Section GATT_facts.
Import EIR GATT Procedures.

Lemma ready_inv (h : GATTHandler) :
  ready h = true ->
  is_open (state h) = true /\ l2_isOpen (l2cap h) = true
  /\ is_open (l2_state (l2cap h)) = true /\ l2_write_results (l2cap h) = [].
Proof.
  unfold ready. intro R.
  repeat (apply andb_true_iff in R; destruct R as [R ?]).
  destruct (l2_write_results (l2cap h)); [auto | discriminate].
Qed.

Lemma bind_Ret {A B : Type} (m : M A) (f : A -> M B) (h h1 : GATTHandler)
  (a : A) :
  m h = Ret a h1 -> bind m f h = f a h1.
Proof. unfold bind. intros ->. reflexivity. Qed.

(** One step of a method whose first action returns by computation. *)
Ltac mstep :=
  match goal with
  | |- context [bind ?m ?f ?h] => rewrite (bind_Ret m f h _ _ eq_refl)
  end; cbv beta.

(** One step with the equation [E] of the first action. *)
Ltac mstep_with E :=
  match goal with
  | |- context [bind ?m ?f ?h] => rewrite (bind_Ret m f h _ _ E)
  end; cbv beta.

(** An open, consistent engine passes [validateState]. *)
Lemma validateState_open (h : GATTHandler) :
  is_open (state h) = true -> l2_isOpen (l2cap h) = true ->
  is_open (l2_state (l2cap h)) = true ->
  validateState h = Ret (state h) h.
Proof. unfold validateState. intros -> -> ->. reflexivity. Qed.

(** On a ready engine a PDU that fits the MTU is written in full, and
    the engine stays ready. *)
Lemma send_ready (msg : AttPDUMsg) (h : GATTHandler) :
  ready h = true -> 0 <= getSize msg <= usedMTU h ->
  exists h1,
    send msg h = Ret true h1
    /\ ready h1 = true /\ usedMTU h1 = usedMTU h
    /\ attPDURing h1 = attPDURing h
    /\ trace h1 = trace h ++ [sent msg].
Proof.
  intros R S. pose proof (ready_inv h R) as (A & B & C & W).
  unfold send, bind. rewrite validateState_open by assumption.
  rewrite A. cbn [negb]. unfold gets.
  destruct (getSize msg >? usedMTU h) eqn:G;
    [rewrite Z.gtb_ltb in G; apply Z.ltb_lt in G; lia|].
  unfold l2cap_write. rewrite W.
  destruct (0 >? getSize msg) eqn:N;
    [rewrite Z.gtb_ltb in N; apply Z.ltb_lt in N; lia|].
  unfold ret. rewrite Z.eqb_refl. eexists. split; [reflexivity|].
  unfold ready. cbn. rewrite A, B, C. auto.
Qed.

(** C4. On a connected engine (open, and the channel agrees), [send] of
    a PDU larger than [usedMTU] throws IllegalArgumentException and
    leaves the engine and the channel as they were: nothing is written. *)
Theorem send_refuses_oversize (h : GATTHandler) (msg : AttPDUMsg) :
  is_open (state h) = true -> l2_isOpen (l2cap h) = true ->
  is_open (l2_state (l2cap h)) = true ->
  usedMTU h < getSize msg ->
  send msg h = Throw IllegalArgumentException h.
Proof.
  intros A B C G. unfold send, bind.
  rewrite validateState_open by assumption. rewrite A. cbn [negb].
  unfold gets.
  destruct (getSize msg >? usedMTU h) eqn:E; [reflexivity|].
  rewrite Z.gtb_ltb in E. apply Z.ltb_ge in E. lia.
Qed.

Lemma send_refuses_oversize_witness :
  send (AttWriteReq 3 (repeat 0 183)) (connected_engine 185 [])
  = Throw IllegalArgumentException (connected_engine 185 []).
Proof.
  apply send_refuses_oversize; [reflexivity | reflexivity | reflexivity |].
  vm_compute. reflexivity.
Defined.

(** What [send] can do: it returns or throws, keeps the services and
    the listeners, and shows at most its one write, a full one when it
    returns [true]. *)
Lemma send_effect (msg : AttPDUMsg) (h : GATTHandler) :
  match send msg h with
  | Ret b h1 =>
      services h1 = services h
      /\ attPDURing h1 = attPDURing h
      /\ gattIndicationListener h1 = gattIndicationListener h
      /\ (trace h1 = trace h \/ exists r, trace h1 = trace h ++ [EvWrite msg r])
      /\ (b = true -> trace h1 = trace h ++ [sent msg])
  | Throw _ h1 => h1 = h
  | Blocked _ | OutOfFuel => False
  end.
Proof.
  unfold send, bind, validateState.
  destruct (_ && _); [reflexivity|].
  destruct (negb (is_open (state h))); cbn [ret];
    [repeat split; auto; discriminate|].
  unfold gets. destruct (getSize msg >? usedMTU h); [reflexivity|].
  unfold l2cap_write.
  destruct (l2_write_results (l2cap h)) as [|r rest];
    [destruct (0 >? getSize msg) | destruct (0 >? r)]; cbn;
    (split; [reflexivity|]; split; [reflexivity|]; split; [reflexivity|];
     split; [eauto|]);
    try discriminate; try reflexivity.
  intro E. apply Z.eqb_eq in E. subst r. reflexivity.
Qed.

(** C9. With an indication listener installed: when the confirmation
    flag is off the listener is called with [false] and nothing is
    written; when it is on, [send] of the confirmation runs first and,
    if it returns, the listener is called next with exactly its result
    (if it throws, the listener is not called); on a ready engine the
    channel sees the confirmation, then the listener sees [true]. *)
Theorem indication_confirmed_before_listener
  (h : GATTHandler) (hd : Z) (v : list Z) :
  gattIndicationListener h = true ->
  let ind := EvIndication (findCharacterisics hd (services h))
               (AttHandleValueInd hd v) in
  (sendIndicationConfirmation h = false ->
   exists h', l2capReader_onPDU (AttHandleValueInd hd v) h = Ret tt h'
              /\ trace h' = trace h ++ [ind false])
  /\ (sendIndicationConfirmation h = true ->
      match send AttHandleValueCfm h with
      | Ret cfmSent h1 =>
          exists h',
            l2capReader_onPDU (AttHandleValueInd hd v) h = Ret tt h'
            /\ trace h' = trace h1 ++ [ind cfmSent]
            /\ (trace h1 = trace h
                \/ exists r, trace h1 = trace h ++ [EvWrite AttHandleValueCfm r])
            /\ (cfmSent = true -> trace h1 = trace h ++ [sent AttHandleValueCfm])
      | Throw e h1 =>
          l2capReader_onPDU (AttHandleValueInd hd v) h = Throw e h1
          /\ trace h1 = trace h
      | Blocked _ | OutOfFuel => False
      end)
  /\ (sendIndicationConfirmation h = true -> ready h = true ->
      1 <= usedMTU h ->
      exists h', l2capReader_onPDU (AttHandleValueInd hd v) h = Ret tt h'
                 /\ trace h' = trace h ++ [sent AttHandleValueCfm; ind true]).
Proof.
  intros L ind. split; [|split].
  - intro F. unfold l2capReader_onPDU, bind, gets. rewrite F. cbn [ret].
    rewrite L. eexists. split; reflexivity.
  - intro F. pose proof (send_effect AttHandleValueCfm h) as E.
    unfold l2capReader_onPDU, bind, gets. rewrite F.
    destruct (send AttHandleValueCfm h) as [b h1|e h1|h1|]; try contradiction.
    + destruct E as (Sv & _ & Li & Tr & Full). rewrite Li, L, Sv.
      eexists. split; [reflexivity|]. auto.
    + subst h1. auto.
  - intros F R U.
    destruct (send_ready AttHandleValueCfm h R) as (h1 & S & _ & _ & _ & T);
      [cbn; lia|].
    pose proof (send_effect AttHandleValueCfm h) as E. rewrite S in E.
    destruct E as (Sv & _ & Li & _ & _).
    unfold l2capReader_onPDU, bind, gets. rewrite F, S, Li, L, Sv.
    eexists. split; [reflexivity|]. cbn. rewrite T, <- app_assoc. reflexivity.
Qed.

Lemma indication_confirmed_before_listener_witness :
  exists h',
    l2capReader_onPDU (AttHandleValueInd 7 [1; 2]) (connected_engine 23 [])
    = Ret tt h'
    /\ trace h'
       = [sent AttHandleValueCfm;
          EvIndication None (AttHandleValueInd 7 [1; 2]) true].
Proof.
  refine (proj2 (proj2 (indication_confirmed_before_listener
                          (connected_engine 23 []) 7 [1; 2] _)) _ _ _);
    [reflexivity | reflexivity | reflexivity | vm_compute; discriminate].
Defined.

Lemma receiveNext_cons (h : GATTHandler) (pdu : AttPDUMsg)
  (q : list AttPDUMsg) :
  attPDURing h = pdu :: q -> receiveNext h = Ret pdu (with_ring q h).
Proof. unfold receiveNext. intros ->. reflexivity. Qed.

Lemma receiveNext_nil (h : GATTHandler) :
  attPDURing h = [] -> receiveNext h = Blocked h.
Proof. unfold receiveNext. intros ->. reflexivity. Qed.

(** The MTU exchange on a ready engine whose queue starts with the
    response. *)
Lemma exchangeMTU_ready (ClientMaxMTU : Z) (h : GATTHandler) (m : Z)
  (q : list AttPDUMsg) :
  ready h = true -> 3 <= usedMTU h ->
  attPDURing h = AttExchangeMTURsp m :: q ->
  exists h1,
    exchangeMTU ClientMaxMTU ClientMaxMTU h = Ret m h1
    /\ serverMTU h1 = serverMTU h.
Proof.
  intros R U Q.
  destruct (send_ready (AttExchangeMTUReq ClientMaxMTU) h R)
    as (h3 & S & _ & _ & Q3 & _); [cbn; lia|].
  assert (serverMTU h3 = serverMTU h) as M3.
  { revert S. unfold send, bind, validateState, gets, l2cap_write, modify, ret.
    repeat match goal with
           | |- context [if ?c then _ else _] => destruct c
           | |- context [match ?l with [] => _ | _ :: _ => _ end] => destruct l
           end; intro S; inversion S; reflexivity. }
  rewrite Q in Q3.
  unfold exchangeMTU. rewrite Z.gtb_ltb, Z.ltb_irrefl.
  mstep_with S. mstep_with (receiveNext_cons h3 _ _ Q3).
  eexists. split; [reflexivity|]. exact M3.
Qed.

(** C3 as the engine does it. After [connect()] has received an
    ATT_EXCHANGE_MTU_RSP carrying [m]: [serverMTU] is [m] itself when
    [m > 0] and is left as it was otherwise, and [usedMTU] is
    [min(ClientMaxMTU, serverMTU)]. *)
Theorem connect_exchanges_mtu (ClientMaxMTU : Z) (h : GATTHandler) (m : Z) :
  connecting h m = true ->
  connect_statement (fun _ m => m) ClientMaxMTU h m.
Proof.
  unfold connecting. intro H.
  repeat (apply andb_true_iff in H; destruct H as [H ?]).
  repeat match goal with
         | X : negb _ = true |- _ => apply negb_true_iff in X
         end.
  destruct (l2_write_results (l2cap h)) eqn:W; [|discriminate].
  destruct (attPDURing h) as [|[] q] eqn:Q; try discriminate.
  match goal with X : (_ =? m) = true |- _ => apply Z.eqb_eq in X; subst end.
  match goal with X : (3 <=? _) = true |- _ => apply Z.leb_le in X end.
  match goal with X : is_open (l2_connect_result _) = true |- _ =>
    rename X into O end.
  assert (validateState h = Ret (state h) h) as V0
    by (unfold validateState;
        repeat match goal with X : _ = false |- _ => rewrite X end;
        reflexivity).
  set (l' := mkL2CAP (is_open (l2_connect_result (l2cap h)))
               (l2_connect_result (l2cap h)) (l2_connect_result (l2cap h))
               (l2_write_results (l2cap h))).
  set (h2 := with_state (l2_connect_result (l2cap h)) (with_l2cap l' h)).
  assert (ready h2 = true) as R2
    by (unfold ready; cbn; rewrite W, !O; reflexivity).
  destruct (ready_inv h2 R2) as (A2 & B2 & C2 & _).
  destruct (exchangeMTU_ready ClientMaxMTU h2 m q R2) as (h3 & X & M3);
    [assumption | exact Q |].
  cbn in M3.
  unfold connect_statement, connect.
  mstep_with V0. rewrite H.
  mstep. mstep. fold l' h2.
  mstep_with (validateState_open h2 A2 B2 C2). cbn [state h2 with_state].
  rewrite O. cbn [negb].
  mstep_with X.
  destruct (0 <? m) eqn:P; repeat mstep; cbn [ret];
    eexists; (split; [reflexivity|]); cbn; auto.
Qed.

Lemma connect_exchanges_mtu_witness :
  connect_statement (fun _ m => m) 517
    (disconnected_engine 23 [AttExchangeMTURsp 185]) 185.
Proof. apply connect_exchanges_mtu. reflexivity. Defined.

(** C3 as the specification words it, with [serverMTU] clamped to
    [min(ClientMaxMTU, m)], fails for a server MTU above the client's:
    ClientMaxMTU 512 and a response carrying 600 leave [serverMTU] at 600. *)
Lemma connect_serverMTU_not_clamped :
  ~ connect_statement (fun c m => Z.min c m) 512
      (disconnected_engine 23 [AttExchangeMTURsp 600]) 600.
Proof.
  intros (h' & E & S & _). vm_compute in E. inversion E; subst h'.
  vm_compute in S. discriminate S.
Qed.

(** *** Loops over the inbound queue *)

Lemma while_S {S : Type} (fuel : nat) (body : S -> M (S + S)) (s : S)
  (h : GATTHandler) :
  while (Datatypes.S fuel) body s h
  = bind (body s)
      (fun r => match r with
                | inl s' => while fuel body s'
                | inr s' => ret s'
                end) h.
Proof. reflexivity. Qed.

Lemma taken_until_cons {S : Type} (stop : S -> AttPDUMsg -> bool)
  (next : S -> AttPDUMsg -> S) (s : S) (x : AttPDUMsg)
  (rest : list AttPDUMsg) :
  taken_until stop next (next s x) rest = true ->
  taken_until stop next s (x :: rest)
  = negb (stop s x) && taken_until stop next (next s x) rest.
Proof. destruct rest; [discriminate | reflexivity]. Qed.

(** One round of the long read on a ready engine, the queue not empty. *)
Lemma readCharacteristicValue_body_cons (decl : GATTCharacterisicsDecl)
  (expLen : Z) (res : list Z) (offset : Z) (h : GATTHandler)
  (x : AttPDUMsg) (q : list AttPDUMsg) :
  ready h = true -> 5 <= usedMTU h -> attPDURing h = x :: q ->
  read_top_stop expLen offset = false ->
  exists h2,
    readCharacteristicValue_body decl expLen (res, offset) h
    = Ret ((if read_body_stop (usedMTU h) x
            then inr else inl) (res ++ payload x, read_next offset x)) h2
    /\ ready h2 = true /\ usedMTU h2 = usedMTU h /\ attPDURing h2 = q
    /\ trace h2 = trace h ++ [read_request decl offset].
Proof.
  intros R U Q T. unfold read_top_stop in T.
  apply orb_false_iff in T. destruct T as [T1 T2].
  unfold readCharacteristicValue_body. rewrite T1, (Z.eqb_sym 0 expLen), T2.
  set (req := if 0 =? offset then AttReadReq (handle decl)
              else AttReadBlobReq (handle decl) (offset mod 65536)).
  assert (0 <= getSize req <= usedMTU h) as Sz
    by (unfold req; destruct (0 =? offset); cbn; lia).
  destruct (send_ready req h R Sz) as (h1 & S & R1 & U1 & Q1 & T1').
  replace (if 0 =? offset then send (AttReadReq (handle decl))
           else send (AttReadBlobReq (handle decl) (offset mod 65536)))
    with (send req) by (unfold req; destruct (0 =? offset); reflexivity).
  mstep_with S. rewrite Q in Q1.
  mstep_with (receiveNext_cons h1 _ _ Q1). mstep.
  cbn [usedMTU with_ring]. rewrite U1.
  exists (with_ring q h1).
  split; [|split; [exact R1 | split; [exact U1 | split; [reflexivity|]]]].
  - unfold read_body_stop, read_next, getMaxPDUValueSize.
    destruct x; cbn [payload]; rewrite ?app_nil_r;
      try (replace (offset + len []) with offset by (cbn; lia));
      try reflexivity.
    + destruct (ATTRIBUTE_NOT_LONG =? errorCode); reflexivity.
    + destruct (len value <? usedMTU h - 1); reflexivity.
    + rewrite (Z.eqb_sym 0 (len value)).
      destruct (len value =? 0) eqn:E0; cbn [orb].
      * apply Z.eqb_eq in E0. unfold len in E0.
        destruct value; [|cbn in E0; lia].
        rewrite app_nil_r. replace (offset + len []) with offset by (cbn; lia).
        reflexivity.
      * destruct (len value <? usedMTU h - 1); reflexivity.
  - exact T1'.
Qed.

Lemma readCharacteristicValue_body_nil (decl : GATTCharacterisicsDecl)
  (expLen : Z) (res : list Z) (offset : Z) (h : GATTHandler) :
  ready h = true -> 5 <= usedMTU h -> attPDURing h = [] ->
  read_top_stop expLen offset = false ->
  exists h2,
    readCharacteristicValue_body decl expLen (res, offset) h = Blocked h2
    /\ attPDURing h2 = [].
Proof.
  intros R U Q T. unfold read_top_stop in T.
  apply orb_false_iff in T. destruct T as [T1 T2].
  unfold readCharacteristicValue_body. rewrite T1, (Z.eqb_sym 0 expLen), T2.
  set (req := if 0 =? offset then AttReadReq (handle decl)
              else AttReadBlobReq (handle decl) (offset mod 65536)).
  assert (0 <= getSize req <= usedMTU h) as Sz
    by (unfold req; destruct (0 =? offset); cbn; lia).
  destruct (send_ready req h R Sz) as (h1 & S & R1 & U1 & Q1 & T1').
  replace (if 0 =? offset then send (AttReadReq (handle decl))
           else send (AttReadBlobReq (handle decl) (offset mod 65536)))
    with (send req) by (unfold req; destruct (0 =? offset); reflexivity).
  mstep_with S. rewrite Q in Q1.
  exists h1. split; [|exact Q1].
  unfold bind. rewrite (receiveNext_nil h1 Q1). reflexivity.
Qed.

Lemma readCharacteristicValue_body_top (decl : GATTCharacterisicsDecl)
  (expLen : Z) (st : list Z * Z) (h : GATTHandler) :
  read_top_stop expLen (snd st) = true ->
  readCharacteristicValue_body decl expLen st h = Ret (inr st) h.
Proof.
  destruct st as [res offset]. cbn [snd]. unfold read_top_stop. intro T.
  unfold readCharacteristicValue_body. rewrite (Z.eqb_sym 0 expLen).
  destruct ((0 <? expLen) && (expLen <=? offset)); [reflexivity|].
  cbn [orb] in T. rewrite T. reflexivity.
Qed.

Lemma readCharacteristicValue_loop (decl : GATTCharacterisicsDecl)
  (expLen mtu : Z) :
  forall (fuel : nat) (res : list Z) (offset : Z) (h : GATTHandler),
    ready h = true -> usedMTU h = mtu -> 5 <= mtu ->
    (List.length (attPDURing h) < fuel)%nat ->
    read_top_stop expLen offset = false ->
    match while fuel (readCharacteristicValue_body decl expLen) (res, offset) h
    with
    | Ret (res', offset') h' =>
        exists taken,
          attPDURing h = taken ++ attPDURing h'
          /\ taken_until (read_stop_code mtu expLen) read_next offset taken = true
          /\ res' = res ++ List.concat (map payload taken)
          /\ offset' = offset + len (List.concat (map payload taken))
          /\ trace h' = trace h
                        ++ map (read_request decl)
                             (states read_next offset taken)
    | Blocked h' =>
        attPDURing h' = []
        /\ never_stops (read_stop_code mtu expLen) read_next offset (attPDURing h)
           = true
    | Throw _ _ | OutOfFuel => False
    end.
Proof.
  induction fuel as [|fuel IH]; intros res offset h R U M F T; [lia|].
  rewrite while_S.
  destruct (attPDURing h) as [|x q] eqn:Q.
  - destruct (readCharacteristicValue_body_nil decl expLen res offset h)
      as (h2 & B & Q2); try assumption; [lia|].
    unfold bind. rewrite B. split; [exact Q2 | reflexivity].
  - destruct (readCharacteristicValue_body_cons decl expLen res offset h x q)
      as (h2 & B & R2 & U2 & Q2 & T2); try assumption; [lia|].
    mstep_with B. rewrite U in *.
    assert (len (payload x ++ []) = len (payload x)) as L1
      by (rewrite app_nil_r; reflexivity).
    destruct (read_body_stop mtu x) eqn:BS.
    + (* the response ends the loop *)
      cbn [ret]. exists [x]. cbn [app map List.concat states taken_until].
      unfold read_stop_code. rewrite BS, orb_true_r, T2, L1, Q2, !app_nil_r.
      repeat split; reflexivity.
    + destruct (read_top_stop expLen (read_next offset x)) eqn:TS.
      * (* the next round leaves at its top *)
        destruct fuel as [|fuel]; [cbn in F; lia|].
        rewrite while_S.
        mstep_with (readCharacteristicValue_body_top decl expLen
                      (res ++ payload x, read_next offset x) h2 TS).
        cbn [ret]. exists [x]. cbn [app map List.concat states taken_until].
        unfold read_stop_code. rewrite TS, T2, L1, Q2, !app_nil_r.
        repeat split; reflexivity.
      * (* the loop goes on *)
        specialize (IH (res ++ payload x) (read_next offset x) h2 R2 U2 M).
        rewrite Q2 in IH. cbn in F.
        specialize (IH ltac:(lia) TS).
        destruct (while fuel _ _ h2) as [[res' offset'] h'|e h'|h'|];
          try contradiction.
        -- destruct IH as (taken & Qt & Tu & Rs & Os & Tr).
           exists (x :: taken). rewrite taken_until_cons by exact Tu.
           cbn [app map List.concat states]. unfold read_stop_code at 1.
           rewrite TS, BS, Tu, Qt, Rs, Os, Tr, T2.
           unfold read_next. unfold len. rewrite length_app, <- !app_assoc.
           repeat split; try reflexivity. lia.
        -- destruct IH as (Qe & Ns). split; [exact Qe|].
           cbn [never_stops]. unfold read_stop_code at 1. rewrite TS, BS, Ns.
           reflexivity.
Qed.

(** The tests of the code and conditions (i) to (iv) with every error
    and every other opcode agree, from a non-negative offset on. *)
Lemma read_stop_code_eq (mtu expLen offset : Z) (x : AttPDUMsg) :
  2 <= mtu -> 0 <= offset ->
  read_stop_code mtu expLen offset x = read_stop mtu expLen offset x.
Proof.
  intros M O. unfold read_stop_code, read_stop, read_top_stop, read_body_stop.
  destruct (expLen =? 0) eqn:E; [|rewrite !orb_false_r; reflexivity].
  apply Z.eqb_eq in E. subst expLen.
  rewrite Z.ltb_irrefl. cbn [andb orb].
  assert (0 <= len (payload x)) as L by (unfold len; lia).
  unfold read_next.
  destruct (0 <? offset + len (payload x)) eqn:P; [reflexivity|].
  apply Z.ltb_ge in P. assert (len (payload x) = 0) as Z0 by lia.
  destruct x; cbn [orb payload] in *; try reflexivity; rewrite Z0.
  - apply Z.ltb_lt. lia.
  - reflexivity.
Qed.

Lemma read_next_nonneg (offset : Z) (x : AttPDUMsg) :
  0 <= offset -> 0 <= read_next offset x.
Proof. unfold read_next, len. lia. Qed.

Lemma taken_until_read_stop (mtu expLen : Z) (taken : list AttPDUMsg) :
  2 <= mtu ->
  forall offset, 0 <= offset ->
    taken_until (read_stop_code mtu expLen) read_next offset taken
    = taken_until (read_stop mtu expLen) read_next offset taken.
Proof.
  intro M. induction taken as [|x rest IH]; intros offset O; [reflexivity|].
  cbn [taken_until]. rewrite (read_stop_code_eq mtu expLen offset x M O).
  destruct rest as [|y rest]; [reflexivity|].
  rewrite (IH (read_next offset x) (read_next_nonneg offset x O)).
  reflexivity.
Qed.

Lemma never_stops_read_stop (mtu expLen : Z) (queue : list AttPDUMsg) :
  2 <= mtu ->
  forall offset, 0 <= offset ->
    never_stops (read_stop_code mtu expLen) read_next offset queue
    = never_stops (read_stop mtu expLen) read_next offset queue.
Proof.
  intro M. induction queue as [|x rest IH]; intros offset O; [reflexivity|].
  cbn [never_stops]. rewrite (read_stop_code_eq mtu expLen offset x M O).
  rewrite (IH (read_next offset x) (read_next_nonneg offset x O)).
  reflexivity.
Qed.

(** C2 as the engine does it. On a ready engine with room for the read
    requests: the values of the responses taken are appended to [res] in
    arrival order, the requests carry the offset advanced by the sizes
    received, converted to the 16 bits of the request's field, and the
    loop takes responses up to the first at which
    (i) [expectedLength > 0] and the offset has reached it, (ii)
    [expectedLength == 0] and one request has completed, (iii) the value
    is shorter than [usedMTU - 1], (iv) a blob response is empty, or the
    response is an ATT_ERROR_RSP (AttributeNotLong or any other code) or
    of an opcode not expected; it waits when the queue ends before. *)
Theorem readCharacteristicValue_terminates_exactly_when
  (decl : GATTCharacterisicsDecl) (res : list Z) (expectedLength : Z)
  (h : GATTHandler) :
  ready h = true -> 5 <= usedMTU h ->
  long_read_statement read_stop decl res expectedLength h.
Proof.
  intros R U. unfold long_read_statement, readCharacteristicValue.
  mstep.
  pose proof (readCharacteristicValue_loop decl expectedLength (usedMTU h)
                (S (List.length (attPDURing h))) res 0 h R eq_refl U) as L.
  specialize (L ltac:(lia)).
  assert (read_top_stop expectedLength 0 = false) as T0.
  { unfold read_top_stop. rewrite Z.ltb_irrefl, andb_false_r, orb_false_r.
    destruct (0 <? expectedLength) eqn:P; [|reflexivity].
    apply Z.ltb_lt in P. cbn [andb]. apply Z.leb_gt. lia. }
  specialize (L T0). unfold bind.
  destruct (while _ _ _ h) as [[res' offset'] h'|e h'|h'|]; try contradiction.
  - cbn [ret fst snd]. destruct L as (taken & Qt & Tu & Rs & Os & Tr).
    rewrite taken_until_read_stop in Tu by lia.
    exists taken. subst offset'. repeat split; assumption || reflexivity.
  - rewrite never_stops_read_stop in L by lia. exact L.
Qed.

Lemma readCharacteristicValue_terminates_exactly_when_witness :
  long_read_statement read_stop
    (mkDecl (uuid16_t 0x1800) 2 7 2 3 (uuid16_t 0x2A00) None) [] 100
    (connected_engine 23
       [AttReadRsp (repeat 65 22); AttReadBlobRsp (repeat 66 22);
        AttReadBlobRsp (repeat 67 22); AttReadBlobRsp (repeat 68 34)]).
Proof.
  apply readCharacteristicValue_terminates_exactly_when;
    [reflexivity | vm_compute; discriminate].
Defined.

(** C2 as the specification words it fails: an ATT_ERROR_RSP with a code
    other than AttributeNotLong (here 0x0A, attribute not found) ends the
    loop although none of (i) to (v) holds. *)
Lemma readCharacteristicValue_stops_on_other_error :
  ~ long_read_statement read_stop_spec
      (mkDecl (uuid16_t 0x1800) 2 7 2 3 (uuid16_t 0x2A00) None) [] 100
      (connected_engine 23 [AttErrorRsp 0x0A; AttReadRsp [1]]).
Proof.
  unfold long_read_statement.
  match goal with |- ~ match ?r with _ => _ end =>
    let v := eval vm_compute in r in change r with v end.
  cbv iota beta. intros (taken & Qt & Tu & _). cbn in Qt.
  destruct taken as [|x [|y taken]].
  - discriminate Tu.
  - inversion Qt; subst x. vm_compute in Tu. discriminate Tu.
  - inversion Qt. destruct taken; discriminate.
Qed.

(** The last element of a well-formed group response. *)
Lemma wf_group_last (els : list GroupElement) :
  wf_rsp (AttReadByGroupTypeRsp els) = true ->
  exists e r, rev els = e :: r /\ 0 <= ge_end e <= 0xffff.
Proof.
  cbn [wf_rsp]. intro W. apply andb_true_iff in W. destruct W as [N F].
  destruct (rev els) as [|e r] eqn:E.
  - apply (f_equal (@rev _)) in E. rewrite rev_involutive in E. subst els.
    discriminate N.
  - exists e, r. split; [reflexivity|].
    rewrite forallb_forall in F.
    assert (In e els) as I by (apply in_rev; rewrite E; left; reflexivity).
    specialize (F e I). unfold u16_range in F.
    repeat (apply andb_true_iff in F; destruct F as [F ?]).
    repeat match goal with
           | X : (_ <=? _) = true |- _ => apply Z.leb_le in X
           end. lia.
Qed.

(** One round of the discovery on a ready engine, the queue not empty. *)
Lemma discoverPrimaryServices_body_cons (start : Z)
  (result : list GATTPrimaryService) (h : GATTHandler) (x : AttPDUMsg)
  (q : list AttPDUMsg) :
  ready h = true -> 7 <= usedMTU h -> attPDURing h = x :: q ->
  wf_rsp x = true ->
  exists h2 s2,
    discoverPrimaryServices_body (start, result) h
    = Ret (if discover_finish start x
           then inr (s2, result ++ services_in x)
           else inl (discover_next start x, result ++ services_in x)) h2
    /\ ready h2 = true /\ usedMTU h2 = usedMTU h /\ attPDURing h2 = q
    /\ trace h2 = trace h ++ [discover_request start].
Proof.
  intros R U Q W. unfold discoverPrimaryServices_body.
  match goal with |- context [send ?msg] =>
    destruct (send_ready msg h R) as (h1 & S & R1 & U1 & Q1 & T1);
      [cbn; lia|]
  end.
  rewrite Q in Q1.
  exists (with_ring q h1).
  assert (forall r : Z * list GATTPrimaryService + Z * list GATTPrimaryService,
             Ret r (with_ring q h1) = Ret r (with_ring q h1)
             /\ ready (with_ring q h1) = true
             /\ usedMTU (with_ring q h1) = usedMTU h
             /\ attPDURing (with_ring q h1) = q
             /\ trace (with_ring q h1) = trace h ++ [discover_request start])
    as K by (intro r; repeat split; assumption).
  mstep_with S. mstep_with (receiveNext_cons h1 _ _ Q1).
  destruct x; cbn [services_in discover_finish];
    try (exists start; rewrite app_nil_r; apply K).
  destruct (wf_group_last elements W) as (e & r & E & Rg).
  unfold last_element, discover_next, last_end. rewrite E.
  cbn [hd_error option_map]. mstep.
  exists (ge_end e).
  destruct (ge_end e <? 65535) eqn:Lt.
  - apply Z.ltb_lt in Lt.
    replace (ge_end e =? 65535) with false by (symmetry; apply Z.eqb_neq; lia).
    apply K.
  - apply Z.ltb_ge in Lt.
    replace (ge_end e =? 65535) with true by (symmetry; apply Z.eqb_eq; lia).
    apply K.
Qed.

Lemma discoverPrimaryServices_body_nil (start : Z)
  (result : list GATTPrimaryService) (h : GATTHandler) :
  ready h = true -> 7 <= usedMTU h -> attPDURing h = [] ->
  exists h2,
    discoverPrimaryServices_body (start, result) h = Blocked h2
    /\ attPDURing h2 = [].
Proof.
  intros R U Q. unfold discoverPrimaryServices_body.
  match goal with |- context [send ?msg] =>
    destruct (send_ready msg h R) as (h1 & S & R1 & U1 & Q1 & T1);
      [cbn; lia|]
  end.
  rewrite Q in Q1. mstep_with S.
  exists h1. split; [|exact Q1].
  unfold bind. rewrite (receiveNext_nil h1 Q1). reflexivity.
Qed.

Lemma discoverPrimaryServices_loop (mtu : Z) :
  forall (fuel : nat) (start : Z) (result : list GATTPrimaryService)
         (h : GATTHandler),
    ready h = true -> usedMTU h = mtu -> 7 <= mtu ->
    forallb wf_rsp (attPDURing h) = true ->
    (List.length (attPDURing h) < fuel)%nat ->
    match while fuel discoverPrimaryServices_body (start, result) h with
    | Ret (_, result') h' =>
        exists taken,
          attPDURing h = taken ++ attPDURing h'
          /\ taken_until discover_finish discover_next start taken = true
          /\ result' = result ++ List.concat (map services_in taken)
          /\ trace h' = trace h
                        ++ map discover_request
                             (states discover_next start taken)
    | Blocked h' =>
        attPDURing h' = []
        /\ never_stops discover_finish discover_next start (attPDURing h)
           = true
    | Throw _ _ | OutOfFuel => False
    end.
Proof.
  induction fuel as [|fuel IH]; intros start result h R U M W F; [lia|].
  rewrite while_S.
  destruct (attPDURing h) as [|x q] eqn:Q.
  - destruct (discoverPrimaryServices_body_nil start result h)
      as (h2 & B & Q2); try assumption; [lia|].
    unfold bind. rewrite B. split; [exact Q2 | reflexivity].
  - cbn [forallb] in W. apply andb_true_iff in W. destruct W as [Wx Wq].
    destruct (discoverPrimaryServices_body_cons start result h x q)
      as (h2 & s2 & B & R2 & U2 & Q2 & T2); try assumption; [lia|].
    mstep_with B. rewrite U in *.
    destruct (discover_finish start x) eqn:Fin.
    + cbn [ret]. exists [x]. cbn [app map List.concat states taken_until].
      rewrite Fin, T2, Q2, !app_nil_r. repeat split; reflexivity.
    + specialize (IH (discover_next start x) (result ++ services_in x) h2
                    R2 U2 M).
      rewrite Q2 in IH. cbn in F. specialize (IH Wq ltac:(lia)).
      destruct (while fuel _ _ h2) as [[start' result'] h'|e h'|h'|];
        try contradiction.
      * destruct IH as (taken & Qt & Tu & Rs & Tr).
        exists (x :: taken). rewrite taken_until_cons by exact Tu.
        cbn [app map List.concat states].
        rewrite Fin, Tu, Qt, Rs, Tr, T2, <- !app_assoc.
        repeat split; reflexivity.
      * destruct IH as (Qe & Ns). split; [exact Qe|].
        cbn [never_stops]. rewrite Fin, Ns. reflexivity.
Qed.

(** C5 as the engine does it. On a ready engine with room for the
    request and well-formed responses: one service {start, end, uuid} is
    appended per element of each ATT_READ_BY_GROUP_TYPE_RSP, in order;
    the first request starts at handle 1 and each next one at the last
    element's end handle + 1; and responses are taken up to the first
    whose last end handle is 0xFFFF or which is not a group response (an
    ATT_ERROR_RSP, or a response of any other opcode); the procedure
    waits when the queue ends before. *)
Theorem discoverPrimaryServices_finishes_exactly_when (h : GATTHandler) :
  ready h = true -> 7 <= usedMTU h ->
  forallb wf_rsp (attPDURing h) = true ->
  primary_discovery_statement discover_finish h.
Proof.
  intros R U W. unfold primary_discovery_statement, discoverPrimaryServices.
  mstep.
  pose proof (discoverPrimaryServices_loop (usedMTU h)
                (S (List.length (attPDURing h))) 1 [] h R eq_refl U W) as L.
  specialize (L ltac:(lia)). unfold bind.
  destruct (while _ _ _ h) as [[start' result'] h'|e h'|h'|];
    try contradiction.
  - cbn [ret fst snd]. destruct L as (taken & Qt & Tu & Rs & Tr).
    exists taken. cbn [app] in Rs. repeat split; assumption || reflexivity.
  - exact L.
Qed.

Lemma discoverPrimaryServices_finishes_exactly_when_witness :
  primary_discovery_statement discover_finish
    (connected_engine 23
       [AttReadByGroupTypeRsp
          [mkGroupElement 1 7 (uuid16_t 0x1800);
           mkGroupElement 8 11 (uuid16_t 0x180A)];
        AttErrorRsp 0x0A]).
Proof.
  apply discoverPrimaryServices_finishes_exactly_when;
    [reflexivity | vm_compute; discriminate | reflexivity].
Defined.

(** C5 as the specification words it fails: a response of an opcode
    that is neither a group response nor an ATT_ERROR_RSP (here an
    ATT_WRITE_RSP) finishes the discovery as well. *)
Lemma discoverPrimaryServices_finishes_on_unexpected_reply :
  ~ primary_discovery_statement discover_finish_spec
      (connected_engine 23 [AttWriteRsp; AttErrorRsp 0x0A]).
Proof.
  unfold primary_discovery_statement.
  match goal with |- ~ match ?r with _ => _ end =>
    let v := eval vm_compute in r in change r with v end.
  cbv iota beta. intros (taken & Qt & Tu & _). cbn in Qt.
  destruct taken as [|x [|y taken]].
  - discriminate Tu.
  - inversion Qt; subst x. vm_compute in Tu. discriminate Tu.
  - inversion Qt. destruct taken; discriminate.
Qed.

(** *** Client characteristic configuration *)

Lemma attach_config_ids (ch cv : Z) (decls : list GATTCharacterisicsDecl) :
  map decl_ids (attach_config ch cv decls) = map decl_ids decls.
Proof.
  induction decls as [|d rest IH]; [reflexivity|].
  cbn [attach_config map]. rewrite IH. f_equal.
  destruct (_ && _); reflexivity.
Qed.

Lemma attach_config_head (ch cv : Z) (decls : list GATTCharacterisicsDecl) :
  option_map handle (hd_error (attach_config ch cv decls))
  = option_map handle (hd_error decls).
Proof.
  destruct decls as [|d rest]; [reflexivity|].
  cbn [attach_config hd_error option_map].
  destruct (_ && _); reflexivity.
Qed.

(** The interval end of the head declaration, by the head of the rest. *)
Lemma decl_end_by_head (d : GATTCharacterisicsDecl)
  (rest : list GATTCharacterisicsDecl) :
  match rest with
  | next_c :: _ => handle next_c
  | [] => service_handle_end d
  end
  = match option_map handle (hd_error rest) with
    | Some e => e
    | None => service_handle_end d
    end.
Proof. destruct rest; reflexivity. Qed.

Lemma attach_config_in_range (ch cv : Z)
  (decls : list GATTCharacterisicsDecl) :
  cccd_in_range decls = true ->
  cccd_in_range (attach_config ch cv decls) = true.
Proof.
  induction decls as [|d rest IH]; [reflexivity|].
  cbn [cccd_in_range attach_config]. intro H.
  apply andb_true_iff in H. destruct H as [Hd Hr].
  rewrite (IH Hr), andb_true_r.
  rewrite (decl_end_by_head _ (attach_config ch cv rest)), attach_config_head.
  rewrite decl_end_by_head in Hd.
  rewrite (decl_end_by_head d rest).
  destruct ((ch >? handle d) && _) eqn:C; [|exact Hd].
  cbn [config set_config handle cccd_handle service_handle_end].
  apply andb_true_iff in C. destruct C as [C1 C2].
  rewrite Z.gtb_ltb in C1. rewrite C1. exact C2.
Qed.

(** What one attachment does to the declaration at index [j]: nothing,
    or it sets the configuration, whose handle then lies in the
    declaration's interval. *)
Lemma attach_config_nth (ch cv : Z) :
  forall (decls : list GATTCharacterisicsDecl) (j : nat)
         (c : GATTCharacterisicsDecl),
    nth_error decls j = Some c ->
    nth_error (attach_config ch cv decls) j = Some c
    \/ (nth_error (attach_config ch cv decls) j
        = Some (set_config (mkCCCD ch cv) c)
        /\ handle c < ch
           <= match nth_error decls (S j) with
              | Some next_c => handle next_c
              | None => service_handle_end c
              end).
Proof.
  induction decls as [|d rest IH]; intros j c N; [destruct j; discriminate|].
  destruct j as [|j].
  - cbn in N. inversion N; subst d. cbn [attach_config nth_error].
    destruct ((ch >? handle c) && _) eqn:C; [right | left; reflexivity].
    split; [reflexivity|].
    apply andb_true_iff in C. destruct C as [C1 C2].
    rewrite Z.gtb_ltb in C1. apply Z.ltb_lt in C1. apply Z.leb_le in C2.
    destruct rest; cbn; lia.
  - cbn [attach_config nth_error] in *. exact (IH j c N).
Qed.

Lemma attach_elements_inv (esz : Z) (els : list TypeElement) :
  forall decls,
    map decl_ids (attach_elements esz els decls) = map decl_ids decls
    /\ (cccd_in_range decls = true ->
        cccd_in_range (attach_elements esz els decls) = true).
Proof.
  unfold attach_elements.
  induction els as [|e els IH]; intro decls; [split; auto|].
  cbn [fold_left]. destruct (4 =? esz); [|apply IH].
  destruct (IH (attach_config (te_handle e) (get_uint16 (te_value e) 0) decls))
    as [I R].
  rewrite attach_config_ids in I. split; [exact I|].
  intro H. apply R, attach_config_in_range, H.
Qed.

Lemma attach_elements_other_size (esz : Z) (els : list TypeElement)
  (decls : list GATTCharacterisicsDecl) :
  esz <> 4 -> attach_elements esz els decls = decls.
Proof.
  intro N. unfold attach_elements.
  replace (4 =? esz) with false by (symmetry; apply Z.eqb_neq; lia).
  induction els; [reflexivity | assumption].
Qed.

(** A property of the loop state kept by every round is kept by the loop. *)
Lemma while_inv {S : Type} (P : S -> Prop) (body : S -> M (S + S)) :
  (forall s h r h', P s -> body s h = Ret r h' ->
                    match r with inl s' | inr s' => P s' end) ->
  forall fuel s h s' h',
    P s -> while fuel body s h = Ret s' h' -> P s'.
Proof.
  intros B. induction fuel as [|fuel IH]; intros s h s' h' Ps W;
    [discriminate W|].
  rewrite while_S in W. unfold bind in W.
  destruct (body s h) as [r h1| | |] eqn:E; try discriminate W.
  specialize (B s h r h1 Ps E).
  destruct r as [s1|s1]; [exact (IH s1 h1 s' h' B W)|].
  inversion W; subst. exact B.
Qed.

(** A loop whose rounds take from the queue before they go on has fuel
    enough with more fuel than the queue is long. *)
Lemma while_fuel {S : Type} (body : S -> M (S + S)) :
  (forall s h, body s h <> OutOfFuel) ->
  (forall s h s' h', body s h = Ret (inl s') h' ->
                     (List.length (attPDURing h') < List.length (attPDURing h))%nat) ->
  forall fuel s h,
    (List.length (attPDURing h) < fuel)%nat ->
    while fuel body s h <> OutOfFuel.
Proof.
  intros B1 B2. induction fuel as [|fuel IH]; intros s h F; [lia|].
  rewrite while_S. unfold bind.
  destruct (body s h) as [r h1| | |] eqn:E; try discriminate.
  - destruct r as [s1|s1]; [|discriminate].
    apply IH. specialize (B2 s h s1 h1 E). lia.
  - destruct (B1 s h E).
Qed.

(** One round of the configuration discovery: it goes on only after
    taking from the queue, and changes the declarations only by the
    attachments of one response. *)
Lemma discoverClientCharacteristicConfig_body_cases
  (srv : GATTUUIDHandleRange) (st : Z * list GATTCharacterisicsDecl)
  (h : GATTHandler) :
  match discoverClientCharacteristicConfig_body srv st h with
  | Ret r h' =>
      match r with
      | inl st' =>
          (List.length (attPDURing h') < List.length (attPDURing h))%nat
          /\ exists esz els, snd st' = attach_elements esz els (snd st)
      | inr st' =>
          snd st' = snd st
          \/ exists esz els, snd st' = attach_elements esz els (snd st)
      end
  | OutOfFuel => False
  | Throw _ _ | Blocked _ => True
  end.
Proof.
  destruct st as [hd decls]. unfold discoverClientCharacteristicConfig_body.
  unfold bind at 1.
  match goal with |- context [send ?msg h] =>
    pose proof (send_effect msg h) as E; destruct (send msg h) as [b h1| | |]
  end; try exact I; try contradiction.
  destruct E as (_ & Q & _).
  destruct b; [|cbn; auto].
  unfold bind at 1, receiveNext.
  destruct (attPDURing h1) as [|pdu q] eqn:Q1; [exact I|].
  assert (List.length q < List.length (attPDURing h))%nat as Lt
    by (rewrite <- Q; cbn; lia).
  destruct pdu; cbn [ret snd]; auto.
  unfold bind, last_element.
  destruct (rev elements) as [|e r]; [exact I|]. cbn [ret].
  destruct (te_handle e <? endHandle srv); cbn [ret snd attPDURing with_ring];
    eauto.
Qed.

Lemma discoverClientCharacteristicConfig_fuel (srv : GATTUUIDHandleRange)
  (fuel : nat) (st : Z * list GATTCharacterisicsDecl) (h : GATTHandler) :
  (List.length (attPDURing h) < fuel)%nat ->
  while fuel (discoverClientCharacteristicConfig_body srv) st h <> OutOfFuel.
Proof.
  apply while_fuel.
  - intros s0 h0 E.
    pose proof (discoverClientCharacteristicConfig_body_cases srv s0 h0) as C.
    rewrite E in C. exact C.
  - intros s0 h0 s1 h1 E.
    pose proof (discoverClientCharacteristicConfig_body_cases srv s0 h0) as C.
    rewrite E in C. exact (proj1 C).
Qed.

Lemma discoverClientCharacteristicConfig_loop_inv (srv : GATTUUIDHandleRange)
  (ids : list (uuid_t * Z * Z * Z * Z * uuid_t)) (fuel : nat)
  (st st' : Z * list GATTCharacterisicsDecl) (h h' : GATTHandler) :
  cccd_in_range (snd st) = true -> map decl_ids (snd st) = ids ->
  while fuel (discoverClientCharacteristicConfig_body srv) st h = Ret st' h' ->
  cccd_in_range (snd st') = true /\ map decl_ids (snd st') = ids.
Proof.
  intros P1 P2 W.
  apply (while_inv
           (fun st => cccd_in_range (snd st) = true
                      /\ map decl_ids (snd st) = ids)
           (discoverClientCharacteristicConfig_body srv)) in W;
    [exact W | | split; assumption].
  clear. intros s0 h0 r h2 [P1 P2] B.
  pose proof (discoverClientCharacteristicConfig_body_cases srv s0 h0) as C.
  rewrite B in C.
  destruct r as [s1|s1];
    [destruct C as (_ & esz & els & C)
    |destruct C as [C | (esz & els & C)]];
    rewrite C; try (split; assumption);
    destruct (attach_elements_inv esz els (snd s0)) as [I R];
    (split; [exact (R P1) | rewrite I; exact P2]).
Qed.

(** C6. Every configuration [discoverClientCharacteristicConfig]
    attaches to a declaration [c] has its handle above [c]'s value handle
    and at most the next declaration's value handle, or the service end
    handle [c] carries when [c] is the last; elements of a total size
    other than 4 attach nothing. So a service whose configurations are in
    range (none, after the characteristic discovery) has them in range
    after the call, which never runs out of rounds and leaves handles
    and the service range as they were. *)
Theorem discoverClientCharacteristicConfig_in_range
  (service : GATTPrimaryService) (h : GATTHandler) :
  cccd_in_range (characteristicDeclList service) = true ->
  (forall ch cv decls j c,
      nth_error decls j = Some c ->
      nth_error (attach_config ch cv decls) j = Some c
      \/ (nth_error (attach_config ch cv decls) j
          = Some (set_config (mkCCCD ch cv) c)
          /\ handle c < ch
             <= match nth_error decls (S j) with
                | Some next_c => handle next_c
                | None => service_handle_end c
                end))
  /\ (forall esz els decls, esz <> 4 -> attach_elements esz els decls = decls)
  /\ discoverClientCharacteristicConfig service h <> OutOfFuel
  /\ (forall b service' h',
         discoverClientCharacteristicConfig service h = Ret (b, service') h' ->
         cccd_in_range (characteristicDeclList service') = true
         /\ map decl_ids (characteristicDeclList service')
            = map decl_ids (characteristicDeclList service)
         /\ declaration service' = declaration service).
Proof.
  intro H.
  split; [intros ch cv decls j c; apply attach_config_nth|].
  split; [intros esz els decls; apply attach_elements_other_size|].
  unfold discoverClientCharacteristicConfig, bind, gets.
  pose proof (discoverClientCharacteristicConfig_fuel (declaration service)
                (S (List.length (attPDURing h)))
                (startHandle (declaration service),
                 characteristicDeclList service) h ltac:(lia)) as WF.
  destruct (while _ _ _ h) as [st1 h1| | |] eqn:W;
    (split; [try discriminate; try (exfalso; apply WF; reflexivity)|]);
    try (intros b service' h' E; discriminate E).
  intros b service' h' E. cbn [ret] in E. inversion E; subst.
  cbn [characteristicDeclList declaration].
  destruct (discoverClientCharacteristicConfig_loop_inv
              (declaration service)
              (map decl_ids (characteristicDeclList service)) _
              (startHandle (declaration service),
               characteristicDeclList service) st1 h h' H eq_refl W)
    as [K1 K2].
  auto.
Qed.

Lemma discoverClientCharacteristicConfig_in_range_witness :
  let c1 := mkDecl (uuid16_t 0x180F) 2 9 0x12 3 (uuid16_t 0x2A19) None in
  let c2 := mkDecl (uuid16_t 0x180F) 5 9 0x02 6 (uuid16_t 0x2A1A) None in
  let service := mkService (mkRange 1 9 (uuid16_t 0x180F)) [c1; c2] in
  let h := connected_engine 23
             [AttReadByTypeRsp 4 [mkTypeElement 4 [0; 0]]; AttErrorRsp 0x0A] in
  discoverClientCharacteristicConfig service h
  = Ret (true,
         mkService (mkRange 1 9 (uuid16_t 0x180F))
           [set_config (mkCCCD 4 0) c1; c2])
      (with_trace
         [sent (AttReadByNTypeReq false 1 9 (uuid16_t 0x2902));
          sent (AttReadByNTypeReq false 5 9 (uuid16_t 0x2902))]
         (with_ring [] h))
  /\ cccd_in_range [set_config (mkCCCD 4 0) c1; c2] = true.
Proof.
  intros c1 c2 service h.
  split; [vm_compute; reflexivity|].
  refine (proj1 (proj2 (proj2 (proj2
            (discoverClientCharacteristicConfig_in_range service h _)))
            true
            (mkService (mkRange 1 9 (uuid16_t 0x180F))
               [set_config (mkCCCD 4 0) c1; c2])
            (with_trace
               [sent (AttReadByNTypeReq false 1 9 (uuid16_t 0x2902));
                sent (AttReadByNTypeReq false 5 9 (uuid16_t 0x2902))]
               (with_ring [] h)) _));
    vm_compute; reflexivity.
Defined.

End GATT_facts.

(** * Further properties *)

(** ** EUI-48 *)

Section EUI48_more.
Import EUI48.

Lemma hexdigit_upper_digit (d : Z) :
  0 <= d < 16 ->
  isxdigit (hexdigit_upper d) = true /\ hexval (hexdigit_upper d) = Some d.
Proof.
  intro R.
  assert (d = 0 \/ d = 1 \/ d = 2 \/ d = 3 \/ d = 4 \/ d = 5 \/ d = 6 \/ d = 7
          \/ d = 8 \/ d = 9 \/ d = 10 \/ d = 11 \/ d = 12 \/ d = 13 \/ d = 14
          \/ d = 15) as C by lia.
  repeat (destruct C as [C|C]; [subst d; split; reflexivity|]).
  subst d; split; reflexivity.
Qed.

Lemma octet_nibbles (v : Z) :
  0 <= (v mod 256) / 16 < 16 /\ 0 <= (v mod 256) mod 16 < 16
  /\ 16 * ((v mod 256) / 16) + (v mod 256) mod 16 = v mod 256.
Proof.
  pose proof (Z.mod_pos_bound v 256 ltac:(lia)) as B.
  pose proof (Z.mod_pos_bound (v mod 256) 16 ltac:(lia)) as B'.
  pose proof (Z.div_mod (v mod 256) 16 ltac:(lia)) as D.
  split; [|split; [exact B' | lia]].
  split; [apply Z.div_pos; lia | apply Z.div_lt_upper_bound; lia].
Qed.

(** The text [toString] builds, read back group by group. *)
Lemma scan_print_2X (v : Z) (k : string) :
  scan_hhx 2 (print_2X v k) = Some (v mod 256, k)
  /\ exists h l, print_2X v k = String h (String l k)
                 /\ isxdigit h = true /\ isxdigit l = true.
Proof.
  destruct (octet_nibbles v) as (Rh & Rl & E).
  destruct (hexdigit_upper_digit _ Rh) as [Xh Hh].
  destruct (hexdigit_upper_digit _ Rl) as [Xl Hl].
  unfold print_2X. split.
  - rewrite (scan_hhx_pair _ _ k _ _ Xh Hh Xl Hl Rh Rl). rewrite E.
    reflexivity.
  - eexists _, _. split; [reflexivity|]. split; assumption.
Qed.

End EUI48_more.

(** X1. [toString] never throws: for every address it returns a text of
    17 characters, six pairs of hexadecimal digits with colons between. *)
Theorem EUI48_toString_wellformed (a : EUI48.t) :
  exists s, EUI48.toString a = inr s
            /\ String.length s = 17%nat /\ EUI48.valid s = true.
Proof.
  unfold EUI48.toString.
  destruct (scan_print_2X (EUI48.b0 a) "")
    as (_ & h0 & l0 & E0 & H0 & L0).
  rewrite E0.
  repeat match goal with
         | |- context [EUI48.print_2X ?v ?k] =>
             let h := fresh "h" in let l := fresh "l" in
             let E := fresh "E" in let H := fresh "H" in let L := fresh "L" in
             destruct (scan_print_2X v k) as (_ & h & l & E & H & L);
             rewrite E; clear E
         end.
  cbn [String.length Nat.eqb]. eexists. split; [reflexivity|].
  split; [reflexivity|].
  unfold EUI48.valid. cbn [String.length Nat.eqb EUI48.valid_groups andb].
  unfold EUI48.is_colon.
  repeat match goal with H : EUI48.isxdigit _ = true |- _ => rewrite H; clear H end.
  reflexivity.
Qed.

(** X2. Reading back what [toString] printed gives the address again,
    for an address of six octets. *)
Theorem EUI48_of_string_toString (a : EUI48.t) :
  Forall (fun v => 0 <= v < 256)
    [EUI48.b0 a; EUI48.b1 a; EUI48.b2 a; EUI48.b3 a; EUI48.b4 a; EUI48.b5 a] ->
  exists s, EUI48.toString a = inr s /\ EUI48.of_string s = inr a.
Proof.
  intro R.
  repeat match goal with
         | H : Forall _ (_ :: _) |- _ => inversion H; subst; clear H
         end.
  unfold EUI48.toString. cbv zeta.
  match goal with |- context [Nat.eqb (String.length ?str) 17] =>
    assert (String.length str = 17%nat) as Len
      by (unfold EUI48.print_2X; reflexivity)
  end.
  rewrite Len. cbn [Nat.eqb]. eexists. split; [reflexivity|].
  unfold EUI48.of_string. rewrite Len. cbn [Nat.eqb negb].
  cbn [EUI48.sscanf_fields].
  repeat (rewrite (proj1 (scan_print_2X _ _)); cbn [EUI48.scan_lit];
          rewrite ?Ascii.eqb_refl).
  rewrite !Z.mod_small by assumption.
  destruct a; reflexivity.
Qed.

Lemma EUI48_of_string_toString_witness :
  exists s, EUI48.toString (EUI48.mk 0xAB 0x89 0x67 0x45 0x23 0x01) = inr s
            /\ EUI48.of_string s
               = inr (EUI48.mk 0xAB 0x89 0x67 0x45 0x23 0x01).
Proof.
  apply EUI48_of_string_toString. repeat constructor; cbn; lia.
Defined.

(** ** EIR decoder *)

Section EIR_more.
Import EIR Decoding.

(** A property of the report kept by every element is kept by the loop. *)
Lemma read_data_loop_inv (P : EInfoReport -> Prop) (data : list Z) (size : Z) :
  (forall e r, P r -> P (decode_elem data e r)) ->
  forall fuel out offset count r r' c,
    P r ->
    read_data_loop fuel data size out offset count r = Some (r', c) -> P r'.
Proof.
  intro Step. induction fuel as [|fuel IH]; intros out offset count r r' c Pr E;
    [discriminate E|].
  cbn [read_data_loop] in E.
  destruct (next_data_elem out data offset size) as [offset' out'].
  destruct (0 <? offset').
  - eapply IH; [|exact E]. apply Step, Pr.
  - inversion E; subst. exact Pr.
Qed.

Lemma add_uuids_inv (P : EInfoReport -> Prop) :
  (forall u r, P r -> P (addService u r)) ->
  forall mk w data e r, P r -> P (add_uuids mk w data e r).
Proof.
  intros A mk w data e. unfold add_uuids.
  generalize (seq 0 (Z.to_nat (elem_len e / Z.of_nat w))) as l.
  induction l as [|j l IH]; intros r Pr; [exact Pr|].
  cbn [fold_left]. apply IH, A, Pr.
Qed.

(** The switch applies one of the report's setters, or nothing. *)
Lemma decode_elem_inv (P : EInfoReport -> Prop) :
  (forall v r, P r -> P (setFlags v r)) ->
  (forall u r, P r -> P (addService u r)) ->
  (forall data p n r, P r -> P (setShortName data p n r)) ->
  (forall data p n r, P r -> P (setName data p n r)) ->
  (forall v r, P r -> P (setTxPower v r)) ->
  (forall v r, P r -> P (setDeviceClass v r)) ->
  (forall a b c d r, P r -> P (setDeviceID a b c d r)) ->
  (forall v r, P r -> P (setAppearance v r)) ->
  (forall v r, P r -> P (setHash v r)) ->
  (forall v r, P r -> P (setRandomizer v r)) ->
  (forall c d r, P r -> P (setManufactureSpecificData c d r)) ->
  forall data e r, P r -> P (decode_elem data e r).
Proof.
  intros F A SN N T C D Ap H R M data e r Pr. unfold decode_elem.
  repeat match goal with
         | |- P (if ?c then _ else _) => destruct c
         end;
    try (apply add_uuids_inv; assumption); auto.
Qed.

Lemma land_lor_keep (m b c : Z) :
  Z.land m c = c -> Z.land (Z.lor m b) c = c.
Proof.
  intro H. apply Z.bits_inj'. intros n _.
  apply (f_equal (fun x => Z.testbit x n)) in H.
  rewrite Z.land_spec in *. rewrite Z.lor_spec.
  destruct (Z.testbit m n), (Z.testbit b n), (Z.testbit c n);
    cbn in *; congruence.
Qed.

Lemma land_lor_self (m b : Z) : Z.land (Z.lor m b) b = b.
Proof.
  apply Z.bits_inj'. intros n _. rewrite Z.land_spec, Z.lor_spec.
  destruct (Z.testbit m n), (Z.testbit b n); reflexivity.
Qed.

Lemma land_lor_both (m b d : Z) :
  Z.land m d = m -> Z.land b d = b -> Z.land (Z.lor m b) d = Z.lor m b.
Proof. intros H1 H2. rewrite Z.land_lor_distr_l, H1, H2. reflexivity. Qed.

Ltac mask_sound_setter :=
  intros; unfold mask_sound, dirty_covers, isSet in *;
  repeat match goal with
         | H : _ /\ _ |- _ => destruct H
         | H : exists _, _ |- _ => destruct H
         end;
  cbn [set setFlags setName setShortName setTxPower setDeviceClass
       setDeviceID setAppearance setHash setRandomizer
       setManufactureSpecificData eir_data_mask flags name name_short
       tx_power device_class appearance hash randomizer did_source
       did_vendor did_product did_version msd services];
  split;
  [repeat split;
   match goal with
   | |- _ \/ Z.land (Z.lor _ ?b) ?b = ?b => right; apply land_lor_self
   | H : ?x = ?y \/ Z.land _ ?c = ?c |- ?x = ?y \/ Z.land _ ?c = ?c =>
       destruct H as [H|H];
       [left; exact H | right; apply land_lor_keep; exact H]
   end
  |split;
   [eexists; eassumption
   |match goal with
    | H : ?m' = Z.lor ?m0 ?m |- exists _, Z.lor ?m' ?b = _ /\ _ =>
        exists (Z.lor m b); split;
        [rewrite H, Z.lor_assoc; reflexivity
        |apply land_lor_both; [assumption | reflexivity]]
    end]].

Lemma mask_sound_decode (r0 : EInfoReport) (data : list Z) (e : elem)
  (r : EInfoReport) :
  mask_sound r0 r -> mask_sound r0 (decode_elem data e r).
Proof.
  revert data e r. apply decode_elem_inv; try solve [mask_sound_setter].
  intros u r H. unfold addService. destruct (existsb _ _); [exact H|].
  destruct H as (D & (added & S) & M).
  split; [exact D|]. split; [|exact M].
  exists (added ++ [u]). cbn [services]. rewrite S, app_assoc. reflexivity.
Qed.

(** One element with one 16-bit service UUID: the service is added, the
    mask is as it was. *)
Lemma read_data_one_service (r : EInfoReport) (lo hi : Z) :
  read_data r [3; GAP_T.UUID16_COMPLETE; lo; hi] 4
  = Some (addService
            (uuid16_t (get_uint16 [3; GAP_T.UUID16_COMPLETE; lo; hi] 2)) r, 1).
Proof.
  unfold read_data. change (u8 4) with 4.
  cbn [Z.to_nat Pos.to_nat Pos.iter_op Nat.add].
  cbn [read_data_loop]. unfold next_data_elem at 1.
  change (rd [3; GAP_T.UUID16_COMPLETE; lo; hi] 0) with 3.
  change (rd [3; GAP_T.UUID16_COMPLETE; lo; hi] (0 + 1)) with 3.
  cbn [Z.ltb Z.eqb Z.gtb Z.compare Z.add Pos.add Pos.compare
       Pos.compare_cont Pos.succ].
  change (0 + 1) with 1. change (u8 (3 - 1)) with 2. change (0 + 2) with 2.
  unfold next_data_elem. change (4 <? 4) with false. cbv iota.
  change (0 <? - ENOENT) with false. cbv iota.
  unfold decode_elem. cbn [elem_type elem_len elem_data].
  change (3 =? GAP_T.FLAGS) with false.
  change (one_of 3 [GAP_T.UUID16_INCOMPLETE; GAP_T.UUID16_COMPLETE]) with true.
  cbv iota. unfold add_uuids. cbn [elem_len elem_data].
  change (seq 0 (Z.to_nat (2 / Z.of_nat 2))) with [0%nat].
  cbn [fold_left]. change (2 + Z.of_nat 0 * Z.of_nat 2) with 2.
  unfold get_uint16. cbn [get_le].
  change (Z.shiftl 0 8) with 0. rewrite Z.lor_0_r. reflexivity.
Qed.

End EIR_more.

(** X3. After [read_data], every field of the report but the list of
    services differs from what it was only if its bit of the data mask
    is set; no bit is cleared, and only the bits of the decoder's
    setters are added. The services are the exception: [read_data] can
    only append to them, and never sets the bit SERVICE_UUID, so that an
    element with a 16-bit service UUID adds the service (unless it is
    there) and leaves the mask as it was. *)
Theorem read_data_mask_sound (r : EIR.EInfoReport) (data : list Z)
  (data_length : Z) (lo hi : Z) :
  (exists r' count,
     EIR.read_data r data data_length = Some (r', count)
     /\ Decoding.dirty_covers r r'
     /\ (exists added, EIR.services r' = EIR.services r ++ added)
     /\ exists m, EIR.eir_data_mask r' = Z.lor (EIR.eir_data_mask r) m
                  /\ Z.land m Decoding.decoder_bits = m
                  /\ Z.land m EIR.EIRDataType.SERVICE_UUID = 0)
  /\ (let u := EIR.uuid16_t
                 (EIR.get_uint16 [3; EIR.GAP_T.UUID16_COMPLETE; lo; hi] 2) in
      exists r',
        EIR.read_data r [3; EIR.GAP_T.UUID16_COMPLETE; lo; hi] 4
        = Some (r', 1)
        /\ EIR.eir_data_mask r' = EIR.eir_data_mask r
        /\ EIR.services r'
           = if existsb (fun p => EIR.uuid_eqb p u) (EIR.services r)
             then EIR.services r else EIR.services r ++ [u]).
Proof.
  split.
  - unfold EIR.read_data.
    assert (0 <= EIR.u8 data_length < 256) as U
      by (unfold EIR.u8; apply Z.mod_pos_bound; lia).
    destruct (read_data_loop_total data (EIR.u8 data_length)
                (S (Z.to_nat (EIR.u8 data_length))) (EIR.mkElem 0 0 0) 0 0 r)
      as (r' & c & E & _); [lia | lia |].
    exists r', c. split; [exact E|].
    assert (Decoding.mask_sound r r') as (D & A & m & M1 & M2).
    { refine (read_data_loop_inv (Decoding.mask_sound r) data _
                (mask_sound_decode r data) _ _ _ _ r r' c _ E).
      split; [|split].
      - unfold Decoding.dirty_covers. repeat split; left; reflexivity.
      - exists []. rewrite app_nil_r. reflexivity.
      - exists 0. split; [rewrite Z.lor_0_r; reflexivity | reflexivity]. }
    split; [exact D|]. split; [exact A|].
    exists m. split; [exact M1|]. split; [exact M2|].
    rewrite <- M2, <- Z.land_assoc.
    replace (Z.land Decoding.decoder_bits EIR.EIRDataType.SERVICE_UUID)
      with 0 by reflexivity.
    apply Z.land_0_r.
  - intro u. rewrite read_data_one_service. fold u.
    exists (EIR.addService u r). split; [reflexivity|].
    unfold EIR.addService.
    destruct (existsb _ _); split; reflexivity.
Qed.

Section EIR_services.
Import EIR Decoding.

Lemma ForallOrdPairs_snoc {A : Type} (R : A -> A -> Prop) (l : list A)
  (x : A) :
  ForallOrdPairs R l -> Forall (fun p => R p x) l ->
  ForallOrdPairs R (l ++ [x]).
Proof.
  induction 1 as [|a l Fa Fl IH]; intro F; cbn.
  - repeat constructor.
  - inversion F; subst. constructor; [|apply IH; assumption].
    apply Forall_app. split; [exact Fa | repeat constructor; assumption].
Qed.

Lemma addService_distinct (r0 : EInfoReport) (u : uuid_t) (r : EInfoReport) :
  services_distinct r0 r -> services_distinct r0 (addService u r).
Proof.
  unfold services_distinct, distinct_services, addService.
  intros [N (added & E)].
  destruct (existsb _ _) eqn:X; [split; eauto|].
  cbn [services]. split.
  - apply ForallOrdPairs_snoc; [exact N|].
    apply Forall_forall. intros p Ip.
    destruct (uuid_eqb p u) eqn:Q; [|reflexivity].
    assert (existsb (fun p => uuid_eqb p u) (services r) = true) as C
      by (apply existsb_exists; exists p; split; assumption).
    congruence.
  - exists (added ++ [u]). rewrite E, app_assoc. reflexivity.
Qed.

Lemma decode_elem_distinct (r0 : EInfoReport) (data : list Z) (e : elem)
  (r : EInfoReport) :
  services_distinct r0 r -> services_distinct r0 (decode_elem data e r).
Proof.
  revert data e r.
  apply decode_elem_inv; try (intros; assumption).
  intros u r. apply addService_distinct.
Qed.

End EIR_services.

(** X4. [read_data] only appends to the services of the report, and
    keeps them free of duplicates: no service compares equal to a later
    one, by the comparison [addService] makes. *)
Theorem read_data_services_distinct (r : EIR.EInfoReport) (data : list Z)
  (data_length : Z) :
  Decoding.distinct_services (EIR.services r) ->
  exists r' count,
    EIR.read_data r data data_length = Some (r', count)
    /\ Decoding.distinct_services (EIR.services r')
    /\ exists added, EIR.services r' = EIR.services r ++ added.
Proof.
  intro N. unfold EIR.read_data.
  assert (0 <= EIR.u8 data_length < 256) as U
    by (unfold EIR.u8; apply Z.mod_pos_bound; lia).
  destruct (read_data_loop_total data (EIR.u8 data_length)
              (S (Z.to_nat (EIR.u8 data_length))) (EIR.mkElem 0 0 0) 0 0 r)
    as (r' & c & E & _); [lia | lia |].
  exists r', c. split; [exact E|].
  refine (read_data_loop_inv (Decoding.services_distinct r) data _
            (decode_elem_distinct r data) _ _ _ _ r r' c _ E).
  split; [exact N | exists []; rewrite app_nil_r; reflexivity].
Qed.

Lemma read_data_services_distinct_witness :
  exists r' count,
    EIR.read_data EIR.EInfoReport_new
      [0x05; 0x03; 0x0F; 0x18; 0x0F; 0x18; 0x03; 0x02; 0x0F; 0x18] 10
    = Some (r', count)
    /\ Decoding.distinct_services (EIR.services r')
    /\ exists added, EIR.services r' = EIR.services EIR.EInfoReport_new ++ added.
Proof. apply read_data_services_distinct. constructor. Defined.

Section EIR_bound.
Import EIR Decoding.

Variables (data data' : list Z) (size : Z).
Hypothesis agree : forall i, i <= size -> rd data i = rd data' i.

Lemma octets_agree (off n : Z) :
  off + n <= size + 1 -> octets data off n = octets data' off n.
Proof.
  intro B. unfold octets. apply map_ext_in. intros k I.
  apply in_seq in I. apply agree. lia.
Qed.

Lemma get_le_agree (w : nat) :
  forall off, off + Z.of_nat w <= size + 1 ->
              get_le w data off = get_le w data' off.
Proof.
  induction w as [|w IH]; intros off B; [reflexivity|].
  cbn [get_le]. rewrite agree by lia. rewrite IH by lia. reflexivity.
Qed.

Lemma add_uuids_agree (mk : Z -> uuid_t) (w : nat) (e : elem)
  (r : EInfoReport) :
  (0 < w)%nat -> 0 <= elem_len e -> elem_data e + elem_len e <= size + 1 ->
  add_uuids mk w data e r = add_uuids mk w data' e r.
Proof.
  intros W N B. unfold add_uuids.
  assert (forall j, In j (seq 0 (Z.to_nat (elem_len e / Z.of_nat w))) ->
                    elem_data e + Z.of_nat j * Z.of_nat w + Z.of_nat w
                    <= size + 1) as J.
  { intros j I. apply in_seq in I.
    assert (Z.of_nat j < elem_len e / Z.of_nat w) as Lt.
    { destruct I as [_ I]. cbn in I.
      apply Nat2Z.inj_lt in I. rewrite Z2Nat.id in I; [exact I|].
      apply Z.div_pos; lia. }
    pose proof (Z.mul_div_le (elem_len e) (Z.of_nat w) ltac:(lia)) as D.
    nia. }
  revert r J. generalize (seq 0 (Z.to_nat (elem_len e / Z.of_nat w))) as l.
  induction l as [|j l IH]; intros r J; [reflexivity|].
  cbn [fold_left]. rewrite get_le_agree by (apply J; left; reflexivity).
  apply IH. intros j' I. apply J. right. exact I.
Qed.

(** The switch reads the element's own octets, and the first eight of
    the buffer for a device id. *)
Lemma decode_elem_agree (e : elem) (r : EInfoReport) :
  2 <= elem_data e -> 0 <= elem_len e ->
  elem_data e + elem_len e <= size + 1 ->
  decode_elem data e r = decode_elem data' e r.
Proof.
  intros P N B. unfold decode_elem.
  repeat match goal with
         | |- (if ?c then _ else _) = (if ?c then _ else _) =>
             let E := fresh "E" in
             destruct c eqn:E; try rewrite Z.leb_le in E
         end;
    try reflexivity;
    try (apply add_uuids_agree; lia);
    unfold setName, setShortName, get_string, get_uint16;
    rewrite ?(octets_agree (elem_data e)) by lia;
    rewrite ?(octets_agree (elem_data e + 2)) by lia;
    rewrite ?(agree (elem_data e)), ?(agree (elem_data e + 1)),
      ?(agree (elem_data e + 2)) by lia;
    rewrite ?(agree 0), ?(agree 1), ?(agree 2), ?(agree 3), ?(agree 4),
      ?(agree 5), ?(agree 6), ?(agree 7) by lia;
    reflexivity.
Qed.

Lemma next_data_elem_agree (out : elem) (offset : Z) :
  next_data_elem out data offset size = next_data_elem out data' offset size.
Proof.
  unfold next_data_elem.
  destruct (offset <? size) eqn:Lt; [|reflexivity].
  apply Z.ltb_lt in Lt. rewrite <- (agree offset) by lia.
  pose proof (rd_range data offset) as R.
  destruct (rd data offset =? 0) eqn:Z0; [reflexivity|].
  apply Z.eqb_neq in Z0.
  destruct (rd data offset + offset >? size) eqn:Gt; [reflexivity|].
  rewrite Z.gtb_ltb in Gt. apply Z.ltb_ge in Gt.
  rewrite <- (agree (offset + 1)) by lia. reflexivity.
Qed.

(** What the iterator hands over when it moves on. *)
Lemma next_data_elem_element (out : elem) (offset : Z) :
  0 <= offset ->
  let '(offset', out') := next_data_elem out data offset size in
  0 < offset' ->
  offset < offset' /\ 2 <= elem_data out' /\ 0 <= elem_len out'
  /\ elem_data out' + elem_len out' <= size + 1.
Proof.
  intro O. unfold next_data_elem.
  pose proof (rd_range data offset) as R.
  destruct (offset <? size) eqn:Lt; [|cbn; lia].
  destruct (rd data offset =? 0) eqn:Z0; [lia|].
  apply Z.eqb_neq in Z0.
  destruct (rd data offset + offset >? size) eqn:Gt; [cbn; lia|].
  rewrite Z.gtb_ltb in Gt. apply Z.ltb_ge in Gt.
  intros _. cbn [elem_data elem_len]. unfold u8.
  rewrite Z.mod_small by lia. lia.
Qed.

Lemma read_data_loop_agree :
  forall fuel out offset count r,
    0 <= offset ->
    read_data_loop fuel data size out offset count r
    = read_data_loop fuel data' size out offset count r.
Proof.
  induction fuel as [|fuel IH]; intros out offset count r O; [reflexivity|].
  cbn [read_data_loop]. rewrite <- next_data_elem_agree.
  pose proof (next_data_elem_element out offset O) as E.
  destruct (next_data_elem out data offset size) as [offset' out'].
  destruct (0 <? offset') eqn:P; [|reflexivity].
  apply Z.ltb_lt in P. destruct (E P) as (Lt & A & B & C).
  rewrite <- decode_elem_agree by assumption.
  apply IH. lia.
Qed.

End EIR_bound.

Lemma nth_firstn_lt {A : Type} (d : A) :
  forall (m k : nat) (l : list A),
    (k < m)%nat -> nth k (firstn m l) d = nth k l d.
Proof.
  induction m as [|m IH]; intros k l Lt; [lia|].
  destruct l as [|x l]; [destruct k; reflexivity|].
  destruct k as [|k]; [reflexivity|]. cbn. apply IH. lia.
Qed.

(** X5. [read_data] reads no octet beyond index [data_length]: two
    buffers that agree on their first [data_length + 1] octets decode
    alike. (One octet beyond the length given can be read.) *)
Theorem read_data_reads_within (r : EIR.EInfoReport) (data data' : list Z)
  (data_length : Z) :
  firstn (S (Z.to_nat (EIR.u8 data_length))) data
  = firstn (S (Z.to_nat (EIR.u8 data_length))) data' ->
  EIR.read_data r data data_length = EIR.read_data r data' data_length.
Proof.
  intro F. unfold EIR.read_data.
  apply read_data_loop_agree; [|lia].
  intros i I. unfold EIR.rd. f_equal.
  rewrite <- (nth_firstn_lt 0 (S (Z.to_nat (EIR.u8 data_length))) _ data)
    by lia.
  rewrite <- (nth_firstn_lt 0 (S (Z.to_nat (EIR.u8 data_length))) _ data')
    by lia.
  rewrite F. reflexivity.
Qed.

Lemma read_data_reads_within_witness :
  EIR.read_data EIR.EInfoReport_new [0x02; 0x0A; 0x7F; 0x55; 0x66] 2
  = EIR.read_data EIR.EInfoReport_new [0x02; 0x0A; 0x7F] 2.
Proof. apply read_data_reads_within. reflexivity. Defined.

Section EIR_stream.
Import EIR Decoding.

Lemma rd_middle (pre rest : list Z) (x : Z) :
  0 <= x < 256 -> rd (pre ++ x :: rest) (Z.of_nat (List.length pre)) = x.
Proof.
  intro R. unfold rd, u8. rewrite Nat2Z.id, nth_middle.
  apply Z.mod_small. exact R.
Qed.

Lemma element_ok_inv (e : Z * list Z) :
  element_ok e = true ->
  0 <= fst e < 256 /\ Z.of_nat (List.length (snd e)) < 255.
Proof.
  unfold element_ok. intro H.
  repeat (apply andb_true_iff in H; destruct H as [H ?]).
  repeat match goal with
         | X : (_ <=? _) = true |- _ => apply Z.leb_le in X
         | X : (_ <? _) = true |- _ => apply Z.ltb_lt in X
         end. lia.
Qed.

Lemma stream_length (es : list (Z * list Z)) :
  2 * Z.of_nat (List.length es)
  <= Z.of_nat (List.length (flat_map element_octets es)).
Proof.
  induction es as [|e es IH]; [cbn; lia|].
  cbn [flat_map]. rewrite length_app. unfold element_octets at 1.
  cbn [List.length]. lia.
Qed.

(** The loop over a well-formed stream laid out after [pre]. *)
Lemma read_data_loop_stream (tail : list Z) (size : Z) :
  forall (es : list (Z * list Z)) (pre : list Z) (fuel : nat) (out : elem)
         (count : Z) (r : EInfoReport),
    let data := pre ++ flat_map element_octets es ++ tail in
    let off := Z.of_nat (List.length pre) in
    let stop := off + Z.of_nat (List.length (flat_map element_octets es)) in
    forallb element_ok es = true ->
    (List.length es < fuel)%nat ->
    stop = size \/ (stop < size /\ rd tail 0 = 0) ->
    read_data_loop fuel data size out off count r
    = Some (fold_left (fun r e => decode_elem data e r) (elements_at off es) r,
            count + Z.of_nat (List.length es)).
Proof.
  induction es as [|e es IH]; intros pre fuel out count r data off stop W F S;
    (destruct fuel as [|fuel]; [cbn in F; lia|]); cbn [read_data_loop].
  - subst data off stop. cbn [flat_map List.length app] in *.
    unfold next_data_elem.
    destruct S as [S | [S Z0]].
    + replace (Z.of_nat (List.length pre) <? size) with false
        by (symmetry; apply Z.ltb_ge; lia).
      cbn. rewrite Z.add_0_r. reflexivity.
    + replace (Z.of_nat (List.length pre) <? size) with true
        by (symmetry; apply Z.ltb_lt; lia).
      assert (rd (pre ++ tail) (Z.of_nat (List.length pre)) = 0) as H0.
      { revert Z0. unfold rd. rewrite Nat2Z.id. cbn [Z.to_nat].
        rewrite app_nth2 by lia. rewrite Nat.sub_diag. auto. }
      rewrite H0. cbn. rewrite Z.add_0_r. reflexivity.
  - cbn [forallb] in W. apply andb_true_iff in W. destruct W as [We Ws].
    destruct (element_ok_inv e We) as [Rt Rd].
    destruct e as [t d]. cbn [fst snd] in *.
    assert (data = pre ++ (1 + Z.of_nat (List.length d))
                          :: (t :: d ++ flat_map element_octets es ++ tail))
      as D1 by (subst data; cbn [flat_map element_octets fst snd app];
                rewrite <- !app_assoc; reflexivity).
    assert (data = (pre ++ [1 + Z.of_nat (List.length d)])
                     ++ t :: (d ++ flat_map element_octets es ++ tail))
      as D2 by (rewrite D1, <- app_assoc; reflexivity).
    assert (data = (pre ++ element_octets (t, d))
                     ++ flat_map element_octets es ++ tail)
      as D3 by (subst data; cbn [flat_map];
                rewrite <- !app_assoc; reflexivity).
    assert (rd data off = 1 + Z.of_nat (List.length d)) as L0
      by (rewrite D1; apply rd_middle; lia).
    assert (rd data (off + 1) = t) as T0.
    { rewrite D2.
      replace (off + 1) with (Z.of_nat (List.length (pre ++ [1 + Z.of_nat (List.length d)])))
        by (rewrite length_app; cbn; subst off; lia).
      apply rd_middle. exact Rt. }
    assert (stop = off + 2 + Z.of_nat (List.length d)
                   + Z.of_nat (List.length (flat_map element_octets es)))
      as St by (subst stop; cbn [flat_map]; rewrite length_app;
                unfold element_octets; cbn [List.length fst snd]; lia).
    unfold next_data_elem. rewrite L0, T0.
    replace (off <? size) with true by (symmetry; apply Z.ltb_lt; lia).
    replace (1 + Z.of_nat (List.length d) =? 0) with false
      by (symmetry; apply Z.eqb_neq; lia).
    replace (1 + Z.of_nat (List.length d) + off >? size) with false
      by (symmetry; rewrite Z.gtb_ltb; apply Z.ltb_ge; lia).
    replace (0 <? off + 1 + (1 + Z.of_nat (List.length d))) with true
      by (symmetry; apply Z.ltb_lt; subst off; lia).
    replace (u8 (1 + Z.of_nat (List.length d) - 1))
      with (Z.of_nat (List.length d))
      by (unfold u8; rewrite Z.mod_small; lia).
    cbn [elements_at fold_left fst snd List.length].
    specialize (IH (pre ++ element_octets (t, d)) fuel
                  (mkElem (Z.of_nat (List.length d)) t (off + 2)) (count + 1)
                  (decode_elem data
                     (mkElem (Z.of_nat (List.length d)) t (off + 2)) r) Ws).
    cbv zeta in IH. rewrite <- D3 in IH.
    replace (Z.of_nat (List.length (pre ++ element_octets (t, d))))
      with (off + 2 + Z.of_nat (List.length d)) in IH
      by (rewrite length_app; unfold element_octets;
          cbn [List.length fst snd]; subst off; lia).
    replace (off + 1 + (1 + Z.of_nat (List.length d)))
      with (off + 2 + Z.of_nat (List.length d)) by lia.
    rewrite IH; [|cbn in F; lia|rewrite <- St; exact S].
    replace (count + 1 + Z.of_nat (List.length es))
      with (count + Z.of_nat (Datatypes.S (List.length es))) by lia.
    reflexivity.
Qed.

End EIR_stream.

(** X6. On a well-formed stream of elements, ended by the length given
    or by a zero length octet before it, [read_data] applies the switch
    to every element in order, ignores what follows the zero octet, and
    returns the number of elements. *)
Theorem read_data_stream (r : EIR.EInfoReport) (es : list (Z * list Z))
  (tail : list Z) (data_length : Z) :
  let data := flat_map Decoding.element_octets es ++ tail in
  let stop := Z.of_nat (List.length (flat_map Decoding.element_octets es)) in
  forallb Decoding.element_ok es = true ->
  data_length <= 255 ->
  stop = data_length \/ (stop < data_length /\ EIR.rd tail 0 = 0) ->
  EIR.read_data r data data_length
  = Some (fold_left (fun r e => EIR.decode_elem data e r)
            (Decoding.elements_at 0 es) r,
          Z.of_nat (List.length es)).
Proof.
  intros data stop W B St. unfold EIR.read_data.
  assert (0 <= data_length) as N by (subst stop; lia).
  assert (EIR.u8 data_length = data_length) as U
    by (unfold EIR.u8; apply Z.mod_small; lia).
  rewrite U.
  pose proof (stream_length es) as SL.
  pose proof (read_data_loop_stream tail data_length es []
                (Datatypes.S (Z.to_nat data_length)) (EIR.mkElem 0 0 0) 0 r W) as L.
  cbv zeta in L. cbn [app List.length Z.of_nat] in L.
  apply L; [subst stop; lia | exact St].
Qed.

Lemma read_data_stream_witness :
  EIR.read_data EIR.EInfoReport_new
    (flat_map Decoding.element_octets [(0x01, [0x06]); (0x08, [0x41; 0x42])]
     ++ [0x00; 0x02; 0x0A; 0x7F]) 11
  = Some (fold_left
            (fun r e =>
               EIR.decode_elem
                 (flat_map Decoding.element_octets
                    [(0x01, [0x06]); (0x08, [0x41; 0x42])]
                  ++ [0x00; 0x02; 0x0A; 0x7F]) e r)
            (Decoding.elements_at 0 [(0x01, [0x06]); (0x08, [0x41; 0x42])])
            EIR.EInfoReport_new,
          2).
Proof.
  apply (read_data_stream EIR.EInfoReport_new
           [(0x01, [0x06]); (0x08, [0x41; 0x42])] [0x00; 0x02; 0x0A; 0x7F] 11);
    [reflexivity | lia | right; split; [cbn; lia | reflexivity]].
Defined.

(** X7. An element whose last octet lies at index [data_length], just
    outside the data, is accepted: with the two octets 02 0A given as the
    data, the TX power is taken from the octet that follows them. *)
Theorem read_data_reads_one_beyond (r : EIR.EInfoReport) (data : list Z) :
  EIR.rd data 0 = 2 -> EIR.rd data 1 = EIR.GAP_T.TX_POWER_LEVEL ->
  EIR.read_data r data 2
  = Some (EIR.setTxPower (EIR.int8 (EIR.rd data 2)) r, 1).
Proof.
  intros L T. unfold EIR.read_data.
  change (EIR.u8 2) with 2. cbn [Z.to_nat Pos.to_nat Pos.iter_op Nat.add].
  cbn [EIR.read_data_loop]. unfold EIR.next_data_elem at 1.
  rewrite L. cbn [Z.ltb Z.eqb Z.gtb Z.compare Z.add Pos.add Pos.compare
                  Pos.compare_cont Pos.succ].
  change (0 + 1) with 1. rewrite T.
  unfold EIR.decode_elem. cbn [EIR.elem_type EIR.elem_len EIR.elem_data].
  change (EIR.u8 (2 - 1)) with 1. change (0 + 2) with 2.
  cbn -[EIR.setTxPower EIR.rd EIR.int8 EIR.next_data_elem].
  unfold EIR.next_data_elem. cbn. reflexivity.
Qed.

Lemma read_data_reads_one_beyond_witness :
  EIR.read_data EIR.EInfoReport_new [0x02; 0x0A; 0x7F] 2
  = Some (EIR.setTxPower (EIR.int8 (EIR.rd [0x02; 0x0A; 0x7F] 2))
            EIR.EInfoReport_new, 1).
Proof. apply read_data_reads_one_beyond; reflexivity. Defined.

(** ** GATT engine: connection and writes *)

Section Engine_facts.
Import EIR GATT Procedures Engine.

Lemma bind_ret_eq {A B : Type} (m : M A) (f : A -> M B) (h h1 : GATTHandler)
  (a : A) :
  m h = Ret a h1 -> bind m f h = f a h1.
Proof. unfold bind. intros ->. reflexivity. Qed.

Ltac estep :=
  match goal with
  | |- context [bind ?m ?f ?h] => rewrite (bind_ret_eq m f h _ _ eq_refl)
  end; cbv beta.

Ltac estep_with E :=
  match goal with
  | |- context [bind ?m ?f ?h] => rewrite (bind_ret_eq m f h _ _ E)
  end; cbv beta.

Lemma closed_inv (h : GATTHandler) :
  closed h = true ->
  is_open (state h) = false /\ l2_isOpen (l2cap h) = false
  /\ is_open (l2_state (l2cap h)) = false.
Proof.
  unfold closed. intro C.
  repeat (apply andb_true_iff in C; destruct C as [C ?]).
  repeat match goal with X : negb _ = true |- _ => apply negb_true_iff in X end.
  auto.
Qed.

Lemma opened_inv (h : GATTHandler) :
  opened h = true ->
  is_open (state h) = true /\ l2_isOpen (l2cap h) = true
  /\ is_open (l2_state (l2cap h)) = true.
Proof.
  unfold opened. intro C.
  repeat (apply andb_true_iff in C; destruct C as [C ?]). auto.
Qed.

Lemma validateState_closed (h : GATTHandler) :
  closed h = true -> validateState h = Ret (state h) h.
Proof.
  intro C. destruct (closed_inv h C) as (A & B & D).
  unfold validateState. rewrite A, B, D. reflexivity.
Qed.

(** [send] on a closed engine gives up before the channel. *)
Lemma send_closed (msg : AttPDUMsg) (h : GATTHandler) :
  closed h = true -> send msg h = Ret false h.
Proof.
  intro C. unfold send. estep_with (validateState_closed h C).
  destruct (closed_inv h C) as (A & _). rewrite A. reflexivity.
Qed.

(** An engine whose state disagrees with its open channel. *)
Lemma validateState_torn (h : GATTHandler) :
  is_open (state h) = false -> l2_isOpen (l2cap h) = true ->
  validateState h = Throw InvalidStateException h.
Proof. unfold validateState. intros -> ->. reflexivity. Qed.


(** X8. A write the channel fails (negative result) makes [send] return
    [false] with the engine in state [Error] and the channel still
    open; from then on [send], [connect] and [disconnect] all throw
    InvalidStateException: the engine cannot even be disconnected. *)
Theorem send_write_error_sticks (h : GATT.GATTHandler) (msg : GATT.AttPDUMsg)
  (r : Z) (rest : list Z) :
  Engine.opened h = true -> GATT.getSize msg <= GATT.usedMTU h ->
  GATT.l2_write_results (GATT.l2cap h) = r :: rest -> r < 0 ->
  exists h',
    GATT.send msg h = GATT.Ret false h'
    /\ GATT.state h' = GATT.Error
    /\ GATT.trace h' = GATT.trace h ++ [GATT.EvWrite msg r]
    /\ (forall msg', GATT.send msg' h'
                     = GATT.Throw InvalidStateException h')
    /\ (forall ClientMaxMTU,
           GATT.connect ClientMaxMTU h' = GATT.Throw InvalidStateException h')
    /\ Engine.disconnect h' = GATT.Throw InvalidStateException h'.
Proof.
  intros O S W N. destruct (opened_inv h O) as (A & B & C).
  unfold GATT.send at 1.
  estep_with (validateState_open h A B C).
  rewrite A. cbn [negb]. estep.
  replace (GATT.getSize msg >? GATT.usedMTU h) with false
    by (symmetry; rewrite Z.gtb_ltb; apply Z.ltb_ge; lia).
  unfold GATT.l2cap_write, GATT.bind. rewrite W.
  replace (0 >? r) with true by (symmetry; rewrite Z.gtb_ltb; apply Z.ltb_lt; lia).
  cbn [GATT.modify GATT.ret]. eexists. split; [reflexivity|].
  split; [reflexivity|]. split; [reflexivity|].
  match goal with |- context [GATT.send _ ?hh] =>
    assert (GATT.validateState hh = GATT.Throw InvalidStateException hh) as V
      by (apply validateState_torn; [reflexivity | exact B])
  end.
  split; [|split].
  - intro msg'. unfold GATT.send, GATT.bind. rewrite V. reflexivity.
  - intro M. unfold GATT.connect, GATT.bind. rewrite V. reflexivity.
  - unfold Engine.disconnect, GATT.bind. rewrite V. reflexivity.
Qed.

Lemma send_write_error_sticks_witness :
  exists h',
    GATT.send GATT.AttHandleValueCfm
      (GATT.mkHandler GATT.Connected
         (GATT.mkL2CAP true GATT.Connected GATT.Connected [-1]) 23 23 [] []
         false false false [])
    = GATT.Ret false h'
    /\ Engine.disconnect h' = GATT.Throw InvalidStateException h'.
Proof.
  destruct (send_write_error_sticks
              (GATT.mkHandler GATT.Connected
                 (GATT.mkL2CAP true GATT.Connected GATT.Connected [-1]) 23 23
                 [] [] false false false [])
              GATT.AttHandleValueCfm (-1) [] eq_refl)
    as (h' & S & _ & _ & _ & _ & D);
    [vm_compute; discriminate | reflexivity | lia |].
  exists h'. split; assumption.
Defined.

(** X9. On a closed engine no procedure touches the channel or the
    inbound queue: [send] and the write return [false], the long read
    returns [false] with [res] as it was, the primary-service discovery
    returns [false] with no service, and [disconnect] returns [false];
    the engine is left as it was. *)
Theorem closed_engine_does_nothing (h : GATTHandler) :
  closed h = true ->
  (forall msg, send msg h = Ret false h)
  /\ (forall decl res expectedLength,
         readCharacteristicValue decl res expectedLength h
         = Ret (false, res) h)
  /\ discoverPrimaryServices h = Ret (false, []) h
  /\ (forall decl value, writeCharacteristicValueReq decl value h = Ret false h)
  /\ disconnect h = Ret false h.
Proof.
  intro C. split; [intro msg; apply send_closed, C|].
  destruct (closed_inv h C) as (A & _).
  split; [|split; [|split]].
  - intros decl res e. unfold readCharacteristicValue. estep.
    assert (readCharacteristicValue_body decl e (res, 0) h
            = Ret (inr (res, 0)) h) as B.
    { unfold readCharacteristicValue_body.
      rewrite Z.ltb_irrefl, andb_false_r. cbn [Z.eqb].
      replace ((0 <? e) && (e <=? 0)) with false
        by (symmetry; destruct (0 <? e) eqn:P; [|reflexivity];
            apply Z.ltb_lt in P; cbn; apply Z.leb_gt; lia).
      cbv beta iota.
      estep_with (send_closed (AttReadReq (handle decl)) h C).
      reflexivity. }
    assert (forall n, while (S n) (readCharacteristicValue_body decl e)
                        (res, 0) h = Ret (res, 0) h) as W
      by (intro n; rewrite while_S; estep_with B; reflexivity).
    estep_with (W (List.length (attPDURing h))). reflexivity.
  - unfold discoverPrimaryServices. estep.
    assert (discoverPrimaryServices_body (1, []) h = Ret (inr (1, [])) h) as B.
    { unfold discoverPrimaryServices_body.
      match goal with |- context [send ?msg] =>
        estep_with (send_closed msg h C) end.
      reflexivity. }
    assert (forall n, while (S n) discoverPrimaryServices_body (1, []) h
                      = Ret (1, []) h) as W
      by (intro n; rewrite while_S; estep_with B; reflexivity).
    estep_with (W (List.length (attPDURing h))). reflexivity.
  - intros decl value. unfold writeCharacteristicValueReq, write_request.
    estep_with (send_closed (AttWriteReq (handle decl) value) h C).
    reflexivity.
  - unfold disconnect. estep_with (validateState_closed h C).
    rewrite A. reflexivity.
Qed.

Lemma closed_engine_does_nothing_witness :
  readCharacteristicValue
    (mkDecl (uuid16_t 0x1800) 2 7 2 3 (uuid16_t 0x2A00) None) [1; 2] 0
    (disconnected_engine 23 [AttReadRsp [9]])
  = Ret (false, [1; 2]) (disconnected_engine 23 [AttReadRsp [9]]).
Proof.
  apply (proj1 (proj2 (closed_engine_does_nothing
                         (disconnected_engine 23 [AttReadRsp [9]]) eq_refl))).
Defined.

(** X10. [disconnect] on an open engine closes the channel and returns
    [true] with the engine in state [Disconnected], writing nothing and
    leaving the queue; a second [disconnect] returns [false] and changes
    nothing. *)
Theorem disconnect_idempotent (h : GATTHandler) :
  opened h = true ->
  exists h',
    disconnect h = Ret true h'
    /\ state h' = Disconnected /\ closed h' = true
    /\ trace h' = trace h /\ attPDURing h' = attPDURing h
    /\ disconnect h' = Ret false h'.
Proof.
  intro O. destruct (opened_inv h O) as (A & B & C).
  unfold disconnect at 1. estep_with (validateState_open h A B C).
  rewrite A. cbn [negb]. estep. estep.
  match goal with |- context [bind validateState _ ?hh] =>
    assert (closed hh = true) as Cl by reflexivity;
    estep_with (validateState_closed hh Cl)
  end.
  eexists. split; [reflexivity|].
  split; [reflexivity|]. split; [exact Cl|].
  split; [reflexivity|]. split; [reflexivity|].
  unfold disconnect. estep_with (validateState_closed _ Cl). reflexivity.
Qed.

Lemma disconnect_idempotent_witness :
  exists h',
    disconnect (connected_engine 23 [AttWriteRsp]) = Ret true h'
    /\ state h' = Disconnected /\ closed h' = true
    /\ trace h' = [] /\ attPDURing h' = [AttWriteRsp]
    /\ disconnect h' = Ret false h'.
Proof. apply (disconnect_idempotent (connected_engine 23 [AttWriteRsp]) eq_refl). Defined.

(** On an open engine [send] throws only for a PDU beyond [usedMTU]. *)
Lemma send_throw_opened (msg : AttPDUMsg) (h h1 : GATTHandler) (e : exn) :
  opened h = true -> send msg h = Throw e h1 ->
  e = IllegalArgumentException /\ usedMTU h < getSize msg.
Proof.
  intro O. destruct (opened_inv h O) as (A & B & C).
  unfold send. estep_with (validateState_open h A B C).
  rewrite A. cbn [negb]. estep.
  destruct (getSize msg >? usedMTU h) eqn:G.
  - rewrite Z.gtb_ltb in G. apply Z.ltb_lt in G.
    unfold throw. intro E. injection E as E1 E2. subst e.
    split; [reflexivity | exact G].
  - unfold bind, l2cap_write.
    destruct (l2_write_results (l2cap h)) as [|r rest];
      [destruct (0 >? getSize msg) | destruct (0 >? r)]; cbn; discriminate.
Qed.

(** Every way the MTU exchange ends on an open engine. *)
Lemma exchangeMTU_outcomes (ClientMaxMTU : Z) (h : GATTHandler) :
  opened h = true ->
  match exchangeMTU ClientMaxMTU ClientMaxMTU h with
  | Ret _ _ => True
  | Throw e _ => e = IllegalArgumentException /\ usedMTU h < 3
  | Blocked _ => attPDURing h = []
  | OutOfFuel => False
  end.
Proof.
  intro O.
  unfold exchangeMTU. rewrite Z.gtb_ltb, Z.ltb_irrefl.
  pose proof (send_effect (AttExchangeMTUReq ClientMaxMTU) h) as E.
  pose proof (send_throw_opened (AttExchangeMTUReq ClientMaxMTU) h) as T.
  unfold bind at 1.
  destruct (send (AttExchangeMTUReq ClientMaxMTU) h) as [b h1|e h1|h1|];
    [|exact (T h1 e O eq_refl)|contradiction|contradiction].
  destruct E as (_ & Q & _).
  destruct b; [|exact I].
  unfold bind, receiveNext. rewrite Q.
  destruct (attPDURing h) as [|pdu q]; [reflexivity|].
  destruct pdu; exact I.
Qed.

(** X11. Every way [connect] ends on a closed engine: [false] when the
    channel does not open; an IllegalArgumentException when [usedMTU]
    has no room for the MTU request; waiting when no response comes; and
    otherwise [true] with [usedMTU = min(ClientMaxMTU, serverMTU)],
    also when the write of the request failed. *)
Theorem connect_outcomes (ClientMaxMTU : Z) (h : GATTHandler) :
  closed h = true ->
  match connect ClientMaxMTU h with
  | Ret true h' =>
      is_open (l2_connect_result (l2cap h)) = true
      /\ usedMTU h' = Z.min ClientMaxMTU (serverMTU h')
      /\ usedMTU h' <= ClientMaxMTU
  | Ret false h' =>
      is_open (l2_connect_result (l2cap h)) = false
      /\ state h' = l2_connect_result (l2cap h) /\ trace h' = trace h
  | Throw e h' => e = IllegalArgumentException /\ usedMTU h < 3
  | Blocked h' => attPDURing h = []
  | OutOfFuel => False
  end.
Proof.
  intro C. unfold connect. estep_with (validateState_closed h C).
  destruct (closed_inv h C) as (A & _). rewrite A.
  estep. estep.
  match goal with |- context [bind validateState _ ?hh] => set (h2 := hh) end.
  destruct (is_open (l2_connect_result (l2cap h))) eqn:O.
  - assert (opened h2 = true) as O2
      by (unfold opened; subst h2; cbn; rewrite !O; reflexivity).
    destruct (opened_inv h2 O2) as (A2 & B2 & C2).
    estep_with (validateState_open h2 A2 B2 C2). rewrite A2. cbn [negb].
    pose proof (exchangeMTU_outcomes ClientMaxMTU h2 O2) as X.
    unfold bind at 1.
    destruct (exchangeMTU ClientMaxMTU ClientMaxMTU h2) as [m h3|e h3|h3|];
      [|exact X|exact X|exact X].
    destruct (0 <? m); repeat estep; cbn [ret usedMTU with_usedMTU];
      (split; [reflexivity|]; split; [reflexivity|]; apply Z.le_min_l).
  - assert (validateState h2 = Ret (state h2) h2) as V
      by (apply validateState_closed; unfold closed; subst h2; cbn;
          rewrite !O; reflexivity).
    estep_with V. subst h2. cbn [state with_state]. rewrite O. cbn.
    auto.
Qed.

Lemma connect_outcomes_witness :
  exists h',
    connect 517 (disconnected_engine 23 [AttExchangeMTURsp 185]) = Ret true h'
    /\ usedMTU h' = 185.
Proof.
  pose proof (connect_outcomes 517
                (disconnected_engine 23 [AttExchangeMTURsp 185]) eq_refl) as O.
  destruct (connect 517 (disconnected_engine 23 [AttExchangeMTURsp 185]))
    as [[|] h'| | |] eqn:E; try discriminate E.
  exists h'. split; [reflexivity|].
  vm_compute in E. inversion E. reflexivity.
Defined.

(** X12. On a ready engine [writeCharacteristicValueReq] writes exactly
    one ATT_WRITE_REQ with the handle and the value, takes exactly one
    PDU from the queue, and returns [true] exactly when that PDU is an
    ATT_WRITE_RSP. *)
Theorem writeCharacteristicValueReq_one_exchange
  (decl : GATTCharacterisicsDecl) (value : list Z) (h : GATTHandler)
  (x : AttPDUMsg) (q : list AttPDUMsg) :
  ready h = true -> 3 + len value <= usedMTU h -> attPDURing h = x :: q ->
  exists h',
    writeCharacteristicValueReq decl value h
    = Ret (match x with AttWriteRsp => true | _ => false end) h'
    /\ attPDURing h' = q
    /\ trace h' = trace h ++ [sent (AttWriteReq (handle decl) value)].
Proof.
  intros R S Q.
  destruct (send_ready (AttWriteReq (handle decl) value) h R)
    as (h1 & E & _ & _ & Q1 & T1); [cbn [getSize]; unfold len in *; lia|].
  rewrite Q in Q1.
  unfold writeCharacteristicValueReq, write_request.
  estep_with E. estep_with (receiveNext_cons h1 _ _ Q1).
  exists (with_ring q h1).
  split; [destruct x; reflexivity|]. split; [reflexivity | exact T1].
Qed.

Lemma writeCharacteristicValueReq_one_exchange_witness :
  exists h',
    writeCharacteristicValueReq
      (mkDecl (uuid16_t 0x1800) 2 7 8 3 (uuid16_t 0x2A00) None) [1; 2; 3]
      (connected_engine 23 [AttWriteRsp; AttErrorRsp 1])
    = Ret true h'
    /\ attPDURing h' = [AttErrorRsp 1]
    /\ trace h' = [] ++ [sent (AttWriteReq 3 [1; 2; 3])].
Proof.
  apply (writeCharacteristicValueReq_one_exchange
           (mkDecl (uuid16_t 0x1800) 2 7 8 3 (uuid16_t 0x2A00) None)
           [1; 2; 3] (connected_engine 23 [AttWriteRsp; AttErrorRsp 1])
           AttWriteRsp [AttErrorRsp 1]);
    [reflexivity | vm_compute; discriminate | reflexivity].
Defined.

(** X13. [configIndicationNotification] writes to the configuration's
    handle the two octets of [notify | indicate << 1], low octet first:
    01 00 for notifications only, 02 00 for indications only, 03 00 for
    both, 00 00 for none; it returns [true] exactly on an ATT_WRITE_RSP. *)
Theorem configIndicationNotification_value
  (cccd : GATTClientCharacteristicConfigDecl) (notify indicate : bool)
  (h : GATTHandler) (x : AttPDUMsg) (q : list AttPDUMsg) :
  ready h = true -> 5 <= usedMTU h -> attPDURing h = x :: q ->
  exists h',
    configIndicationNotification cccd notify indicate h
    = Ret (match x with AttWriteRsp => true | _ => false end) h'
    /\ attPDURing h' = q
    /\ trace h' = trace h
                  ++ [sent (AttWriteReq (cccd_handle cccd)
                              [b2z notify + 2 * b2z indicate; 0])].
Proof.
  intros R S Q.
  unfold configIndicationNotification, writeClientCharacteristicConfigReq.
  replace (put_uint16 (Z.lor (b2z notify) (Z.shiftl (b2z indicate) 1)))
    with [b2z notify + 2 * b2z indicate; 0]
    by (destruct notify, indicate; reflexivity).
  set (value := [b2z notify + 2 * b2z indicate; 0]).
  destruct (send_ready (AttWriteReq (cccd_handle cccd) value) h R)
    as (h1 & E & _ & _ & Q1 & T1); [cbn [getSize]; subst value; cbn; lia|].
  rewrite Q in Q1. unfold write_request.
  estep_with E. estep_with (receiveNext_cons h1 _ _ Q1).
  exists (with_ring q h1).
  split; [destruct x; reflexivity|]. split; [reflexivity | exact T1].
Qed.

Lemma configIndicationNotification_value_witness :
  exists h',
    configIndicationNotification (mkCCCD 4 0) true false
      (connected_engine 23 [AttWriteRsp])
    = Ret true h'
    /\ attPDURing h' = []
    /\ trace h' = [] ++ [sent (AttWriteReq 4 [1; 0])].
Proof.
  apply (configIndicationNotification_value (mkCCCD 4 0) true false
           (connected_engine 23 [AttWriteRsp]) AttWriteRsp []);
    [reflexivity | vm_compute; discriminate | reflexivity].
Defined.

(** X14. [findCharacterisics] returns a declaration of one of the
    services whose value handle is the handle asked for, the first in
    the order of the services and of their lists; it returns none
    exactly when no declaration has that handle. *)
Theorem findCharacterisics_correct (charHandle : Z)
  (svcs : list GATTPrimaryService) :
  match findCharacterisics charHandle svcs with
  | Some decl =>
      handle decl = charHandle
      /\ exists before s after l1 l2,
           svcs = before ++ s :: after
           /\ characteristicDeclList s = l1 ++ decl :: l2
           /\ Forall (fun d => handle d <> charHandle)
                (flat_map characteristicDeclList before ++ l1)
  | None =>
      Forall (fun d => handle d <> charHandle)
        (flat_map characteristicDeclList svcs)
  end.
Proof.
  induction svcs as [|s rest IH]; [constructor|].
  cbn [findCharacterisics flat_map]. unfold findCharacterisics_in.
  assert (forall l,
             match find (fun decl => charHandle =? handle decl) l with
             | Some decl =>
                 handle decl = charHandle
                 /\ exists l1 l2, l = l1 ++ decl :: l2
                                  /\ Forall (fun d => handle d <> charHandle) l1
             | None => Forall (fun d => handle d <> charHandle) l
             end) as F.
  { induction l as [|d l IHl]; [constructor|]. cbn [find].
    destruct (charHandle =? handle d) eqn:E.
    - apply Z.eqb_eq in E. split; [auto|]. exists [], l. split; auto.
    - apply Z.eqb_neq in E.
      destruct (find _ l) as [decl|].
      + destruct IHl as (H & l1 & l2 & El & Fl). split; [exact H|].
        exists (d :: l1), l2. subst l. split; [reflexivity|].
        constructor; auto.
      + constructor; auto. }
  specialize (F (characteristicDeclList s)).
  destruct (find _ (characteristicDeclList s)) as [decl|].
  - destruct F as (H & l1 & l2 & El & Fl). split; [exact H|].
    exists [], s, rest, l1, l2. cbn. auto.
  - destruct (findCharacterisics charHandle rest) as [decl|].
    + destruct IH as (H & before & s' & after & l1 & l2 & Es & El & Fl).
      split; [exact H|].
      exists (s :: before), s', after, l1, l2. subst rest.
      split; [reflexivity|]. split; [exact El|].
      cbn [flat_map]. rewrite <- app_assoc. apply Forall_app. auto.
    + apply Forall_app. auto.
Qed.

(** ** GATT engine: the reader *)

(** [send] leaves the services, the listeners and the confirmation flag. *)
Lemma send_keeps_listeners (msg : AttPDUMsg) (h h1 : GATTHandler) (b : bool) :
  send msg h = Ret b h1 ->
  services h1 = services h
  /\ gattNotificationListener h1 = gattNotificationListener h
  /\ gattIndicationListener h1 = gattIndicationListener h
  /\ sendIndicationConfirmation h1 = sendIndicationConfirmation h.
Proof.
  unfold send, bind, validateState, gets, l2cap_write, modify, ret, throw.
  repeat match goal with
         | |- context [if ?c then _ else _] => destruct c
         | |- context [match ?l with [] => _ | _ :: _ => _ end] => destruct l
         end; intro S; inversion S; auto.
Qed.

(** One PDU read on a ready engine. *)
Lemma l2capReader_onPDU_ready (pdu : AttPDUMsg) (h : GATTHandler) :
  ready h = true -> 1 <= usedMTU h ->
  exists h1,
    l2capReader_onPDU pdu h = Ret tt h1
    /\ ready h1 = true /\ usedMTU h1 = usedMTU h
    /\ (services h1 = services h
        /\ gattNotificationListener h1 = gattNotificationListener h
        /\ gattIndicationListener h1 = gattIndicationListener h
        /\ sendIndicationConfirmation h1 = sendIndicationConfirmation h)
    /\ attPDURing h1
       = attPDURing h ++ (if is_async pdu then [] else [pdu])
    /\ trace h1 = trace h ++ reader_events h pdu.
Proof.
  intros R U.
  assert (forall h0, ready h0 = true ->
                     ready (with_ring (attPDURing h0 ++ [pdu]) h0) = true)
    as Rq by (intros h0 R0; exact R0).
  assert (forall e h0, ready h0 = true ->
                       ready (with_trace (trace h0 ++ [e]) h0) = true)
    as Rt by (intros e h0 R0; exact R0).
  destruct pdu; unfold l2capReader_onPDU; cbn [is_async reader_events];
    try (eexists; (split; [reflexivity|]); cbn; rewrite ?app_nil_r;
         repeat split; auto; fail).
  - (* notification *)
    estep. destruct (gattNotificationListener h) eqn:L.
    + estep. unfold emit, modify. eexists. split; [reflexivity|].
      cbn. rewrite app_nil_r. repeat split; auto.
    + eexists. split; [reflexivity|]. rewrite !app_nil_r. repeat split; auto.
  - (* indication *)
    estep. destruct (sendIndicationConfirmation h) eqn:F.
    + destruct (send_ready AttHandleValueCfm h R) as (h1 & S & R1 & U1 & Q1 & T1);
        [cbn; lia|].
      destruct (send_keeps_listeners _ _ _ _ S) as (K1 & K2 & K3 & K4).
      estep_with S. estep. rewrite K3.
      destruct (gattIndicationListener h) eqn:L.
      * estep. unfold emit, modify. eexists. split; [reflexivity|].
        cbn. rewrite K1, T1, Q1, app_nil_r, <- app_assoc.
        repeat split; auto; congruence.
      * eexists. split; [reflexivity|]. rewrite T1, Q1, !app_nil_r.
        repeat split; auto; congruence.
    + estep. estep. destruct (gattIndicationListener h) eqn:L.
      * estep. unfold emit, modify. eexists. split; [reflexivity|].
        cbn. rewrite app_nil_r. repeat split; auto.
      * eexists. split; [reflexivity|]. rewrite !app_nil_r.
        repeat split; auto.
Qed.

(** X15. On a ready engine the reader thread puts the responses it
    reads on the inbound queue in arrival order; notifications and
    indications never enter the queue but go to the listeners, in
    arrival order too, an indication being confirmed first; timeouts
    and read errors change nothing. *)
Theorem l2capReaderThreadImpl_arrival_order (reads : list ReadResult) :
  forall h : GATTHandler,
    ready h = true -> 1 <= usedMTU h ->
    exists h',
      l2capReaderThreadImpl reads h = Ret tt h'
      /\ attPDURing h'
         = attPDURing h
           ++ filter (fun pdu => negb (is_async pdu)) (pdus_read reads)
      /\ trace h' = trace h ++ flat_map (reader_events h) (pdus_read reads).
Proof.
  induction reads as [|rd rest IH]; intros h R U.
  - exists h. cbn. rewrite !app_nil_r. auto.
  - destruct (ready_inv h R) as (A & B & C & _).
    cbn [l2capReaderThreadImpl].
    estep_with (validateState_open h A B C). rewrite A. cbn [negb].
    destruct rd as [pdu| |]; cbn [pdus_read flat_map app];
      try exact (IH h R U).
    destruct (l2capReader_onPDU_ready pdu h R U)
      as (h1 & E & R1 & U1 & (K1 & K2 & K3 & K4) & Q1 & T1).
    estep_with E.
    destruct (IH h1 R1 ltac:(lia)) as (h' & E' & Q' & T').
    exists h'. split; [exact E'|].
    assert (forall p, reader_events h1 p = reader_events h p) as Ev
      by (intro p; unfold reader_events; rewrite K1, K2, K3, K4; reflexivity).
    rewrite Q', T', Q1, T1, <- !app_assoc.
    rewrite (flat_map_ext _ _ Ev).
    fold (pdus_read rest). cbn [filter].
    destruct (is_async pdu); cbn [negb app]; auto.
Qed.

Lemma l2capReaderThreadImpl_arrival_order_witness :
  exists h',
    l2capReaderThreadImpl
      [ReadPDU (AttReadRsp [1]); ReadTimeout;
       ReadPDU (AttHandleValueInd 7 [2]); ReadPDU AttWriteRsp]
      (connected_engine 23 [])
    = Ret tt h'
    /\ attPDURing h' = [] ++ [AttReadRsp [1]; AttWriteRsp]
    /\ trace h'
       = [] ++ [sent AttHandleValueCfm;
                EvIndication None (AttHandleValueInd 7 [2]) true].
Proof.
  apply (l2capReaderThreadImpl_arrival_order
           [ReadPDU (AttReadRsp [1]); ReadTimeout;
            ReadPDU (AttHandleValueInd 7 [2]); ReadPDU AttWriteRsp]
           (connected_engine 23 []));
    [reflexivity | vm_compute; discriminate].
Defined.

(** ** GATT engine: characteristic discovery *)

Section Discovery_facts.

Variable get_uuid : list Z -> Z -> Z -> exn + uuid_t.

Lemma push_declarations_cases (srv : GATTUUIDHandleRange) (esz : Z)
  (els : list TypeElement) :
  forall (decls : list GATTCharacterisicsDecl) (h : GATTHandler),
    match push_declarations get_uuid srv esz els decls h with
    | Ret decls' h' =>
        h' = h
        /\ (Forall (fresh_declaration srv) decls ->
            Forall (fresh_declaration srv) decls')
    | Throw _ h' => h' = h
    | Blocked _ | OutOfFuel => False
    end.
Proof.
  induction els as [|e els IH]; intros decls h; cbn [push_declarations].
  - cbn. auto.
  - destruct (get_uuid (te_value e) 3 (esz - 2 - 1 - 2)) as [x|u];
      [reflexivity|].
    specialize (IH (decls ++ [mkDecl (range_uuid srv) (te_handle e)
                                (endHandle srv) (rd (te_value e) 0)
                                (get_uint16 (te_value e) 1) u None]) h).
    destruct (push_declarations _ _ _ _ _ h) as [decls' h'|x h'|h'|]; auto.
    destruct IH as [E F]. split; [exact E|].
    intro Fd. apply F. apply Forall_app. split; [exact Fd|].
    repeat constructor.
Qed.

(** One round of the characteristic discovery: it goes on only after
    taking from the queue, and keeps the declarations fresh. *)
Lemma discoverCharacteristics_body_cases (srv : GATTUUIDHandleRange)
  (st : Z * list GATTCharacterisicsDecl) (h : GATTHandler) :
  match discoverCharacteristics_body get_uuid srv st h with
  | Ret r h' =>
      match r with
      | inl st' =>
          (List.length (attPDURing h') < List.length (attPDURing h))%nat
          /\ (Forall (fresh_declaration srv) (snd st) ->
              Forall (fresh_declaration srv) (snd st'))
      | inr st' =>
          Forall (fresh_declaration srv) (snd st) ->
          Forall (fresh_declaration srv) (snd st')
      end
  | OutOfFuel => False
  | Throw _ _ | Blocked _ => True
  end.
Proof.
  destruct st as [hd decls]. unfold discoverCharacteristics_body.
  unfold bind at 1.
  match goal with |- context [send ?msg h] =>
    pose proof (send_effect msg h) as E; destruct (send msg h) as [b h1| | |]
  end; try exact I; try contradiction.
  destruct E as (_ & Q & _).
  destruct b; [|cbn; auto].
  unfold bind at 1, receiveNext.
  destruct (attPDURing h1) as [|pdu q] eqn:Q1; [exact I|].
  assert (List.length q < List.length (attPDURing h))%nat as Lt
    by (rewrite <- Q; cbn; lia).
  destruct pdu; cbn [ret snd]; auto.
  unfold bind at 1.
  pose proof (push_declarations_cases srv esz elements decls (with_ring q h1))
    as P.
  destruct (push_declarations _ _ _ _ _ _) as [decls' h2|x h2|h2|];
    try exact I; try contradiction.
  destruct P as [E2 F]. subst h2.
  unfold bind, last_element.
  destruct (rev elements) as [|e r]; [exact I|]. cbn [ret].
  destruct (te_handle e <? endHandle srv); cbn [ret snd attPDURing with_ring];
    auto.
Qed.

Lemma discoverCharacteristics_cases (service : GATTPrimaryService)
  (h : GATTHandler) :
  match discoverCharacteristics get_uuid service h with
  | Ret (b, service') h' =>
      declaration service' = declaration service
      /\ Forall (fresh_declaration (declaration service))
           (characteristicDeclList service')
      /\ b = negb (Nat.eqb (List.length (characteristicDeclList service')) 0)
  | OutOfFuel => False
  | Throw _ _ | Blocked _ => True
  end.
Proof.
  unfold discoverCharacteristics, bind, gets.
  pose proof (while_fuel
                (discoverCharacteristics_body get_uuid (declaration service)))
    as WF.
  pose proof (while_inv
                (fun st => Forall (fresh_declaration (declaration service))
                             (snd st))
                (discoverCharacteristics_body get_uuid (declaration service)))
    as WI.
  match goal with |- context [while ?f ?b ?s h] =>
    specialize (WF ltac:(intros s0 h0 E;
                         pose proof (discoverCharacteristics_body_cases
                                       (declaration service) s0 h0) as C;
                         rewrite E in C; exact C)
                  ltac:(intros s0 h0 s1 h1 E;
                        pose proof (discoverCharacteristics_body_cases
                                      (declaration service) s0 h0) as C;
                        rewrite E in C; exact (proj1 C))
                  f s h ltac:(lia));
    specialize (WI ltac:(intros s0 h0 r h1 P0 E;
                         pose proof (discoverCharacteristics_body_cases
                                       (declaration service) s0 h0) as C;
                         rewrite E in C;
                         destruct r; [exact (proj2 C P0) | exact (C P0)])
                  f s h);
    destruct (while f b s h) as [st1 h1| | |] eqn:W
  end; try exact I; [|apply WF; reflexivity].
  cbn [ret characteristicDeclList declaration].
  split; [reflexivity|]. split; [exact (WI st1 h1 (Forall_nil _) eq_refl)|].
  destruct (snd st1); reflexivity.
Qed.

(** X16. [discoverCharacteristics] drops the declarations the service
    had and builds new ones, each with the service's UUID, the service's
    end handle and no configuration; it returns [true] exactly when it
    built one, and never runs out of rounds. *)
Theorem discoverCharacteristics_fresh (service : GATTPrimaryService)
  (h : GATTHandler) :
  discoverCharacteristics get_uuid service h <> OutOfFuel
  /\ forall b service' h',
       discoverCharacteristics get_uuid service h = Ret (b, service') h' ->
       declaration service' = declaration service
       /\ Forall (fresh_declaration (declaration service))
            (characteristicDeclList service')
       /\ b = negb (Nat.eqb (List.length (characteristicDeclList service')) 0).
Proof.
  pose proof (discoverCharacteristics_cases service h) as C.
  split.
  - intro E. rewrite E in C. exact C.
  - intros b service' h' E. rewrite E in C. exact C.
Qed.

End Discovery_facts.

Lemma discoverCharacteristics_fresh_witness :
  let get_uuid := fun (v : list Z) (off size : Z) =>
                    if size =? 2 then inr (uuid16_t (get_le 2 v off))
                    else inl IllegalArgumentException in
  let service := mkService (mkRange 1 9 (uuid16_t 0x180F)) [] in
  let h := connected_engine 23
             [AttReadByTypeRsp 7 [mkTypeElement 2 [0x12; 3; 0; 0x19; 0x2A]];
              AttErrorRsp 0x0A] in
  discoverCharacteristics get_uuid service h
  = Ret (true,
         mkService (mkRange 1 9 (uuid16_t 0x180F))
           [mkDecl (uuid16_t 0x180F) 2 9 0x12 3 (uuid16_t 0x2A19) None])
      (with_trace
         [sent (AttReadByNTypeReq false 1 9 (uuid16_t 0x2803));
          sent (AttReadByNTypeReq false 3 9 (uuid16_t 0x2803))]
         (with_ring [] h))
  /\ Forall (fresh_declaration (mkRange 1 9 (uuid16_t 0x180F)))
       [mkDecl (uuid16_t 0x180F) 2 9 0x12 3 (uuid16_t 0x2A19) None].
Proof.
  intros get_uuid service h.
  split; [vm_compute; reflexivity|].
  refine (proj1 (proj2 (proj2 (discoverCharacteristics_fresh get_uuid service h)
            true
            (mkService (mkRange 1 9 (uuid16_t 0x180F))
               [mkDecl (uuid16_t 0x180F) 2 9 0x12 3 (uuid16_t 0x2A19) None])
            (with_trace
               [sent (AttReadByNTypeReq false 1 9 (uuid16_t 0x2803));
                sent (AttReadByNTypeReq false 3 9 (uuid16_t 0x2803))]
               (with_ring [] h)) _))).
  vm_compute. reflexivity.
Defined.

(** One round of the primary-service discovery goes on only after taking
    from the queue. *)
Lemma discoverPrimaryServices_body_cases (st : Z * list GATTPrimaryService)
  (h : GATTHandler) :
  match discoverPrimaryServices_body st h with
  | Ret (inl _) h' =>
      (List.length (attPDURing h') < List.length (attPDURing h))%nat
  | OutOfFuel => False
  | _ => True
  end.
Proof.
  destruct st as [start result]. unfold discoverPrimaryServices_body.
  unfold bind at 1.
  match goal with |- context [send ?msg h] =>
    pose proof (send_effect msg h) as E; destruct (send msg h) as [b h1| | |]
  end; try exact I; try contradiction.
  destruct E as (_ & Q & _).
  destruct b; [|exact I].
  unfold bind at 1, receiveNext.
  destruct (attPDURing h1) as [|pdu q] eqn:Q1; [exact I|].
  destruct pdu; cbn [ret]; try exact I.
  unfold bind, last_element.
  destruct (rev elements) as [|e r]; [exact I|]. cbn [ret].
  destruct (ge_end e <? 65535); [|exact I].
  cbn [attPDURing with_ring]. rewrite <- Q. cbn. lia.
Qed.

Lemma discoverPrimaryServices_fuel (h : GATTHandler) :
  discoverPrimaryServices h <> OutOfFuel.
Proof.
  unfold discoverPrimaryServices, bind, gets.
  pose proof (while_fuel discoverPrimaryServices_body) as WF.
  match goal with |- context [while ?f ?b ?s h] =>
    specialize (WF ltac:(intros s0 h0 E;
                         pose proof (discoverPrimaryServices_body_cases s0 h0)
                           as C;
                         rewrite E in C; exact C)
                  ltac:(intros s0 h0 s1 h1 E;
                        pose proof (discoverPrimaryServices_body_cases s0 h0)
                          as C;
                        rewrite E in C; exact C)
                  f s h ltac:(lia));
    destruct (while f b s h)
  end; try discriminate. exfalso. apply WF. reflexivity.
Qed.

(** The configuration discovery as a whole. *)
Lemma discoverClientCharacteristicConfig_cases (service : GATTPrimaryService)
  (h : GATTHandler) :
  match discoverClientCharacteristicConfig service h with
  | Ret (_, service') h' =>
      declaration service' = declaration service
      /\ map decl_ids (characteristicDeclList service')
         = map decl_ids (characteristicDeclList service)
      /\ (cccd_in_range (characteristicDeclList service) = true ->
          cccd_in_range (characteristicDeclList service') = true)
  | OutOfFuel => False
  | Throw _ _ | Blocked _ => True
  end.
Proof.
  unfold discoverClientCharacteristicConfig, bind, gets.
  pose proof (discoverClientCharacteristicConfig_fuel (declaration service)
                (S (List.length (attPDURing h)))
                (startHandle (declaration service),
                 characteristicDeclList service) h ltac:(lia)) as WF.
  destruct (while _ _ _ h) as [st1 h1| | |] eqn:W; try exact I;
    [|apply WF; reflexivity].
  cbn [ret characteristicDeclList declaration]. split; [reflexivity|].
  pose proof (while_inv
                (fun st => map decl_ids (snd st)
                           = map decl_ids (characteristicDeclList service))
                (discoverClientCharacteristicConfig_body (declaration service)))
    as WI.
  split.
  - refine (WI _ _ (startHandle (declaration service),
                   characteristicDeclList service) h st1 h1 eq_refl W).
    intros s0 h0 r h2 P0 B.
    pose proof (discoverClientCharacteristicConfig_body_cases
                  (declaration service) s0 h0) as C.
    rewrite B in C.
    destruct r as [s1|s1];
      [destruct C as (_ & esz & els & C)
      |destruct C as [C | (esz & els & C)]];
      rewrite C; try assumption;
      rewrite (proj1 (attach_elements_inv esz els (snd s0))); exact P0.
  - intro H.
    exact (proj1 (discoverClientCharacteristicConfig_loop_inv
                    (declaration service)
                    (map decl_ids (characteristicDeclList service)) _
                    (startHandle (declaration service),
                     characteristicDeclList service) st1 h h1 H eq_refl W)).
Qed.

Lemma fresh_consistent (srv : GATTUUIDHandleRange)
  (decls : list GATTCharacterisicsDecl) :
  Forall (fresh_declaration srv) decls ->
  service_consistent (mkService srv decls).
Proof.
  intro F. unfold service_consistent. cbn [characteristicDeclList declaration].
  split.
  - eapply Forall_impl; [|exact F]. intros c (A & B & _). auto.
  - induction F as [|c l (A & B & N) F IH]; [reflexivity|].
    cbn [cccd_in_range]. rewrite N, IH. reflexivity.
Qed.

Lemma decl_ids_consistent (srv : GATTUUIDHandleRange) :
  forall l l' : list GATTCharacterisicsDecl,
    map decl_ids l' = map decl_ids l ->
    Forall (fun c => service_uuid c = range_uuid srv
                     /\ service_handle_end c = endHandle srv) l ->
    Forall (fun c => service_uuid c = range_uuid srv
                     /\ service_handle_end c = endHandle srv) l'.
Proof.
  induction l as [|c l IH]; intros l' E F; destruct l' as [|c' l'];
    try discriminate E; [constructor|].
  inversion F; subst. cbn [map] in E. injection E as Ec El.
  constructor; [|apply IH; assumption].
  unfold decl_ids in Ec. inversion Ec. intuition congruence.
Qed.

Section Complete_facts.

Variable get_uuid : list Z -> Z -> Z -> exn + uuid_t.

(** One service of the complete discovery. *)
Lemma discover_each_cases :
  forall (todo done : list GATTPrimaryService) (h : GATTHandler),
    Forall service_consistent done -> services h = done ++ todo ->
    match discover_each get_uuid done todo h with
    | Ret _ h' =>
        Forall service_consistent (services h')
        /\ map declaration (services h') = map declaration (done ++ todo)
    | OutOfFuel => False
    | Throw _ _ | Blocked _ => True
    end.
Proof.
  induction todo as [|s rest IH]; intros done h D Sv; cbn [discover_each].
  - cbn [ret]. rewrite Sv, app_nil_r. auto.
  - unfold bind at 1.
    pose proof (discoverCharacteristics_cases get_uuid s h) as C1.
    destruct (discoverCharacteristics get_uuid s h) as [[b s1] h1| | |];
      try exact I; try contradiction.
    destruct C1 as (E1 & F1 & _).
    pose proof (fresh_consistent _ _ F1) as K1.
    assert (service_consistent s1) as K1'
      by (destruct s1; cbn in *; subst; exact K1).
    estep. cbn [fst snd].
    assert (forall (s' : GATTPrimaryService) (h2 : GATTHandler),
               service_consistent s' -> declaration s' = declaration s ->
               services h2 = (done ++ [s']) ++ rest ->
               match discover_each get_uuid (done ++ [s']) rest h2 with
               | Ret _ h' =>
                   Forall service_consistent (services h')
                   /\ map declaration (services h')
                      = map declaration (done ++ s :: rest)
               | OutOfFuel => False
               | Throw _ _ | Blocked _ => True
               end) as Next.
    { intros s' h2 Ks Ed Sv2.
      assert (Forall service_consistent (done ++ [s'])) as D'
        by (apply Forall_app; split;
            [exact D | constructor; [exact Ks | constructor]]).
      specialize (IH (done ++ [s']) h2 D' Sv2).
      destruct (discover_each get_uuid (done ++ [s']) rest h2); auto.
      destruct IH as [F M]. split; [exact F|]. rewrite M, <- app_assoc, !map_app. cbn [map app].
      rewrite Ed. reflexivity. }
    destruct b.
    + unfold bind at 1. unfold bind at 1.
      pose proof (discoverClientCharacteristicConfig_cases s1
                    (with_services (done ++ s1 :: rest) h1)) as C2.
      destruct (discoverClientCharacteristicConfig s1 _) as [[b2 s2] h2| | |];
        try exact I; try contradiction.
      destruct C2 as (E2 & I2 & R2).
      estep. cbn [ret snd].
      apply Next.
      * destruct K1' as [Ku Kc]. split; [|exact (R2 Kc)].
        rewrite E2. eapply decl_ids_consistent; [exact I2 | exact Ku].
      * congruence.
      * cbn. rewrite <- app_assoc. reflexivity.
    + estep. apply Next; [exact K1' | exact E1|].
      cbn. rewrite <- app_assoc. reflexivity.
Qed.

(** X17. After [discoverCompletePrimaryServices] the engine holds the
    services returned, and in each of them every characteristic carries
    the service's UUID and end handle and every configuration attached
    lies after its characteristic's value handle, at most at the next
    one's value handle or, for the last, at the service's end handle.
    The procedure never runs out of rounds. *)
Theorem discoverCompletePrimaryServices_consistent (h : GATTHandler) :
  match discoverCompletePrimaryServices get_uuid h with
  | Ret result h' =>
      services h' = result /\ Forall service_consistent result
  | OutOfFuel => False
  | Throw _ _ | Blocked _ => True
  end.
Proof.
  unfold discoverCompletePrimaryServices. unfold bind at 1.
  pose proof (discoverPrimaryServices_fuel h) as PF.
  destruct (discoverPrimaryServices h) as [[b result] h1| | |] eqn:P;
    try exact I; [|apply PF; reflexivity].
  estep. cbn [fst snd].
  destruct b; cbn [negb].
  - unfold bind at 1.
    pose proof (discover_each_cases result [] (with_services result h1)
                  (Forall_nil _) eq_refl) as C.
    destruct (discover_each get_uuid [] result _) as [u h2| | |];
      try exact I; try contradiction.
    destruct C as [F _]. cbn [gets]. auto.
  - (* no service discovered *)
    cbn [gets services with_services]. split; [reflexivity|].
    revert P. unfold discoverPrimaryServices, bind, gets.
    destruct (while _ _ _ h) as [st1 h2| | |]; try discriminate.
    cbn [ret]. intro E. injection E as Eb Er Eh. subst result.
    destruct (snd st1); [constructor | discriminate Eb].
Qed.

End Complete_facts.

End Engine_facts.

(** ** Batches of advertising reports *)

Section ADReports_facts.
Import EIR ADReports.

Variables (now : Z) (blank : Report) (data : list Z) (limes : Z).

(** A loop over the reports that keeps [P], indexed by the round. *)
Lemma for_reports_ind (P : nat -> locals -> Prop) (N : nat)
  (cond : locals -> nat -> bool) (body : locals -> nat -> option locals) :
  (forall s i, (i < N)%nat -> P i s -> cond s i = true ->
               exists s', body s i = Some s' /\ P (S i) s') ->
  forall n i s,
    (i + n = N)%nat -> P i s ->
    exists s' k,
      for_reports n i cond body s = Some s'
      /\ (i <= k <= N)%nat /\ P k s' /\ (k = N \/ cond s' k = false).
Proof.
  intro Step. induction n as [|n IH]; intros i s E Ps; cbn [for_reports].
  - exists s, i. repeat split; auto; lia.
  - destruct (cond s i) eqn:C.
    + destruct (Step s i ltac:(lia) Ps C) as (s1 & B & P1). rewrite B.
      destruct (IH (S i) s1 ltac:(lia) P1) as (s' & k & F & K & Pk & D).
      exists s', k. repeat split; auto; lia.
    + exists s, i. repeat split; auto; lia.
Qed.


(** One report updated in place. *)
Lemma at_report_some (i : nat) (f : Report -> option Report)
  (l : list Report) (r r' : Report) :
  nth_error l i = Some r -> f r = Some r' ->
  exists l', at_report i f l = Some l'
             /\ List.length l' = List.length l
             /\ nth_error l' i = Some r'
             /\ (forall j, j <> i -> nth_error l' j = nth_error l j).
Proof.
  intros N F. unfold at_report. rewrite N, F. eexists. split; [reflexivity|].
  assert (i < List.length l)%nat as Lt
    by (apply nth_error_Some; congruence).
  assert (List.length (firstn i l) = i) as Lf
    by (rewrite length_firstn; lia).
  split; [|split].
  - rewrite length_app. cbn [List.length]. rewrite Lf, length_skipn. lia.
  - rewrite nth_error_app2 by lia. rewrite Lf, Nat.sub_diag. reflexivity.
  - intros j Ne. destruct (Nat.lt_ge_cases j i) as [Lj|Lj].
    + rewrite nth_error_app1 by lia. rewrite nth_error_firstn.
      replace (j <? i)%nat with true by (symmetry; apply Nat.ltb_lt; lia).
      reflexivity.
    + rewrite nth_error_app2 by lia. rewrite Lf.
      destruct (j - i)%nat as [|d] eqn:D; [lia|]. cbn [nth_error].
      rewrite nth_error_skipn. f_equal. lia.
Qed.

Lemma at_report_forall (P : Report -> Prop) (i : nat)
  (f : Report -> option Report) (l l' : list Report) :
  (forall r r', P r -> f r = Some r' -> P r') ->
  Forall P l -> at_report i f l = Some l' -> Forall P l'.
Proof.
  intros Pf F. unfold at_report.
  destruct (nth_error l i) as [r|] eqn:N; [|discriminate].
  destruct (f r) as [r'|] eqn:E; [|discriminate].
  intro H. inversion H; subst.
  rewrite <- (firstn_skipn_middle i l N) in F.
  apply Forall_app in F. destruct F as [F1 F2]. inversion F2; subst.
  apply Forall_app. split; [exact F1|].
  constructor; [apply (Pf r r'); assumption | assumption].
Qed.

(** [read_data] on a report of the batch returns. *)
Lemma read_data_at_total (off len : Z) (r : Report) :
  exists r', read_data_at data off len r = Some r'
             /\ source r' = source r /\ timestamp r' = timestamp r.
Proof.
  unfold read_data_at, read_data.
  assert (0 <= u8 len < 256) as U
    by (unfold u8; apply Z.mod_pos_bound; lia).
  destruct (read_data_loop_total (skipn (Z.to_nat off) data) (u8 len)
              (S (Z.to_nat (u8 len))) (mkElem 0 0 0) 0 0 (decoded r))
    as (d & c & E & _); [lia | lia |].
  rewrite E. eexists. split; [reflexivity|]. split; reflexivity.
Qed.


(** A column that updates report [i] keeps the invariant. *)
Lemma update_reports_inv (N k : nat) (s : locals) (i : nat) (advance : Z)
  (f : Report -> option Report) :
  (i < N)%nat -> columns_inv now limes N k s -> i_octets s < limes ->
  0 <= advance ->
  (forall r, exists r', f r = Some r' /\ source r' = source r
                        /\ timestamp r' = timestamp r) ->
  exists s', update_reports s i advance f = Some s'
             /\ columns_inv now limes N k s'.
Proof.
  intros Lt (Len & Tg & Ex) Room Adv Ft.
  assert (k = N) as KN by (destruct Ex; [assumption | lia]).
  destruct (nth_error (ad_reports s) i) as [r|] eqn:Nth;
    [|apply nth_error_None in Nth; lia].
  destruct (Ft r) as (r' & Fr & _).
  destruct (at_report_some i f _ r r' Nth Fr) as (l' & A & Ll & _).
  unfold update_reports. rewrite A. eexists. split; [reflexivity|].
  unfold columns_inv. cbn [ad_reports i_octets].
  split; [congruence|]. split; [|left; exact KN].
  apply (at_report_forall (tagged now) i f (ad_reports s) l'); auto.
  intros x x' [Sx Tx] Fx. destruct (Ft x) as (y & Fy & Sy & Ty).
  rewrite Fx in Fy. inversion Fy; subst. unfold tagged. split; congruence.
Qed.

Ltac total_setter := intro r; eexists; split; [reflexivity|]; split; reflexivity.

(** The first loop makes one tagged report per octet left, up to the
    number of reports. *)
Lemma evt_type_column_loop (garbage : nat -> Z) (N : nat) :
  exists s k,
    for_reports N 0 (fun s _ => room limes 0 s)
      (evt_type_column now blank data) (mkLocals 1 [] garbage 0) = Some s
    /\ (k <= N)%nat
    /\ List.length (ad_reports s) = k /\ i_octets s = 1 + Z.of_nat k
    /\ Forall (tagged now) (ad_reports s)
    /\ (k = 0%nat \/ Z.of_nat k < limes)
    /\ (k = N \/ limes <= i_octets s).
Proof.
  destruct (for_reports_ind
              (fun i s => List.length (ad_reports s) = i
                          /\ i_octets s = 1 + Z.of_nat i
                          /\ Forall (tagged now) (ad_reports s)
                          /\ (i = 0%nat \/ Z.of_nat i < limes))
              N (fun s _ => room limes 0 s) (evt_type_column now blank data))
    with (n := N) (i := 0%nat) (s := mkLocals 1 [] garbage 0)
    as (s & k & F & K & (Len & Oct & Tg & Rm) & D); [|lia|cbn; auto|].
  - intros s i Lt (Len & Oct & Tg & _) C.
    assert (Z.of_nat (S i) < limes) as Rm
      by (unfold room in C; apply Z.ltb_lt in C; lia).
    unfold evt_type_column.
    assert (nth_error (ad_reports s ++ [blank]) i = Some blank) as Nth
      by (rewrite nth_error_app2 by lia; rewrite Len, Nat.sub_diag;
          reflexivity).
    destruct (at_report_some i
                (fun r => Some (setEvtType (rd data (i_octets s))
                                  (setTimestamp now (setSource Source_AD r))))
                _ blank _ Nth eq_refl) as (l' & A & Ll & Ni & Nj).
    unfold update_reports. cbn [ad_reports i_octets ad_data_len read_segments].
    rewrite A. eexists. split; [reflexivity|].
    cbn [ad_reports i_octets]. rewrite length_app in Ll. cbn in Ll.
    split; [lia|]. split; [lia|]. split; [|right; exact Rm].
    apply Forall_forall. intros x Ix.
    destruct (In_nth_error _ _ Ix) as (j & Hj).
    destruct (Nat.eq_dec j i) as [->|Ne].
    + rewrite Ni in Hj. inversion Hj. split; reflexivity.
    + rewrite (Nj j Ne) in Hj.
      assert (j < List.length (ad_reports s ++ [blank]))%nat as Lj
        by (apply nth_error_Some; congruence).
      rewrite length_app in Lj. cbn in Lj.
      rewrite nth_error_app1 in Hj by lia.
      rewrite Forall_forall in Tg. apply Tg. eapply nth_error_In. exact Hj.
  - exists s, k. repeat split; try assumption; try lia.
    destruct D as [D|D]; [left; exact D|right].
    unfold room in D. apply Z.ltb_ge in D. lia.
Qed.

(** The reports after the six loops. *)
Lemma read_columns_total (garbage : nat -> Z) (N : nat) :
  exists s k,
    read_columns now blank garbage data limes N = Some s
    /\ List.length (ad_reports s) = k
    /\ Forall (tagged now) (ad_reports s)
    /\ (k <= N)%nat
    /\ (k = 0%nat \/ Z.of_nat k < limes)
    /\ (k = N \/ limes <= 1 + Z.of_nat k).
Proof.
  destruct (evt_type_column_loop garbage N)
    as (s1 & k & F1 & K & Len & Oct & Tg & Rm & D).
  assert (columns_inv now limes N k s1) as I1
    by (unfold columns_inv; auto).
  assert (forall cond body s,
             (forall s i, cond s i = true -> i_octets s < limes) ->
             (forall s i, (i < N)%nat -> columns_inv now limes N k s ->
                          cond s i = true ->
                          exists s', body s i = Some s'
                                     /\ columns_inv now limes N k s') ->
             columns_inv now limes N k s ->
             exists s', for_reports N 0 cond body s = Some s'
                        /\ columns_inv now limes N k s') as Loop.
  { intros cond body s _ Step I0.
    destruct (for_reports_ind (fun _ s => columns_inv now limes N k s) N
                cond body Step N 0%nat s eq_refl I0)
      as (s' & k' & F & _ & I' & _).
    eauto. }
  assert (forall c s, 0 <= c -> room limes c s = true -> i_octets s < limes)
    as Room by (intros c s C R; unfold room in R; apply Z.ltb_lt in R; lia).
  assert (forall x, 0 <= u8 x) as U8
    by (intro x; unfold u8; apply Z.mod_pos_bound; lia).
  destruct (Loop (fun s _ => room limes 0 s) (address_type_column data) s1)
    as (s2 & F2 & I2); [intros s i C; apply (Room 0 s); [lia | exact C] | | exact I1 |].
  { intros s i Lt I C. unfold address_type_column.
    apply update_reports_inv;
      [exact Lt | exact I | apply (Room 0 s); [lia | exact C] | lia
       | total_setter]. }
  destruct (Loop (fun s _ => room limes 5 s) (address_column data) s2)
    as (s3 & F3 & I3); [intros s i C; apply (Room 5 s); [lia | exact C]
                       | | exact I2 |].
  { intros s i Lt I C. unfold address_column.
    apply update_reports_inv;
      [exact Lt | exact I | apply (Room 5 s); [lia | exact C] | lia
       | total_setter]. }
  destruct (Loop (fun s _ => room limes 0 s) (ad_data_len_column data) s3)
    as (s4 & F4 & I4); [intros s i C; apply (Room 0 s); [lia | exact C] | | exact I3 |].
  { intros s i Lt (L & T & E) C. unfold ad_data_len_column.
    eexists. split; [reflexivity|]. unfold columns_inv.
    cbn [ad_reports i_octets]. repeat split; auto.
    destruct E; [left; assumption | right; lia]. }
  destruct (Loop (fun s i => room limes (u8 (ad_data_len s i)) s)
              (ad_data_column data) s4)
    as (s5 & F5 & I5); [intros s i C; apply (Room _ s (U8 _) C) | | exact I4 |].
  { intros s i Lt I C. unfold ad_data_column.
    apply update_reports_inv;
      [exact Lt | exact I | apply (Room _ s (U8 _) C) | apply U8 |].
    intro r. apply read_data_at_total. }
  destruct (Loop (fun s _ => room limes 0 s) (rssi_column data) s5)
    as (s6 & F6 & (L6 & T6 & E6)); [intros s i C; apply (Room 0 s); [lia | exact C] | | exact I5 |].
  { intros s i Lt I C. unfold rssi_column.
    apply update_reports_inv;
      [exact Lt | exact I | apply (Room 0 s); [lia | exact C] | lia
       | total_setter]. }
  exists s6, k. unfold read_columns. rewrite F1, F2, F3, F4, F5, F6.
  repeat split; auto.
  destruct D as [D|D]; [left; exact D | right; lia].
Qed.


(** A column that updates every report, when there is room for it. *)
Lemma update_column (N : nat) (cond : locals -> nat -> bool)
  (body : locals -> nat -> option locals) (off adv : nat -> Z)
  (f : nat -> Report -> option Report) (lens : nat -> Z)
  (old new : nat -> option Report) (s0 : locals) :
  (forall i, (i < N)%nat -> off (S i) = off i + adv i) ->
  (forall s i, (i < N)%nat -> i_octets s = off i ->
     (forall j, ad_data_len s j = lens j) ->
     cond s i = true /\ body s i = update_reports s i (adv i) (f i)) ->
  (forall i, (i < N)%nat ->
     exists r r', old i = Some r /\ f i r = Some r' /\ new i = Some r') ->
  i_octets s0 = off 0%nat -> (forall j, ad_data_len s0 j = lens j) ->
  List.length (ad_reports s0) = N ->
  (forall j, (j < N)%nat -> nth_error (ad_reports s0) j = old j) ->
  exists s,
    for_reports N 0 cond body s0 = Some s
    /\ i_octets s = off N /\ (forall j, ad_data_len s j = lens j)
    /\ read_segments s = read_segments s0 + Z.of_nat N
    /\ List.length (ad_reports s) = N
    /\ (forall j, (j < N)%nat -> nth_error (ad_reports s) j = new j).
Proof.
  intros Off Body Upd O0 L0 Len0 Old0.
  destruct (for_reports_ind
    (fun i s => i_octets s = off i /\ (forall j, ad_data_len s j = lens j)
        /\ read_segments s = read_segments s0 + Z.of_nat i
        /\ List.length (ad_reports s) = N
        /\ (forall j, (j < N)%nat ->
              nth_error (ad_reports s) j
              = if (j <? i)%nat then new j else old j))
    N cond body) with (n := N) (i := 0%nat) (s := s0)
    as (s & k & F & K & (Ok & Lk & Sk & Lenk & Nk) & D).
  - intros s i Lt (Oi & Li & Si & Leni & Ni) C.
    destruct (Body s i Lt Oi Li) as [_ B]. rewrite B.
    destruct (Upd i Lt) as (r & r' & Or & Fr & Nr).
    assert (nth_error (ad_reports s) i = Some r) as Nth
      by (rewrite (Ni i Lt), Nat.ltb_irrefl; exact Or).
    destruct (at_report_some i (f i) _ r r' Nth Fr)
      as (l' & A & Ll & Ni' & Nj).
    unfold update_reports. rewrite A. eexists. split; [reflexivity|].
    cbn [i_octets ad_reports ad_data_len read_segments].
    split; [rewrite (Off i Lt); lia|]. split; [exact Li|].
    split; [lia|]. split; [lia|].
    intros j Lj. destruct (Nat.eq_dec j i) as [->|Ne].
    + rewrite Ni'.
      replace (i <? S i)%nat with true by (symmetry; apply Nat.ltb_lt; lia).
      symmetry; exact Nr.
    + rewrite (Nj j Ne), (Ni j Lj).
      destruct (j <? i)%nat eqn:E1; destruct (j <? S i)%nat eqn:E2;
        try reflexivity;
        [apply Nat.ltb_lt in E1; apply Nat.ltb_ge in E2; lia
        |apply Nat.ltb_ge in E1; apply Nat.ltb_lt in E2; lia].
  - lia.
  - split; [exact O0|]. split; [exact L0|]. split; [lia|].
    split; [exact Len0|]. intros j Lj. rewrite (Old0 j Lj). reflexivity.
  - assert (k = N) as KN.
    { destruct D as [D|D]; [exact D|].
      destruct (Nat.eq_dec k N) as [|Ne]; [assumption|].
      destruct (Body s k ltac:(lia) Ok Lk) as [C _]. congruence. }
    subst k. exists s. split; [exact F|]. split; [exact Ok|].
    split; [exact Lk|]. split; [exact Sk|]. split; [exact Lenk|].
    intros j Lj. rewrite (Nk j Lj).
    replace (j <? N)%nat with true by (symmetry; apply Nat.ltb_lt; lia).
    reflexivity.
Qed.

(** The first column, when there is room for it. *)
Lemma evt_type_column_complete (garbage : nat -> Z) (N : nat) :
  1 + Z.of_nat N <= limes ->
  exists s,
    for_reports N 0 (fun s _ => room limes 0 s)
      (evt_type_column now blank data) (mkLocals 1 [] garbage 0) = Some s
    /\ i_octets s = 1 + Z.of_nat N
    /\ (forall j, ad_data_len s j = garbage j)
    /\ read_segments s = Z.of_nat N
    /\ List.length (ad_reports s) = N
    /\ (forall j, (j < N)%nat ->
          nth_error (ad_reports s) j
          = Some (setEvtType (rd data (1 + Z.of_nat j))
                    (setTimestamp now (setSource Source_AD blank)))).
Proof.
  intro Room.
  destruct (for_reports_ind
    (fun i s => i_octets s = 1 + Z.of_nat i
        /\ (forall j, ad_data_len s j = garbage j)
        /\ read_segments s = Z.of_nat i
        /\ List.length (ad_reports s) = i
        /\ (forall j, (j < i)%nat ->
              nth_error (ad_reports s) j
              = Some (setEvtType (rd data (1 + Z.of_nat j))
                        (setTimestamp now (setSource Source_AD blank)))))
    N (fun s _ => room limes 0 s) (evt_type_column now blank data))
    with (n := N) (i := 0%nat) (s := mkLocals 1 [] garbage 0)
    as (s & k & F & K & (Ok & Lk & Sk & Lenk & Nk) & D).
  - intros s i Lt (Oi & Li & Si & Leni & Ni) C.
    unfold evt_type_column.
    assert (nth_error (ad_reports s ++ [blank]) i = Some blank) as Nth
      by (rewrite nth_error_app2 by lia; rewrite Leni, Nat.sub_diag;
          reflexivity).
    destruct (at_report_some i
                (fun r => Some (setEvtType (rd data (i_octets s))
                                  (setTimestamp now (setSource Source_AD r))))
                _ blank _ Nth eq_refl) as (l' & A & Ll & Ni' & Nj).
    unfold update_reports. cbn [ad_reports i_octets ad_data_len read_segments].
    rewrite A. eexists. split; [reflexivity|].
    cbn [ad_reports i_octets ad_data_len read_segments].
    rewrite length_app in Ll. cbn in Ll.
    split; [lia|]. split; [exact Li|]. split; [lia|]. split; [lia|].
    intros j Lj. destruct (Nat.eq_dec j i) as [->|Ne].
    + rewrite Ni', Oi. reflexivity.
    + rewrite (Nj j Ne). rewrite nth_error_app1 by lia. apply Ni. lia.
  - lia.
  - cbn. repeat split; auto. intros j Lj. lia.
  - assert (k = N) as KN.
    { destruct D as [D|D]; [exact D|].
      unfold room in D. apply Z.ltb_ge in D. lia. }
    exists s. split; [exact F|]. split; [lia|]. split; [exact Lk|].
    split; [lia|]. split; [lia|]. intros j Lj. apply Nk. lia.
Qed.

(** The column of lengths, when there is room for it. *)
Lemma ad_data_len_column_complete (N : nat) (s0 : locals) :
  i_octets s0 + Z.of_nat N <= limes ->
  exists s,
    for_reports N 0 (fun s _ => room limes 0 s) (ad_data_len_column data) s0
    = Some s
    /\ i_octets s = i_octets s0 + Z.of_nat N
    /\ (forall j, (j < N)%nat ->
          ad_data_len s j = rd data (i_octets s0 + Z.of_nat j))
    /\ read_segments s = read_segments s0 + Z.of_nat N
    /\ ad_reports s = ad_reports s0.
Proof.
  intro Room.
  destruct (for_reports_ind
    (fun i s => i_octets s = i_octets s0 + Z.of_nat i
        /\ (forall j, (j < i)%nat ->
              ad_data_len s j = rd data (i_octets s0 + Z.of_nat j))
        /\ read_segments s = read_segments s0 + Z.of_nat i
        /\ ad_reports s = ad_reports s0)
    N (fun s _ => room limes 0 s) (ad_data_len_column data))
    with (n := N) (i := 0%nat) (s := s0)
    as (s & k & F & K & (Ok & Lk & Sk & Rk) & D).
  - intros s i Lt (Oi & Li & Si & Ri) C.
    unfold ad_data_len_column. eexists. split; [reflexivity|].
    cbn [ad_reports i_octets ad_data_len read_segments].
    split; [lia|]. split; [|split; [lia | exact Ri]].
    intros j Lj. destruct (Nat.eqb j i) eqn:E.
    + apply Nat.eqb_eq in E. subst j. rewrite Oi. reflexivity.
    + apply Nat.eqb_neq in E. apply Li. lia.
  - lia.
  - split; [lia|]. split; [intros j Lj; lia|]. split; [lia | reflexivity].
  - assert (k = N) as KN.
    { destruct D as [D|D]; [exact D|].
      unfold room in D. apply Z.ltb_ge in D. lia. }
    subst k. exists s. split; [exact F|]. split; [exact Ok|].
    split; [exact Lk|]. split; [exact Sk | exact Rk].
Qed.

Lemma data_offset_S (n : Z) (i : nat) :
  data_offset data n (S i)
  = data_offset data n i + rd data (1 + 8 * n + Z.of_nat i).
Proof. reflexivity. Qed.

Lemma data_offset_mono (n : Z) (i j : nat) :
  (i <= j)%nat -> data_offset data n i <= data_offset data n j.
Proof.
  induction 1 as [|j L IH]; [lia|]. rewrite data_offset_S.
  pose proof (rd_range data (1 + 8 * n + Z.of_nat j)). lia.
Qed.

(** The state after the six loops on a batch with room for every
    column. *)
Lemma read_columns_complete (garbage : nat -> Z) (N : nat) :
  (0 < N)%nat ->
  data_offset data (Z.of_nat N) N + Z.of_nat N <= limes ->
  exists s,
    read_columns now blank garbage data limes N = Some s
    /\ read_segments s = 6 * Z.of_nat N
    /\ List.length (ad_reports s) = N
    /\ (forall i, (i < N)%nat ->
          nth_error (ad_reports s) i
          = column_report now blank data (Z.of_nat N) (Z.of_nat i)
              (data_offset data (Z.of_nat N) i)
              (data_offset data (Z.of_nat N) N)).
Proof.
  intros Pos Fit. set (n := Z.of_nat N) in *.
  assert (1 + 9 * n <= data_offset data n N) as Base
    by (apply (data_offset_mono n 0 N); lia).
  destruct (evt_type_column_complete garbage N)
    as (s1 & F1 & O1 & L1 & S1 & Len1 & N1); [lia|].
  destruct (update_column N (fun s _ => room limes 0 s)
              (address_type_column data)
              (fun i => 1 + n + Z.of_nat i) (fun _ => 1)
              (fun i r => Some (setAddressType (rd data (1 + n + Z.of_nat i)) r))
              garbage
              (fun j => Some (setEvtType (rd data (1 + Z.of_nat j))
                                (setTimestamp now (setSource Source_AD blank))))
              (fun j => Some (setAddressType (rd data (1 + n + Z.of_nat j))
                                (setEvtType (rd data (1 + Z.of_nat j))
                                   (setTimestamp now
                                      (setSource Source_AD blank)))))
              s1)
    as (s2 & F2 & O2 & L2 & S2 & Len2 & N2); auto.
  { intros; lia. }
  { intros s i Lt Oi _. split.
    - unfold room. apply Z.ltb_lt. lia.
    - unfold address_type_column. rewrite Oi. reflexivity. }
  { intros i Lt. eexists _, _. repeat split. }
  { unfold n. lia. }
  destruct (update_column N (fun s _ => room limes 5 s)
              (address_column data)
              (fun i => 1 + 2 * n + 6 * Z.of_nat i) (fun _ => 6)
              (fun i r => Some (setAddress
                                  (address_at data (1 + 2 * n + 6 * Z.of_nat i))
                                  r))
              garbage
              (fun j => Some (setAddressType (rd data (1 + n + Z.of_nat j))
                                (setEvtType (rd data (1 + Z.of_nat j))
                                   (setTimestamp now
                                      (setSource Source_AD blank)))))
              (fun j => Some (setAddress
                                (address_at data (1 + 2 * n + 6 * Z.of_nat j))
                                (setAddressType (rd data (1 + n + Z.of_nat j))
                                   (setEvtType (rd data (1 + Z.of_nat j))
                                      (setTimestamp now
                                         (setSource Source_AD blank))))))
              s2)
    as (s3 & F3 & O3 & L3 & S3 & Len3 & N3); auto.
  { intros; lia. }
  { intros s i Lt Oi _. split.
    - unfold room. apply Z.ltb_lt. lia.
    - unfold address_column. rewrite Oi. reflexivity. }
  { intros i Lt. eexists _, _. repeat split. }
  { rewrite O2. unfold n. lia. }
  destruct (ad_data_len_column_complete N s3)
    as (s4 & F4 & O4 & L4 & S4 & R4); [rewrite O3; lia|].
  assert (forall j, (j < N)%nat ->
            u8 (ad_data_len s4 j) = rd data (1 + 8 * n + Z.of_nat j)) as U4.
  { intros j Lj. rewrite (L4 j Lj), O3.
    replace (1 + 2 * n + 6 * Z.of_nat N + Z.of_nat j)
      with (1 + 8 * n + Z.of_nat j) by (unfold n; lia).
    unfold u8. apply Z.mod_small. apply rd_range. }
  set (r3 := fun j =>
               setAddress (address_at data (1 + 2 * n + 6 * Z.of_nat j))
                 (setAddressType (rd data (1 + n + Z.of_nat j))
                    (setEvtType (rd data (1 + Z.of_nat j))
                       (setTimestamp now (setSource Source_AD blank))))) in *.
  destruct (update_column N
              (fun s i => room limes (u8 (ad_data_len s i)) s)
              (ad_data_column data)
              (data_offset data n)
              (fun i => rd data (1 + 8 * n + Z.of_nat i))
              (fun i => read_data_at data (data_offset data n i)
                          (rd data (1 + 8 * n + Z.of_nat i)))
              (ad_data_len s4)
              (fun j => Some (r3 j))
              (fun j => read_data_at data (data_offset data n j)
                          (rd data (1 + 8 * n + Z.of_nat j)) (r3 j))
              s4)
    as (s5 & F5 & O5 & L5 & S5 & Len5 & N5); auto.
  { intros s i Lt Oi Li. rewrite Li, (U4 i Lt). split.
    - unfold room. apply Z.ltb_lt. rewrite Oi, <- data_offset_S.
      pose proof (data_offset_mono n (S i) N ltac:(lia)). unfold n in *. lia.
    - unfold ad_data_column. rewrite Oi, Li, (U4 i Lt). reflexivity. }
  { intros i Lt.
    destruct (read_data_at_total (data_offset data n i)
                (rd data (1 + 8 * n + Z.of_nat i)) (r3 i)) as (r' & E & _).
    exists (r3 i), r'. repeat split; auto. }
  { rewrite O4, O3. cbn [data_offset]. unfold n. lia. }
  { rewrite R4. exact Len3. }
  { intros j Lj. rewrite R4. apply N3. exact Lj. }
  destruct (update_column N (fun s _ => room limes 0 s) (rssi_column data)
              (fun i => data_offset data n N + Z.of_nat i) (fun _ => 1)
              (fun i r => Some (setRSSI
                                  (int8 (rd data (data_offset data n N
                                                  + Z.of_nat i))) r))
              (ad_data_len s4)
              (fun j => read_data_at data (data_offset data n j)
                          (rd data (1 + 8 * n + Z.of_nat j)) (r3 j))
              (fun j => column_report now blank data n (Z.of_nat j)
                          (data_offset data n j) (data_offset data n N))
              s5)
    as (s6 & F6 & O6 & L6 & S6 & Len6 & N6); auto.
  { intros; lia. }
  { intros s i Lt Oi _. split.
    - unfold room. apply Z.ltb_lt. unfold n in *. lia.
    - unfold rssi_column. rewrite Oi. reflexivity. }
  { intros i Lt.
    destruct (read_data_at_total (data_offset data n i)
                (rd data (1 + 8 * n + Z.of_nat i)) (r3 i)) as (r' & E & _).
    eexists r', _. split; [exact E|]. split; [reflexivity|].
    unfold column_report. fold (r3 i). rewrite E. reflexivity. }
  { rewrite O5. lia. }
  exists s6. unfold read_columns. rewrite F1, F2, F3, F4, F5, F6.
  split; [reflexivity|]. split; [|split; [exact Len6 | exact N6]].
  rewrite S6, S5, S4, S3, S2, S1. unfold n. lia.
Qed.


(** Loops that read [ad_data_len] below [m] only run alike on states
    that agree below [m]. *)
Lemma for_reports_same (m : nat) (cond : locals -> nat -> bool)
  (body : locals -> nat -> option locals) (N : nat) :
  (forall s s' i, (i < N)%nat -> same_upto m s s' -> cond s i = cond s' i) ->
  (forall s s' i, (i < N)%nat -> same_upto m s s' ->
     same_outcome m (body s i) (body s' i)) ->
  forall n i s s',
    (i + n = N)%nat -> same_upto m s s' ->
    same_outcome m (for_reports n i cond body s)
      (for_reports n i cond body s').
Proof.
  intros Hc Hb. induction n as [|n IH]; intros i s s' E R; cbn [for_reports].
  - exact R.
  - rewrite <- (Hc s s' i ltac:(lia) R). destruct (cond s i); [|exact R].
    pose proof (Hb s s' i ltac:(lia) R) as B. unfold same_outcome in B.
    destruct (body s i) as [t|], (body s' i) as [t'|];
      try contradiction; [|exact I].
    apply IH; [lia | exact B].
Qed.

Lemma update_reports_same (m : nat) (s s' : locals) (i : nat) (advance : Z)
  (f : Report -> option Report) :
  same_upto m s s' ->
  same_outcome m (update_reports s i advance f)
    (update_reports s' i advance f).
Proof.
  intros (O & Rp & Sg & L). unfold update_reports. rewrite Rp.
  destruct (at_report i f (ad_reports s')); [|exact I].
  unfold same_outcome, same_upto.
  cbn [i_octets ad_reports read_segments ad_data_len].
  repeat split; auto; lia.
Qed.

(** The column of lengths sets the entries the next loop reads. *)
Lemma ad_data_len_column_same (N : nat) :
  forall n i s s',
    (i + n = N)%nat -> same_upto i s s' ->
    exists t t' k,
      for_reports n i (fun s _ => room limes 0 s) (ad_data_len_column data) s
      = Some t
      /\ for_reports n i (fun s _ => room limes 0 s) (ad_data_len_column data)
           s' = Some t'
      /\ same_upto k t t' /\ (k = N \/ limes <= i_octets t).
Proof.
  induction n as [|n IH]; intros i s s' E R; cbn [for_reports].
  - exists s, s', i. split; [reflexivity|]. split; [reflexivity|].
    split; [exact R | left; lia].
  - pose proof R as R0.
    destruct R as (O & Rp & Sg & L). unfold room at 1 3. rewrite <- O.
    destruct (i_octets s + 0 <? limes) eqn:C.
    + unfold ad_data_len_column at 1 3. apply IH; [lia|].
      unfold same_upto. cbn [i_octets ad_reports read_segments ad_data_len].
      rewrite O, Rp, Sg. repeat split; auto.
      intros j Lj. destruct (Nat.eqb j i) eqn:Ej; [reflexivity|].
      apply Nat.eqb_neq in Ej. apply L. lia.
    + exists s, s', i. split; [reflexivity|]. split; [reflexivity|].
      split; [exact R0 | right; apply Z.ltb_ge in C; lia].
Qed.

Lemma same_upto_weaken (m k : nat) (s s' : locals) :
  (k <= m)%nat -> same_upto m s s' -> same_upto k s s'.
Proof.
  intros Le (O & Rp & Sg & L). repeat split; auto. intros j Lj. apply L. lia.
Qed.

(** The loop over the data does nothing once the data are used up. *)
Lemma ad_data_column_exhausted (N : nat) (s : locals) :
  limes <= i_octets s ->
  for_reports N 0 (fun s i => room limes (u8 (ad_data_len s i)) s)
    (ad_data_column data) s = Some s.
Proof.
  intro Ex. destruct N as [|N]; [reflexivity|]. cbn [for_reports].
  replace (room limes (u8 (ad_data_len s 0%nat)) s) with false; [reflexivity|].
  symmetry. unfold room. apply Z.ltb_ge.
  assert (0 <= u8 (ad_data_len s 0%nat))
    by (unfold u8; apply Z.mod_pos_bound; lia).
  lia.
Qed.

(** The loop over the data reads the entries of [ad_data_len] that the
    loop before has set, or none that matters. *)
Lemma ad_data_column_same (N k : nat) (t t' : locals) :
  same_upto k t t' -> k = N \/ limes <= i_octets t ->
  same_outcome 0
    (for_reports N 0 (fun s i => room limes (u8 (ad_data_len s i)) s)
       (ad_data_column data) t)
    (for_reports N 0 (fun s i => room limes (u8 (ad_data_len s i)) s)
       (ad_data_column data) t').
Proof.
  intros R [->|Ex].
  - assert (same_outcome N
              (for_reports N 0
                 (fun s i => room limes (u8 (ad_data_len s i)) s)
                 (ad_data_column data) t)
              (for_reports N 0
                 (fun s i => room limes (u8 (ad_data_len s i)) s)
                 (ad_data_column data) t')) as H.
    { apply (for_reports_same N) with (N := N); [| |lia|exact R].
      - intros s s' i Lt (O & Rp & Sg & L).
        rewrite (L i Lt). unfold room. rewrite O. reflexivity.
      - intros s s' i Lt R'. unfold ad_data_column.
        pose proof R' as (O & Rp & Sg & L). rewrite (L i Lt), O.
        apply update_reports_same. exact R'. }
    unfold same_outcome in *.
    destruct (for_reports N 0 _ _ t), (for_reports N 0 _ _ t'); auto.
    apply (same_upto_weaken N); [lia | exact H].
  - rewrite (ad_data_column_exhausted N t Ex).
    rewrite (ad_data_column_exhausted N t').
    + apply (same_upto_weaken k); [lia | exact R].
    + destruct R as (O & _). lia.
Qed.

(** The two runs of the six loops end alike. *)
Lemma read_columns_same (g1 g2 : nat -> Z) (N : nat) :
  same_outcome 0 (read_columns now blank g1 data limes N)
    (read_columns now blank g2 data limes N).
Proof.
  assert (forall c s s', same_upto 0 s s' -> room limes c s = room limes c s')
    as Rm by (intros c s s' (O & _); unfold room; rewrite O; reflexivity).
  unfold read_columns.
  assert (same_outcome 0
            (for_reports N 0 (fun s _ => room limes 0 s)
               (evt_type_column now blank data) (mkLocals 1 [] g1 0))
            (for_reports N 0 (fun s _ => room limes 0 s)
               (evt_type_column now blank data) (mkLocals 1 [] g2 0))) as H1.
  { apply (for_reports_same 0) with (N := N); [| |lia|].
    - intros s s' i _ R. apply (Rm 0 s s' R).
    - intros s s' i _ (O & Rp & Sg & L). unfold evt_type_column.
      rewrite O, Rp, Sg. apply update_reports_same.
      repeat split; auto.
    - repeat split; auto. intros j Lj. lia. }
  unfold same_outcome in H1.
  destruct (for_reports N 0 _ _ (mkLocals 1 [] g1 0)) as [s1|],
           (for_reports N 0 _ _ (mkLocals 1 [] g2 0)) as [s1'|];
    try contradiction; [|exact I].
  assert (same_outcome 0
            (for_reports N 0 (fun s _ => room limes 0 s)
               (address_type_column data) s1)
            (for_reports N 0 (fun s _ => room limes 0 s)
               (address_type_column data) s1')) as H2.
  { apply (for_reports_same 0) with (N := N); [| |lia|exact H1].
    - intros s s' i _ R. apply (Rm 0 s s' R).
    - intros s s' i _ R. unfold address_type_column.
      pose proof R as (O & _). rewrite O. apply update_reports_same.
      exact R. }
  unfold same_outcome in H2.
  destruct (for_reports N 0 _ _ s1) as [s2|],
           (for_reports N 0 _ _ s1') as [s2'|];
    try contradiction; [|exact I].
  assert (same_outcome 0
            (for_reports N 0 (fun s _ => room limes 5 s)
               (address_column data) s2)
            (for_reports N 0 (fun s _ => room limes 5 s)
               (address_column data) s2')) as H3.
  { apply (for_reports_same 0) with (N := N); [| |lia|exact H2].
    - intros s s' i _ R. apply (Rm 5 s s' R).
    - intros s s' i _ R. unfold address_column.
      pose proof R as (O & _). rewrite O. apply update_reports_same.
      exact R. }
  unfold same_outcome in H3.
  destruct (for_reports N 0 _ _ s2) as [s3|],
           (for_reports N 0 _ _ s2') as [s3'|];
    try contradiction; [|exact I].
  destruct (ad_data_len_column_same N N 0%nat s3 s3' eq_refl H3)
    as (s4 & s4' & k & F4 & F4' & R4 & D4).
  rewrite F4, F4'.
  pose proof (ad_data_column_same N k s4 s4' R4 D4) as H5.
  unfold same_outcome in H5.
  destruct (for_reports N 0 _ _ s4) as [s5|],
           (for_reports N 0 _ _ s4') as [s5'|];
    try contradiction; [|exact I].
  apply (for_reports_same 0) with (N := N); [| |lia|exact H5].
  - intros s s' i _ R. apply (Rm 0 s s' R).
  - intros s s' i _ R. unfold rssi_column.
    pose proof R as (O & _). rewrite O. apply update_reports_same.
    exact R.
Qed.

End ADReports_facts.

(** X18. [read_ad_reports] never indexes its vector of reports outside
    its size, whatever the batch and whatever the array of lengths held
    before; it returns no report for a count of 0 or above 0x19, and
    otherwise one report per octet that follows the count, up to the
    count, each with source AD and the time of the call. *)
Theorem read_ad_reports_count (now : Z) (blank : ADReports.Report)
  (garbage : nat -> Z) (data : list Z) (data_length : Z) :
  exists reports segments,
    ADReports.read_ad_reports now blank garbage data data_length
    = Some (reports, segments)
    /\ Forall (ADReports.tagged now) reports
    /\ Z.of_nat (List.length reports)
       = (if (0 >=? EIR.rd data 0) || (EIR.rd data 0 >? 0x19) then 0
          else Z.min (EIR.rd data 0) (Z.max 0 (EIR.u8 data_length - 1))).
Proof.
  unfold ADReports.read_ad_reports.
  destruct ((0 >=? EIR.rd data 0) || (EIR.rd data 0 >? 25)) eqn:V.
  - exists [], 0. repeat split. constructor.
  - apply orb_false_iff in V. destruct V as [V1 V2].
    rewrite Z.geb_leb in V1. apply Z.leb_gt in V1.
    destruct (read_columns_total now blank data (EIR.u8 data_length) garbage
                (Z.to_nat (EIR.rd data 0)))
      as (s & k & F & Len & Tg & K & Rm & D).
    rewrite F. eexists _, _. split; [reflexivity|]. split; [exact Tg|].
    rewrite Len. lia.
Qed.

(** X19. A batch of advertising reports with room for all six columns
    is laid out column by column: event types, address types,
    addresses, data lengths, data and RSSI values. Report [i] gets the
    [i]-th entry of each, its data starting after the data of the
    reports before it. The counter of segments ends at six times the
    number of reports, so the warning about an incomplete batch is
    given for every such batch of two or more reports. *)
Theorem read_ad_reports_complete (now : Z) (blank : ADReports.Report)
  (garbage : nat -> Z) (data : list Z) (data_length : Z) :
  let n := EIR.rd data 0 in
  0 < n <= 0x19 ->
  ADReports.data_offset data n (Z.to_nat n) + n <= EIR.u8 data_length ->
  exists reports segments,
    ADReports.read_ad_reports now blank garbage data data_length
    = Some (reports, segments)
    /\ segments = 6 * n
    /\ (ADReports.incomplete_warning segments = true <-> 1 < n)
    /\ List.length reports = Z.to_nat n
    /\ (forall i, (i < Z.to_nat n)%nat ->
          nth_error reports i
          = ADReports.column_report now blank data n (Z.of_nat i)
              (ADReports.data_offset data n i)
              (ADReports.data_offset data n (Z.to_nat n))).
Proof.
  intros n Rn Fit. unfold ADReports.read_ad_reports. fold n.
  replace ((0 >=? n) || (n >? 25)) with false
    by (symmetry; apply orb_false_iff; split;
        [rewrite Z.geb_leb; apply Z.leb_gt; lia
        |rewrite Z.gtb_ltb; apply Z.ltb_ge; lia]).
  destruct (read_columns_complete now blank data (EIR.u8 data_length) garbage
              (Z.to_nat n)) as (s & F & Sg & Len & Nth).
  - lia.
  - rewrite Z2Nat.id by lia. exact Fit.
  - rewrite F. rewrite Z2Nat.id in * by lia.
    exists (ADReports.ad_reports s), (ADReports.read_segments s).
    split; [reflexivity|]. split; [exact Sg|]. split; [|split; assumption].
    rewrite Sg. unfold ADReports.incomplete_warning.
    rewrite negb_true_iff, Z.eqb_neq. lia.
Qed.

(** A batch of two reports without data. *)
Lemma read_ad_reports_complete_witness :
  exists reports,
    ADReports.read_ad_reports 7
      (ADReports.mkADReport ADReports.Source_NA 0 0 0 (EUI48.mk 0 0 0 0 0 0) 0
         EIR.EInfoReport_new)
      (fun _ => 0)
      [2; 0; 3; 1; 0; 1; 2; 3; 4; 5; 6; 11; 12; 13; 14; 15; 16; 0; 0; 200; 60]
      21
    = Some (reports, 12)
    /\ ADReports.incomplete_warning 12 = true
    /\ List.length reports = 2%nat.
Proof.
  destruct (read_ad_reports_complete 7
              (ADReports.mkADReport ADReports.Source_NA 0 0 0
                 (EUI48.mk 0 0 0 0 0 0) 0 EIR.EInfoReport_new)
              (fun _ => 0)
              [2; 0; 3; 1; 0; 1; 2; 3; 4; 5; 6; 11; 12; 13; 14; 15; 16; 0; 0;
               200; 60]
              21) as (reports & segments & E & Sg & W & L & _).
  - vm_compute. split; [reflexivity | discriminate].
  - vm_compute. discriminate.
  - exists reports. rewrite Sg in E. split; [exact E|].
    split; [reflexivity | exact L].
Defined.

(** X20. The array [ad_data_len] of [read_ad_reports] is not
    initialised. The outcome does not depend on what the array held:
    the reports and the counter of segments are the same for any two
    contents. *)
Theorem read_ad_reports_ignores_uninitialised (now : Z)
  (blank : ADReports.Report) (g1 g2 : nat -> Z) (data : list Z)
  (data_length : Z) :
  ADReports.read_ad_reports now blank g1 data data_length
  = ADReports.read_ad_reports now blank g2 data data_length.
Proof.
  unfold ADReports.read_ad_reports.
  destruct ((0 >=? EIR.rd data 0) || (EIR.rd data 0 >? 25)); [reflexivity|].
  pose proof (read_columns_same now blank data (EIR.u8 data_length) g1 g2
                (Z.to_nat (EIR.rd data 0))) as H.
  unfold ADReports.same_outcome in H.
  destruct (ADReports.read_columns now blank g1 data (EIR.u8 data_length) _)
    as [t|],
    (ADReports.read_columns now blank g2 data (EIR.u8 data_length) _)
    as [t'|]; try contradiction; [|reflexivity].
  destruct H as (_ & Rp & Sg & _). rewrite Rp, Sg. reflexivity.
Qed.

(** ** The Device ID as a modalias *)

Section Modalias_facts.
Import EIR Modalias.

Lemma hexdigit_upper_inj (d1 d2 : Z) :
  0 <= d1 < 16 -> 0 <= d2 < 16 ->
  EUI48.hexdigit_upper d1 = EUI48.hexdigit_upper d2 -> d1 = d2.
Proof.
  intros R1 R2 E.
  destruct (hexdigit_upper_digit d1 R1) as [_ H1].
  destruct (hexdigit_upper_digit d2 R2) as [_ H2].
  rewrite E in H1. congruence.
Qed.

Lemma print_04X_inj (v1 v2 : Z) (k1 k2 : string) :
  u16 v1 -> u16 v2 -> print_04X v1 k1 = print_04X v2 k2 ->
  v1 = v2 /\ k1 = k2.
Proof.
  unfold u16, print_04X. intros R1 R2 E.
  injection E as E3 E2 E1 E0 Ek.
  apply hexdigit_upper_inj in E3, E2, E1, E0;
    try (apply Z.mod_pos_bound; lia).
  split; [|exact Ek].
  Z.div_mod_to_equations. lia.
Qed.

Lemma print_X_inj (v1 v2 : Z) (k1 k2 : string) :
  u16 v1 -> u16 v2 -> String.length k1 = String.length k2 ->
  print_X v1 k1 = print_X v2 k2 -> v1 = v2 /\ k1 = k2.
Proof.
  unfold u16, print_X. intros R1 R2 L E.
  destruct (v1 <? 16) eqn:A1; [|destruct (v1 <? 256) eqn:B1;
                                 [|destruct (v1 <? 4096) eqn:C1]];
  (destruct (v2 <? 16) eqn:A2; [|destruct (v2 <? 256) eqn:B2;
                                  [|destruct (v2 <? 4096) eqn:C2]]);
  repeat match goal with
         | H : (_ <? _) = true |- _ => apply Z.ltb_lt in H
         | H : (_ <? _) = false |- _ => apply Z.ltb_ge in H
         end;
  try (exfalso; apply (f_equal String.length) in E; unfold print_04X in E;
       cbn [String.length] in E; lia);
  try (apply print_04X_inj; [unfold u16; lia | unfold u16; lia | exact E]).
  - injection E as E0 Ek. apply hexdigit_upper_inj in E0; try lia.
    split; assumption.
  - injection E as E1 E0 Ek.
    apply hexdigit_upper_inj in E1, E0;
      try (apply Z.mod_pos_bound; lia);
      try (split; [apply Z.div_pos; lia | apply Z.div_lt_upper_bound; lia]).
    split; [|exact Ek]. Z.div_mod_to_equations. lia.
  - injection E as E2 E1 E0 Ek.
    apply hexdigit_upper_inj in E2, E1, E0;
      try (apply Z.mod_pos_bound; lia);
      try (split; [apply Z.div_pos; lia | apply Z.div_lt_upper_bound; lia]).
    split; [|exact Ek]. Z.div_mod_to_equations. lia.
Qed.

Lemma String_tail (c1 c2 : ascii) (s1 s2 : string) :
  String c1 s1 = String c2 s2 -> s1 = s2.
Proof. intro E. injection E as _ E. exact E. Qed.

Lemma append_inv_head (p s1 s2 : string) :
  (p ++ s1 = p ++ s2)%string -> s1 = s2.
Proof.
  induction p as [|c p IH]; cbn [append]; intro E; [exact E|].
  apply IH. exact (String_tail _ _ _ _ E).
Qed.

Lemma ids_inj (r1 r2 : EInfoReport) :
  device_id_u16 r1 -> device_id_u16 r2 -> ids r1 = ids r2 ->
  did_vendor r1 = did_vendor r2 /\ did_product r1 = did_product r2
  /\ did_version r1 = did_version r2.
Proof.
  intros (_ & V1 & P1 & D1) (_ & V2 & P2 & D2) E. unfold ids in E.
  apply String_tail in E.
  apply print_04X_inj in E; auto. destruct E as [Ev E].
  apply String_tail in E.
  apply print_04X_inj in E; auto. destruct E as [Ep E].
  apply String_tail in E.
  apply print_04X_inj in E; auto. destruct E as [Ed _].
  auto.
Qed.

(** The test of [length] never takes the branch of the empty text. *)
Lemma getDeviceIDModalias_printed (r : EInfoReport) :
  getDeviceIDModalias r
  = if did_source r =? 1 then ("bluetooth:" ++ ids r)%string
    else if did_source r =? 2 then ("usb:" ++ ids r)%string
    else ("source<0x" ++ print_X (did_source r) (">:" ++ ids r))%string.
Proof.
  unfold getDeviceIDModalias.
  destruct (did_source r =? 1); [reflexivity|].
  destruct (did_source r =? 2); reflexivity.
Qed.

End Modalias_facts.

(** X21. [getDeviceIDModalias] never returns the empty text, and the
    text names the Device ID: two reports with the same modalias have
    the same source, vendor, product and version. *)
Theorem getDeviceIDModalias_injective (r1 r2 : EIR.EInfoReport) :
  Modalias.device_id_u16 r1 -> Modalias.device_id_u16 r2 ->
  Modalias.getDeviceIDModalias r1 <> EmptyString
  /\ (Modalias.getDeviceIDModalias r1 = Modalias.getDeviceIDModalias r2 ->
      EIR.did_source r1 = EIR.did_source r2
      /\ EIR.did_vendor r1 = EIR.did_vendor r2
      /\ EIR.did_product r1 = EIR.did_product r2
      /\ EIR.did_version r1 = EIR.did_version r2).
Proof.
  intros U1 U2. rewrite !getDeviceIDModalias_printed. split.
  - destruct (EIR.did_source r1 =? 1); [discriminate|].
    destruct (EIR.did_source r1 =? 2); discriminate.
  - destruct (EIR.did_source r1 =? 1) eqn:A1;
      [|destruct (EIR.did_source r1 =? 2) eqn:B1];
    (destruct (EIR.did_source r2 =? 1) eqn:A2;
       [|destruct (EIR.did_source r2 =? 2) eqn:B2]);
    intro E; try discriminate E;
    repeat match goal with
           | H : (_ =? _) = true |- _ => apply Z.eqb_eq in H
           end.
    + apply append_inv_head in E.
      split; [congruence | apply ids_inj; assumption].
    + apply append_inv_head in E.
      split; [congruence | apply ids_inj; assumption].
    + apply append_inv_head in E.
      apply print_X_inj in E;
        [|apply U1 | apply U2 | reflexivity].
      destruct E as [Es E]. apply (append_inv_head ">:") in E.
      split; [exact Es | apply ids_inj; assumption].
Qed.

(** Two reports that differ in their flags only. *)
Lemma getDeviceIDModalias_injective_witness :
  Modalias.getDeviceIDModalias
    (EIR.setDeviceID 1 0x1D6B 0x0246 0x0537 EIR.EInfoReport_new)
  <> EmptyString
  /\ EIR.did_vendor
       (EIR.setDeviceID 1 0x1D6B 0x0246 0x0537 EIR.EInfoReport_new)
     = EIR.did_vendor
         (EIR.setFlags 6
            (EIR.setDeviceID 1 0x1D6B 0x0246 0x0537 EIR.EInfoReport_new)).
Proof.
  destruct (getDeviceIDModalias_injective
              (EIR.setDeviceID 1 0x1D6B 0x0246 0x0537 EIR.EInfoReport_new)
              (EIR.setFlags 6
                 (EIR.setDeviceID 1 0x1D6B 0x0246 0x0537 EIR.EInfoReport_new)))
    as [Ne Inj].
  - unfold Modalias.device_id_u16, Modalias.u16. cbn. lia.
  - unfold Modalias.device_id_u16, Modalias.u16. cbn. lia.
  - split; [exact Ne|]. apply Inj. reflexivity.
Defined.
